(** * Agent orchestration core: base agent contract and orchestrator

    A shallow embedding of [backend/agents/base_agent.py],
    [backend/agents/orchestrator.py] and the confidence function of
    [backend/agents/offline_knowledge_agent.py], with the properties of the
    dispatcher proved over it.

    Conventions of the embedding
    - Python [float] scores and latencies are rationals ([Q]); comparisons
      are those of the rationals, equality of floats is [Qeq].
    - A Python [dict] with string keys is a [gmap string PyVal]; the agent
      registry, whose iteration order matters, is an association list in
      insertion order.
    - A method that may raise returns an [Outcome]; [try/except Exception]
      is a [match] on it.
    - [datetime.now()] reads the [n]-th value of a clock; the number of
      readings made so far is threaded through the calls. *)

From Stdlib Require Import QArith Sorting.Sorted.
From stdpp Require Import gmap strings list fin_maps sorting.

Set Warnings "-register-all".
Set Default Proof Using "Type".

Open Scope string_scope.

(** ** Python values *)

Inductive PyVal : Type :=
| VNone
| VBool (b : bool)
| VNum (q : Q)
| VStr (s : string)
| VList (l : list PyVal)
| VDict (d : gmap string PyVal).

Abbreviation Dict := (gmap string PyVal).

(** Truth value of an object, as used by [if x], [x or y] and [not x]. *)
Definition truthy (v : PyVal) : bool :=
  match v with
  | VNone => false
  | VBool b => b
  | VNum q => negb (Qeq_bool q 0)
  | VStr s => negb (String.eqb s "")
  | VList l => match l with [] => false | _ :: _ => true end
  | VDict d => negb (bool_decide (d = ∅))
  end.

(** [d.get(k)]: the value, or [None] when the key is absent. *)
Definition dict_get (d : Dict) (k : string) : PyVal := default VNone (d !! k).

(** [context or {}] *)
Definition context_or_empty (context : option Dict) : Dict :=
  match context with
  | Some c => if truthy (VDict c) then c else ∅
  | None => ∅
  end.

(** Result of a call that may raise: the value, or the exception's text. *)
Inductive Outcome (A : Type) : Type :=
| Ok (a : A)
| Raise (msg : string).
Arguments Ok {A} a.
Arguments Raise {A} msg.

Definition is_Ok {A} (r : Outcome A) : Prop := ∃ a, r = Ok a.

(** ** The runtime the code calls into *)

Record Runtime : Type := {
  (** [datetime.now()], in seconds, at the [n]-th reading *)
  now : nat → Q;
  (** [datetime.isoformat] *)
  isoformat : Q → string;
  (** [round(x, 2)] *)
  round2 : Q → Q;
  (** [str.lower] *)
  str_lower : string → string
}.

(** ** base_agent.py *)

Module base_agent.

Inductive AgentMode : Type := OFFLINE | ONLINE | AUTO.

Definition AgentMode_value (m : AgentMode) : string :=
  match m with
  | OFFLINE => "offline"
  | ONLINE => "online"
  | AUTO => "auto"
  end.

#[export] Instance AgentMode_eq_dec : EqDecision AgentMode.
Proof. solve_decision. Defined.

Inductive AgentPriority : Type := CRITICAL | HIGH | MEDIUM | LOW.

Definition AgentPriority_value (p : AgentPriority) : Z :=
  match p with
  | CRITICAL => 1
  | HIGH => 2
  | MEDIUM => 3
  | LOW => 4
  end.

(** [self.stats] of an agent.  The counters start at 0 and are only ever
    incremented, hence naturals. *)
Record AgentStats : Type := {
  total_requests : nat;
  offline_requests : nat;
  online_requests : nat;
  successful_responses : nat;
  failed_responses : nat;
  avg_response_time_ms : Q;
  last_used : option string
}.

(** An agent: the fields set by [BaseAgent.__init__] together with the
    methods a concrete subclass supplies.  No subclass in the repository
    overrides [process] or touches [stats]. *)
Record Agent : Type := {
  agent_id : string;
  name : string;
  priority : AgentPriority;
  default_mode : AgentMode;
  current_mode : AgentMode;
  stats : AgentStats;
  can_handle : string → Dict → Outcome Q;
  process_offline : string → option Dict → Outcome Dict;
  process_online : string → option Dict → Outcome Dict
}.

Definition init_stats : AgentStats :=
  {| total_requests := 0; offline_requests := 0; online_requests := 0;
     successful_responses := 0; failed_responses := 0;
     avg_response_time_ms := 0; last_used := None |}.

(** [BaseAgent.__init__]; [can_handle] of the base class returns [0.0]. *)
Definition BaseAgent_init (agent_id name : string) (priority : AgentPriority)
    (default_mode : AgentMode)
    (can_handle : string → Dict → Outcome Q)
    (process_offline process_online : string → option Dict → Outcome Dict)
    : Agent :=
  {| agent_id := agent_id; name := name; priority := priority;
     default_mode := default_mode; current_mode := default_mode;
     stats := init_stats; can_handle := can_handle;
     process_offline := process_offline; process_online := process_online |}.

Definition BaseAgent_can_handle (query : string) (context : Dict) : Outcome Q :=
  Ok 0%Q.

Definition set_stats (a : Agent) (s : AgentStats) : Agent :=
  {| agent_id := agent_id a; name := name a; priority := priority a;
     default_mode := default_mode a; current_mode := current_mode a;
     stats := s; can_handle := can_handle a;
     process_offline := process_offline a; process_online := process_online a |}.

Definition set_mode (a : Agent) (mode : AgentMode) : Agent :=
  {| agent_id := agent_id a; name := name a; priority := priority a;
     default_mode := default_mode a; current_mode := mode;
     stats := stats a; can_handle := can_handle a;
     process_offline := process_offline a; process_online := process_online a |}.

Definition reset_stats (a : Agent) : Agent := set_stats a init_stats.

(** [_check_connectivity]: the raw value stored under [has_internet], or
    [False]. *)
Definition _check_connectivity (context : option Dict) : PyVal :=
  match context with
  | Some c =>
      if truthy (VDict c) then
        match c !! "has_internet" with
        | Some v => v
        | None => VBool false
        end
      else VBool false
  | None => VBool false
  end.

(** Lines 144-148 of [process]: the mode the call executes in. *)
Definition resolve_mode (a : Agent) (context : option Dict)
    (mode : option AgentMode) : AgentMode :=
  let active_mode := match mode with Some m => m | None => current_mode a end in
  if decide (active_mode = AUTO) then
    if truthy (_check_connectivity context) then ONLINE else OFFLINE
  else active_mode.

(** [_update_avg_response_time]; dividing by a zero count raises. *)
Definition _update_avg_response_time (s : AgentStats) (new_time_ms : Q)
    : Outcome AgentStats :=
  let current_avg := avg_response_time_ms s in
  let total := successful_responses s in
  let store avg :=
    {| total_requests := total_requests s;
       offline_requests := offline_requests s;
       online_requests := online_requests s;
       successful_responses := successful_responses s;
       failed_responses := failed_responses s;
       avg_response_time_ms := avg;
       last_used := last_used s |} in
  if Nat.eqb total 1 then Ok (store new_time_ms)
  else if Nat.eqb total 0 then Raise "float division by zero"
  else Ok (store ((current_avg * inject_Z (Z.of_nat total - 1) + new_time_ms)
                  / inject_Z (Z.of_nat total))%Q).

Section process.
Context (rt : Runtime).

(** The handler [process] dispatches to, once the mode is resolved. *)
Definition run_handler (a : Agent) (active_mode : AgentMode)
    (query : string) (context : option Dict) : Outcome Dict :=
  if decide (active_mode = OFFLINE) then process_offline a query context
  else process_online a query context.

(** The envelope of the [except] branch of [process]. *)
Definition agent_failure (a : Agent) (active_mode : AgentMode)
    (e : string) (timestamp : string) : Dict :=
  <["timestamp" := VStr timestamp]>
  (<["mode" := VStr (AgentMode_value active_mode)]>
  (<["agent_name" := VStr (name a)]>
  (<["agent_id" := VStr (agent_id a)]>
  (<["error" := VStr e]>
  (<["success" := VBool false]> ∅))))).

(** [BaseAgent.process query context mode], started when [t] clock
    readings have been made: the envelope, the agent with its updated
    statistics, and the number of readings made. *)
Definition process (a : Agent) (query : string) (context : option Dict)
    (mode : option AgentMode) (t : nat) : Dict * Agent * nat :=
  let start_time := now rt t in
  let s := stats a in
  let s1 :=
    {| total_requests := S (total_requests s);
       offline_requests := offline_requests s;
       online_requests := online_requests s;
       successful_responses := successful_responses s;
       failed_responses := failed_responses s;
       avg_response_time_ms := avg_response_time_ms s;
       last_used := Some (isoformat rt start_time) |} in
  let active_mode := resolve_mode a context mode in
  let s2 :=
    if decide (active_mode = OFFLINE) then
      {| total_requests := total_requests s1;
         offline_requests := S (offline_requests s1);
         online_requests := online_requests s1;
         successful_responses := successful_responses s1;
         failed_responses := failed_responses s1;
         avg_response_time_ms := avg_response_time_ms s1;
         last_used := last_used s1 |}
    else
      {| total_requests := total_requests s1;
         offline_requests := offline_requests s1;
         online_requests := S (online_requests s1);
         successful_responses := successful_responses s1;
         failed_responses := failed_responses s1;
         avg_response_time_ms := avg_response_time_ms s1;
         last_used := last_used s1 |} in
  let failed (st : AgentStats) (e : string) (t' : nat) :=
    (agent_failure a active_mode e (isoformat rt (now rt t')),
     set_stats a
       {| total_requests := total_requests st;
          offline_requests := offline_requests st;
          online_requests := online_requests st;
          successful_responses := successful_responses st;
          failed_responses := S (failed_responses st);
          avg_response_time_ms := avg_response_time_ms st;
          last_used := last_used st |},
     S t') in
  match run_handler a active_mode query context with
  | Raise e => failed s2 e (S t)
  | Ok response =>
      let response :=
        <["timestamp" := VStr (isoformat rt (now rt (S t)))]>
        (<["mode" := VStr (AgentMode_value active_mode)]>
        (<["agent_name" := VStr (name a)]>
        (<["agent_id" := VStr (agent_id a)]> response))) in
      let s3 :=
        {| total_requests := total_requests s2;
           offline_requests := offline_requests s2;
           online_requests := online_requests s2;
           successful_responses := S (successful_responses s2);
           failed_responses := failed_responses s2;
           avg_response_time_ms := avg_response_time_ms s2;
           last_used := last_used s2 |} in
      let elapsed := ((now rt (S (S t)) - start_time) * 1000)%Q in
      match _update_avg_response_time s3 elapsed with
      | Raise e => failed s3 e (S (S (S t)))
      | Ok s4 =>
          (<["response_time_ms" := VNum (round2 rt elapsed)]> response,
           set_stats a s4, S (S (S t)))
      end
  end.
End process.

End base_agent.

(** ** offline_knowledge_agent.py *)

Module offline_knowledge_agent.
Import base_agent.

(** [kw in s] on strings: [kw] occurs in [s] as a contiguous substring. *)
Fixpoint contains (kw s : string) : bool :=
  String.prefix kw s ||
  match s with
  | EmptyString => false
  | String _ s' => contains kw s'
  end.

Definition app_keywords : list string :=
  ["how to use"; "help"; "guide"; "app"; "feature";
   "navigation"; "settings"; "scan"; "share"; "qr";
   "timetable"; "notes"; "offline"].

Definition education_keywords : list string :=
  ["what is"; "explain"; "definition"; "formula";
   "theorem"; "law"; "principle"; "concept"].

Section can_handle.
Context (rt : Runtime).

(** [OfflineKnowledgeAgent.can_handle] *)
Definition can_handle (query : string) (context : Dict) : Outcome Q :=
  let query_lower := str_lower rt query in
  if existsb (λ kw, contains kw query_lower) app_keywords then Ok (9 # 10)%Q
  else if existsb (λ kw, contains kw query_lower) education_keywords
       then Ok (7 # 10)%Q
  else Ok (3 # 10)%Q.

(** [OfflineKnowledgeAgent.__init__]; the two execution paths, which
    consult the knowledge base, are left to the caller. *)
Definition OfflineKnowledgeAgent
    (process_offline process_online : string → option Dict → Outcome Dict)
    : Agent :=
  BaseAgent_init "offline_knowledge" "Offline Knowledge Agent"
    CRITICAL OFFLINE can_handle process_offline process_online.
End can_handle.
End offline_knowledge_agent.

(** ** orchestrator.py *)

Module orchestrator.
Import base_agent.

(** [self.agents]: a dict iterated in insertion order. *)
Abbreviation Registry := (list (string * Agent)).

(** [self.agents.get(agent_id)] *)
Fixpoint get_agent (agents : Registry) (agent_id : string) : option Agent :=
  match agents with
  | [] => None
  | (k, a) :: rest => if String.eqb k agent_id then Some a else get_agent rest agent_id
  end.

(** The object stored under [agent_id] after it was mutated into [a']. *)
Fixpoint put_agent (agents : Registry) (agent_id : string) (a' : Agent) : Registry :=
  match agents with
  | [] => []
  | (k, a) :: rest =>
      if String.eqb k agent_id then (k, a') :: rest
      else (k, a) :: put_agent rest agent_id a'
  end.

(** [self.stats] of the orchestrator. *)
Record Stats : Type := {
  total_queries : nat;
  successful_responses : nat;
  failed_responses : nat;
  agent_usage : gmap string nat;
  avg_response_time_ms : Q
}.

Record AgentOrchestrator : Type := {
  agents : Registry;
  stats : Stats
}.

(** [AgentOrchestrator.__init__], given the registry built by
    [_initialize_agents]. *)
Definition AgentOrchestrator_init (agents : Registry) : AgentOrchestrator :=
  {| agents := agents;
     stats := {| total_queries := 0; successful_responses := 0;
                 failed_responses := 0; agent_usage := ∅;
                 avg_response_time_ms := 0 |} |}.

(** [_initialize_agents]: the eight agents in the order they are stored.
    The first one's class is spelled out; the seven others, whatever the
    configuration makes of them, are taken as they come. *)
Definition _initialize_agents (rt : Runtime)
    (offline_exec online_exec : string → option Dict → Outcome Dict)
    (study_assistant voice_interface language_support assessment
     content_discovery study_path_planner accessibility : Agent) : Registry :=
  [("offline_knowledge",
    offline_knowledge_agent.OfflineKnowledgeAgent rt offline_exec online_exec);
   ("study_assistant", study_assistant);
   ("voice_interface", voice_interface);
   ("language_support", language_support);
   ("assessment", assessment);
   ("content_discovery", content_discovery);
   ("study_path_planner", study_path_planner);
   ("accessibility", accessibility)].

(** *** The state a request runs in, and the monad threading it *)

Record State : Type := {
  self : AgentOrchestrator;
  ticks : nat
}.

(** A computation reads and updates the state and returns or raises; the
    state reached is kept when it raises. *)
Definition M (A : Type) : Type := State → Outcome A * State.

Definition ret {A} (a : A) : M A := λ st, (Ok a, st).
Definition raise {A} (msg : string) : M A := λ st, (Raise msg, st).
Definition bind {A B} (m : M A) (k : A → M B) : M B :=
  λ st, match m st with
        | (Ok a, st') => k a st'
        | (Raise e, st') => (Raise e, st')
        end.

Notation "'let!' x := m 'in' k" := (bind m (λ x, k))
  (at level 10, x name, m at level 100, k at level 200).

Definition with_stats (st : State) (stats' : Stats) : State :=
  {| self := {| agents := agents (self st); stats := stats' |};
     ticks := ticks st |}.

(** One more reading of the clock has been made. *)
Definition tick (st : State) : State :=
  {| self := self st; ticks := S (ticks st) |}.

Section request.
Context (rt : Runtime).

(** [datetime.now()] *)
Definition read_clock : M Q := λ st, (Ok (now rt (ticks st)), tick st).

(** [self.agents[agent_id]] *)
Definition agent_at (agent_id : string) : M Agent :=
  λ st, match get_agent (agents (self st)) agent_id with
        | Some a => ret a st
        | None => raise ("'" ++ agent_id ++ "'") st
        end.

(** [agent.process(query, context)] on the object stored under
    [agent_id]: its statistics change in place. *)
Definition call_process (agent_id : string) (agent : Agent)
    (query : string) (context : Dict) : M Dict :=
  λ st, let '(response, agent', t') :=
          process rt agent query (Some context) None (ticks st) in
        (Ok response,
         {| self := {| agents := put_agent (agents (self st)) agent_id agent';
                       stats := stats (self st) |};
            ticks := t' |}).

(** *** _select_agents *)

Definition Qltb (x y : Q) : bool :=
  match (x ?= y)%Q with Lt => true | _ => false end.

(** [(-x[1], x[2]) < (-y[1], y[2])] on tuples. *)
Definition key_lt (x y : string * Q * Z) : bool :=
  match (- x.1.2 ?= - y.1.2)%Q with
  | Lt => true
  | Eq => (x.2 <? y.2)%Z
  | Gt => false
  end.

(** [list.sort(key=...)] is stable: an element is placed before the
    first one whose key is not smaller than its own. *)
Fixpoint sort_insert (x : string * Q * Z) (l : list (string * Q * Z))
    : list (string * Q * Z) :=
  match l with
  | [] => [x]
  | y :: l' => if key_lt y x then y :: sort_insert x l' else x :: y :: l'
  end.

Definition sort_scores (l : list (string * Q * Z)) : list (string * Q * Z) :=
  foldr sort_insert [] l.

(** The loop of [_select_agents] over [self.agents.items()]. *)
Fixpoint score_agents (agents : Registry) (query : string) (context : Dict)
    : Outcome (list (string * Q * Z)) :=
  match agents with
  | [] => Ok []
  | (agent_id, agent) :: rest =>
      match can_handle agent query context with
      | Raise e => Raise e
      | Ok confidence =>
          match score_agents rest query context with
          | Raise e => Raise e
          | Ok agent_scores =>
              if Qltb 0 confidence
              then Ok ((agent_id, confidence,
                        AgentPriority_value (priority agent)) :: agent_scores)
              else Ok agent_scores
          end
      end
  end.

Definition select_from (agents : Registry) (query : string) (context : Dict)
    : Outcome (list (string * Q)) :=
  match score_agents agents query context with
  | Raise e => Raise e
  | Ok agent_scores =>
      Ok ((λ x : string * Q * Z, (x.1.1, x.1.2)) <$> take 3 (sort_scores agent_scores))
  end.

Definition _select_agents (query : string) (context : Dict)
    : M (list (string * Q)) :=
  λ st, (select_from (agents (self st)) query context, st).

(** *** _update_agent_usage *)

Definition _update_agent_usage (agent_id : string) : M unit :=
  λ st,
    let s := stats (self st) in
    (Ok tt,
     with_stats st
       {| total_queries := total_queries s;
          successful_responses := successful_responses s;
          failed_responses := failed_responses s;
          agent_usage :=
            <[agent_id := S (default 0 (agent_usage s !! agent_id))]> (agent_usage s);
          avg_response_time_ms := avg_response_time_ms s |}).

Definition count_success_in (st : State) : State :=
  let s := stats (self st) in
  with_stats st
    {| total_queries := total_queries s;
       successful_responses := S (successful_responses s);
       failed_responses := failed_responses s;
       agent_usage := agent_usage s;
       avg_response_time_ms := avg_response_time_ms s |}.

Definition count_failure_in (st : State) : State :=
  let s := stats (self st) in
  with_stats st
    {| total_queries := total_queries s;
       successful_responses := successful_responses s;
       failed_responses := S (failed_responses s);
       agent_usage := agent_usage s;
       avg_response_time_ms := avg_response_time_ms s |}.

Definition count_query_in (st : State) : State :=
  let s := stats (self st) in
  with_stats st
    {| total_queries := S (total_queries s);
       successful_responses := successful_responses s;
       failed_responses := failed_responses s;
       agent_usage := agent_usage s;
       avg_response_time_ms := avg_response_time_ms s |}.

Definition count_success : M unit := λ st, (Ok tt, count_success_in st).
Definition count_failure : M unit := λ st, (Ok tt, count_failure_in st).

(** *** _default_response *)

Definition _default_response (query : string) (context : Dict) : M Dict :=
  let! fallback_agent := agent_at "offline_knowledge" in
  let! response := call_process "offline_knowledge" fallback_agent query context in
  ret (<["is_fallback" := VBool true]> response).

(** *** _enhance_response *)

(** One iteration of the loop over [secondary_agents[:2]].  Nothing in
    its [try] block can raise: [process] turns every exception of the
    agent into an envelope. *)
Definition enhance_step (primary_response : Dict) (query : string)
    (context : Dict) (enhancements : Dict) (sec : string * Q) : M Dict :=
  let '(agent_id, confidence) := sec in
  let! agent := agent_at agent_id in
  if String.eqb agent_id "content_discovery" && Qltb (1 # 2) confidence then
    let video_context :=
      <["subject" := dict_get primary_response "subject"]> context in
    let! video_response := call_process agent_id agent query video_context in
    if truthy (dict_get video_response "success")
    then ret (<["recommended_videos" := VDict video_response]> enhancements)
    else ret enhancements
  else if String.eqb agent_id "study_path_planner" && Qltb (1 # 2) confidence then
    ret (<["study_path_available" := VBool true]> enhancements)
  else if String.eqb agent_id "assessment" && Qltb (1 # 2) confidence then
    ret (<["practice_available" := VBool true]> enhancements)
  else ret enhancements.

Fixpoint enhance_loop (primary_response : Dict) (query : string)
    (context : Dict) (secs : list (string * Q)) (enhancements : Dict) : M Dict :=
  match secs with
  | [] => ret enhancements
  | sec :: rest =>
      let! enhancements' := enhance_step primary_response query context enhancements sec in
      enhance_loop primary_response query context rest enhancements'
  end.

Definition _enhance_response (primary_response : Dict)
    (secondary_agents : list (string * Q)) (query : string) (context : Dict)
    : M Dict :=
  let! enhancements :=
    enhance_loop primary_response query context (take 2 secondary_agents) ∅ in
  if truthy (VDict enhancements)
  then ret (<["enhancements" := VDict enhancements]> primary_response)
  else ret primary_response.

(** *** process_query *)

(** The envelope built by the [except] branch of [process_query]. *)
Definition failure_envelope (e : string) (timestamp : string) : Dict :=
  <["timestamp" := VStr timestamp]>
  (<["message" := VStr "An error occurred while processing your request"]>
  (<["error" := VStr e]>
  (<["success" := VBool false]> ∅))).

(** The body of the [try] block. *)
Definition process_query_try (query : string) (context : Dict)
    (start_time : Q) : M Dict :=
  let! selected_agents := _select_agents query context in
  match selected_agents with
  | [] => _default_response query context
  | (primary_agent_id, confidence) :: secondary =>
      let! primary_agent := agent_at primary_agent_id in
      let! response := call_process primary_agent_id primary_agent query context in
      let! response :=
        (if (1 <? length selected_agents)%nat
            && truthy (dict_get response "success")
         then _enhance_response response secondary query context
         else ret response) in
      let! _ :=
        (if truthy (dict_get response "success")
         then count_success else count_failure) in
      let! _ := _update_agent_usage primary_agent_id in
      let! end_time := read_clock in
      let elapsed := ((end_time - start_time) * 1000)%Q in
      ret (<["total_response_time_ms" := VNum (round2 rt elapsed)]> response)
  end.

(** [process_query query context]: it returns an envelope and the state
    it leaves; no exception leaves it. *)
Definition process_query (query : string) (context : option Dict)
    (st : State) : Dict * State :=
  let start_time := now rt (ticks st) in
  let st := count_query_in (tick st) in
  let context := context_or_empty context in
  match process_query_try query context start_time st with
  | (Ok response, st') => (response, st')
  | (Raise e, st') =>
      let st' := count_failure_in st' in
      (failure_envelope e (isoformat rt (now rt (ticks st'))), tick st')
  end.
End request.
End orchestrator.

(** ** orchestrator.py: administration and statistics *)

Module orchestrator_admin.
Import base_agent orchestrator.

(** One turn of the loop of [set_mode]: [if agent_id in self.agents:
    self.agents[agent_id].set_mode(mode)]. *)
Definition set_mode_at (mode : AgentMode) (agents : Registry) (agent_id : string)
    : Registry :=
  match get_agent agents agent_id with
  | Some a => put_agent agents agent_id (base_agent.set_mode a mode)
  | None => agents
  end.

(** [AgentOrchestrator.set_mode mode agent_ids]; without a list of ids, or
    with an empty one, every registered agent is targeted. *)
Definition set_mode (mode : AgentMode) (agent_ids : option (list string))
    (o : AgentOrchestrator) : AgentOrchestrator :=
  let target_agents :=
    match agent_ids with
    | Some (id :: ids) => id :: ids
    | _ => fst <$> agents o
    end in
  {| agents := foldl (set_mode_at mode) (agents o) target_agents;
     stats := stats o |}.

(** The [success_rate] entry of [get_stats]. *)
Definition success_rate (s : Stats) : Q :=
  if (0 <? total_queries s)%nat
  then (inject_Z (Z.of_nat (successful_responses s))
        / inject_Z (Z.of_nat (total_queries s)) * 100)%Q
  else 0%Q.

(** [self.stats['agent_usage'].get(agent_id, 0)] *)
Definition usage_count (s : Stats) (agent_id : string) : nat :=
  default 0%nat (agent_usage s !! agent_id).

Definition VNat (n : nat) : PyVal := VNum (inject_Z (Z.of_nat n)).

(** [AgentOrchestrator.get_stats] *)
Definition get_stats (o : AgentOrchestrator) : Dict :=
  let s := stats o in
  <["agents" :=
      VList ((λ e : string * Agent,
                VDict (<["usage_count" := VNat (usage_count s e.1)]>
                      (<["name" := VStr (name e.2)]>
                      (<["id" := VStr e.1]> ∅))))
             <$> agents o)]>
  (<["total_agents" := VNat (length (agents o))]>
  (<["agent_usage" := VDict (VNat <$> agent_usage s)]>
  (<["success_rate" := VNum (success_rate s)]>
  (<["failed_responses" := VNat (failed_responses s)]>
  (<["successful_responses" := VNat (successful_responses s)]>
  (<["total_queries" := VNat (total_queries s)]> ∅)))))).
End orchestrator_admin.

(** ** offline_knowledge_agent.py: the two execution paths *)

Module offline_knowledge_paths.
Import base_agent offline_knowledge_agent.

(** The knowledge base as the agent's paths use it:
    [search_app_faqs(query, limit, language)] gives the matching rows, or
    raises. *)
Record KnowledgeBase : Type := {
  search_app_faqs : string → nat → PyVal → Outcome (list Dict)
}.

(** [d[k]]: a missing key raises [KeyError]. *)
Definition dict_item (d : Dict) (k : string) : Outcome PyVal :=
  match d !! k with
  | Some v => Ok v
  | None => Raise ("'" ++ k ++ "'")
  end.

(** Sequencing of calls that may raise. *)
Definition and_then {A B} (r : Outcome A) (k : A → Outcome B) : Outcome B :=
  match r with
  | Ok a => k a
  | Raise e => Raise e
  end.

Definition messages : list (string * string) :=
  [("en",
    "🌐 Internet connection required for educational questions. I can only help with app usage questions in offline mode.");
   ("hi",
    "🌐 शैक्षिक प्रश्नों के लिए इंटरनेट कनेक्शन आवश्यक है। ऑफ़लाइन मोड में मैं केवल ऐप उपयोग प्रश्नों में मदद कर सकता हूं।");
   ("pa",
    "🌐 ਵਿਦਿਅਕ ਸਵਾਲਾਂ ਲਈ ਇੰਟਰਨੈੱਟ ਕਨੈਕਸ਼ਨ ਲੋੜੀਂਦਾ ਹੈ। ਔਫਲਾਈਨ ਮੋਡ ਵਿੱਚ ਮੈਂ ਸਿਰਫ਼ ਐਪ ਵਰਤੋਂ ਸਵਾਲਾਂ ਵਿੱਚ ਮਦਦ ਕਰ ਸਕਦਾ ਹਾਂ।");
   ("bn",
    "🌐 শিক্ষামূলক প্রশ্নের জন্য ইন্টারনেট সংযোগ প্রয়োজন। অফলাইন মোডে আমি শুধুমাত্র অ্যাপ ব্যবহারের প্রশ্নে সাহায্য করতে পারি।");
   ("ta",
    "🌐 கல்வி கேள்விகளுக்கு இணைய இணைப்பு தேவை. ஆஃப்லைன் பயன்முறையில் நான் ஆப் பயன்பாட்டு கேள்விகளில் மட்டுமே உதவ முடியும்.");
   ("te",
    "🌐 విద్యా ప్రశ్నలకు ఇంటర్నెట్ కనెక్షన్ అవసరం. ఆఫ్‌లైన్ మోడ్‌లో నేను యాప్ వినియోగ ప్రశ్నలలో మాత్రమే సహాయం చేయగలను।");
   ("mr",
    "🌐 शैक्षणिक प्रश्नांसाठी इंटरनेट कनेक्शन आवश्यक आहे. ऑफलाइन मोडमध्ये मी फक्त अॅप वापर प्रश्नांमध्ये मदत करू शकतो।");
   ("gu",
    "🌐 શૈક્ષણિક પ્રશ્નો માટે ઇન્ટરનેટ કનેક્શન જરૂરી છે. ઓફલાઇન મોડમાં હું ફક્ત એપ્લિકેશન ઉપયોગ પ્રશ્નોમાં મદદ કરી શકું છું।")].

Definition message_en : string :=
  default "" (list_to_map (M := gmap string string) messages !! "en").

(** [_get_internet_required_message]: [messages.get(language,
    messages['en'])]; a list or a dict cannot be looked up. *)
Definition _get_internet_required_message (language : PyVal) : Outcome string :=
  match language with
  | VStr code =>
      Ok (default message_en (list_to_map (M := gmap string string) messages !! code))
  | VList _ => Raise "unhashable type: 'list'"
  | VDict _ => Raise "unhashable type: 'dict'"
  | _ => Ok message_en
  end.

Section paths.
Context (rt : Runtime).

(** [_is_app_query] *)
Definition _is_app_query (query : string) : bool :=
  let query_lower := str_lower rt query in
  existsb (λ kw, contains kw query_lower) app_keywords.

(** One entry of [alternative_results]. *)
Definition alternative (faq : Dict) : Outcome PyVal :=
  and_then (dict_item faq "question") (λ question,
  and_then (dict_item faq "answer") (λ answer,
  Ok (VDict (<["answer" := answer]> (<["question" := question]> ∅))))).

(** The list comprehension over [faqs[1:3]], in order. *)
Fixpoint alternatives (faqs : list Dict) : Outcome (list PyVal) :=
  match faqs with
  | [] => Ok []
  | faq :: rest =>
      and_then (alternative faq) (λ v,
      and_then (alternatives rest) (λ vs, Ok (v :: vs)))
  end.

(** [_handle_app_query] *)
Definition _handle_app_query (knowledge_base : KnowledgeBase) (query : string)
    (language : PyVal) : Outcome Dict :=
  and_then (search_app_faqs knowledge_base query 3 language) (λ faqs,
  match faqs with
  | [] =>
      Ok (<["suggestions" :=
              VList [VStr "How do I use this app?";
                     VStr "Can I use this app offline?";
                     VStr "How do I scan notes?"]]>
         (<["message" :=
              VStr "No matching app help found. Try rephrasing your question."]>
         (<["success" := VBool false]> ∅)))
  | top_faq :: _ =>
      and_then (dict_item top_faq "answer") (λ answer,
      and_then (dict_item top_faq "question") (λ question,
      let category := default (VStr "app_help") (top_faq !! "category") in
      and_then (if (1 <? length faqs)%nat
                then alternatives (take 2 (drop 1 faqs))
                else Ok []) (λ alternative_results,
      Ok (<["alternative_results" := VList alternative_results]>
         (<["confidence" := VNum (95 # 100)]>
         (<["source" := VStr "offline_faq"]>
         (<["category" := category]>
         (<["question" := question]>
         (<["answer" := answer]>
         (<["success" := VBool true]> ∅))))))))))
  end).

(** [process_offline], for an agent whose [knowledge_base] attribute is
    [knowledge_base] ([None] until [init_tools] sets it). *)
Definition process_offline (knowledge_base : option KnowledgeBase)
    (query : string) (context : option Dict) : Outcome Dict :=
  match knowledge_base with
  | None =>
      Ok (<["message" :=
              VStr "Offline knowledge agent requires knowledge base access"]>
         (<["error" := VStr "Knowledge base not initialized"]>
         (<["success" := VBool false]> ∅)))
  | Some kb =>
      let context := context_or_empty context in
      let language := default (VStr "en") (context !! "language") in
      if _is_app_query query then _handle_app_query kb query language
      else
        and_then (_get_internet_required_message language) (λ message,
        Ok (<["offline_features" :=
                VList [VStr "App usage help and FAQs";
                       VStr "How to use app features";
                       VStr "Navigation guidance";
                       VStr "Settings and preferences"]]>
           (<["suggestion" :=
                VStr "Please connect to internet to get answers to educational questions."]>
           (<["query_type" := VStr "educational"]>
           (<["message" := VStr message]>
           (<["requires_internet" := VBool true]>
           (<["success" := VBool false]> ∅)))))))
  end.

(** [process_online] *)
Definition process_online (knowledge_base : option KnowledgeBase)
    (query : string) (context : option Dict) : Outcome Dict :=
  process_offline knowledge_base query context.

(** The agent as [__init__] builds it, holding [knowledge_base]. *)
Definition agent (knowledge_base : option KnowledgeBase) : Agent :=
  OfflineKnowledgeAgent rt (process_offline knowledge_base)
    (process_online knowledge_base).
End paths.
End offline_knowledge_paths.

(** ** The confidence functions of the seven other registered agents *)

Module registered_agents.
Import base_agent offline_knowledge_agent.

(** [s.endswith(suffix)] *)
Definition endswith (s suffix : string) : bool :=
  String.prefix (String.rev suffix) (String.rev s).

(** The two execution paths of an agent. *)
Record Paths : Type := {
  offline : string → option Dict → Outcome Dict;
  online : string → option Dict → Outcome Dict
}.

Section classes.
Context (rt : Runtime).
(** [str.strip] *)
Context (str_strip : string → string).

(** *** study_assistant_agent.py *)

Definition study_keywords : list string :=
  ["explain"; "solve"; "how to"; "what is"; "why";
   "homework"; "problem"; "question"; "understand";
   "learn"; "teach"; "example"; "steps"; "solution"].

(** [self.subjects.values()], in insertion order. *)
Definition subjects_values : list (list string) :=
  [["math"; "algebra"; "geometry"; "calculus"; "equation"; "solve"; "calculate"];
   ["science"; "physics"; "chemistry"; "biology"; "experiment"; "theory"];
   ["history"; "geography"; "civics"; "politics"; "democracy"];
   ["english"; "grammar"; "essay"; "literature"; "poem"]].

Definition study_assistant_can_handle (query : string) (context : Dict)
    : Outcome Q :=
  let query_lower := str_lower rt query in
  if existsb (λ kw, contains kw query_lower) study_keywords then Ok (95 # 100)%Q
  else if existsb (λ subject_kws, existsb (λ kw, contains kw query_lower) subject_kws)
            subjects_values
       then Ok (8 # 10)%Q
  else if endswith (str_strip query) "?" then Ok (6 # 10)%Q
  else Ok (4 # 10)%Q.

Definition StudyAssistantAgent (p : Paths) : Agent :=
  BaseAgent_init "study_assistant" "Study Assistant Agent" HIGH AUTO
    study_assistant_can_handle (offline p) (online p).

(** *** voice_language_agents.py *)

Definition voice_keywords : list string :=
  ["speak"; "listen"; "voice"; "audio"; "say"; "hear"; "read aloud"].

Definition voice_interface_can_handle (query : string) (context : Dict)
    : Outcome Q :=
  let context := context_or_empty (Some context) in
  if truthy (dict_get context "voice_input")
     || truthy (dict_get context "requires_voice_output")
  then Ok 1%Q
  else
    let query_lower := str_lower rt query in
    if existsb (λ kw, contains kw query_lower) voice_keywords then Ok (9 # 10)%Q
    else Ok 0%Q.

Definition VoiceInterfaceAgent (p : Paths) : Agent :=
  BaseAgent_init "voice_interface" "Voice Interface Agent" HIGH AUTO
    voice_interface_can_handle (offline p) (online p).

Definition translation_keywords : list string :=
  ["translate"; "meaning in"; "hindi me"; "punjabi me";
   "क्या मतलब"; "किसे कहते हैं"; "ਕੀ ਹੈ"].

Definition language_support_can_handle (query : string) (context : Dict)
    : Outcome Q :=
  let context := context_or_empty (Some context) in
  if truthy (dict_get context "requires_translation") then Ok 1%Q
  else
    let query_lower := str_lower rt query in
    if existsb (λ kw, contains kw query_lower) translation_keywords
    then Ok (95 # 100)%Q
    else Ok 0%Q.

Definition LanguageSupportAgent (p : Paths) : Agent :=
  BaseAgent_init "language_support" "Language Support Agent" HIGH AUTO
    language_support_can_handle (offline p) (online p).

(** *** assessment_content_agents.py *)

Definition assessment_keywords : list string :=
  ["quiz"; "test"; "question"; "practice"; "mcq";
   "exam"; "assessment"; "evaluate"; "check answer"].

Definition assessment_can_handle (query : string) (context : Dict) : Outcome Q :=
  let query_lower := str_lower rt query in
  if existsb (λ kw, contains kw query_lower) assessment_keywords then Ok (9 # 10)%Q
  else Ok (2 # 10)%Q.

Definition AssessmentAgent (p : Paths) : Agent :=
  BaseAgent_init "assessment" "Assessment Agent" MEDIUM AUTO
    assessment_can_handle (offline p) (online p).

Definition content_keywords : list string :=
  ["video"; "youtube"; "watch"; "learn from";
   "recommend"; "tutorial"; "lecture"; "explanation"].

Definition content_discovery_can_handle (query : string) (context : Dict)
    : Outcome Q :=
  let query_lower := str_lower rt query in
  if existsb (λ kw, contains kw query_lower) content_keywords then Ok (85 # 100)%Q
  else Ok (3 # 10)%Q.

Definition ContentDiscoveryAgent (p : Paths) : Agent :=
  BaseAgent_init "content_discovery" "Content Discovery Agent" MEDIUM AUTO
    content_discovery_can_handle (offline p) (online p).

(** *** study_path_accessibility_agents.py *)

Definition planning_keywords : list string :=
  ["study plan"; "learning path"; "syllabus"; "schedule";
   "prepare for"; "roadmap"; "study schedule"; "planning";
   "what to study"; "study order"; "curriculum"].

Definition study_path_planner_can_handle (query : string) (context : Dict)
    : Outcome Q :=
  let query_lower := str_lower rt query in
  if existsb (λ kw, contains kw query_lower) planning_keywords then Ok (95 # 100)%Q
  else Ok (2 # 10)%Q.

Definition StudyPathPlannerAgent (p : Paths) : Agent :=
  BaseAgent_init "study_path_planner" "Study Path Planner Agent" MEDIUM AUTO
    study_path_planner_can_handle (offline p) (online p).

Definition accessibility_keywords : list string :=
  ["accessibility"; "screen reader"; "high contrast";
   "large text"; "voice navigation"; "captions";
   "color blind"; "disability"; "visual aid"].

Definition accessibility_can_handle (query : string) (context : Dict)
    : Outcome Q :=
  let context := context_or_empty (Some context) in
  if truthy (dict_get context "accessibility_mode") then Ok 1%Q
  else
    let query_lower := str_lower rt query in
    if existsb (λ kw, contains kw query_lower) accessibility_keywords
    then Ok (95 # 100)%Q
    else Ok 0%Q.

Definition AccessibilityAgent (p : Paths) : Agent :=
  BaseAgent_init "accessibility" "Accessibility Agent" CRITICAL OFFLINE
    accessibility_can_handle (offline p) (online p).

(** *** The registry [_initialize_agents] builds

    The knowledge agent holds [knowledge_base]; the paths of the seven
    other agents, which call into models and services, are taken as they
    come. *)
Definition registry
    (knowledge_base : option offline_knowledge_paths.KnowledgeBase)
    (study_assistant voice_interface language_support assessment
     content_discovery study_path_planner accessibility : Paths)
    : orchestrator.Registry :=
  orchestrator._initialize_agents rt
    (offline_knowledge_paths.process_offline rt knowledge_base)
    (offline_knowledge_paths.process_online rt knowledge_base)
    (StudyAssistantAgent study_assistant)
    (VoiceInterfaceAgent voice_interface)
    (LanguageSupportAgent language_support)
    (AssessmentAgent assessment)
    (ContentDiscoveryAgent content_discovery)
    (StudyPathPlannerAgent study_path_planner)
    (AccessibilityAgent accessibility).
End classes.
End registered_agents.

(** ** Notions used to state the properties *)

(** Time, in milliseconds, [process] measures for a call started at the
    [t]-th clock reading. *)
Definition elapsed_ms (rt : Runtime) (t : nat) : Q :=
  ((now rt (S (S t)) - now rt t) * 1000)%Q.

(** A call of [BaseAgent.process] and a run of such calls on one agent. *)
Record Call : Type := {
  call_query : string;
  call_context : option Dict;
  call_mode : option base_agent.AgentMode
}.

Fixpoint run_calls (rt : Runtime) (a : base_agent.Agent) (calls : list Call)
    (t : nat) : base_agent.Agent * nat :=
  match calls with
  | [] => (a, t)
  | c :: rest =>
      let '(_, a', t') :=
        base_agent.process rt a (call_query c) (call_context c) (call_mode c) t in
      run_calls rt a' rest t'
  end.

(** *** Ranking of candidates *)

#[export] Instance Qlt_decision (x y : Q) : Decision (x < y)%Q :=
  match Qlt_le_dec x y with
  | left H => left H
  | right H => right (Qle_not_lt _ _ H)
  end.

(** The score an agent gives a query (0 when it has none to give). *)
Definition score_of (query : string) (context : Dict) (a : base_agent.Agent) : Q :=
  match base_agent.can_handle a query context with
  | Ok s => s
  | Raise _ => 0%Q
  end.

(** The registered agents scoring above 0, in registry order, each with its
    score and priority ordinal. *)
Definition candidates (agents : list (string * base_agent.Agent))
    (query : string) (context : Dict) : list (string * Q * Z) :=
  (λ e : string * base_agent.Agent,
     (e.1, score_of query context e.2,
      base_agent.AgentPriority_value (base_agent.priority e.2)))
  <$> filter (λ e : string * base_agent.Agent, (0 < score_of query context e.2)%Q)
        agents.

(** [x] may stand before [y]: higher confidence first, and among equal
    confidence the lower priority ordinal first. *)
Definition ranks_before (x y : string * Q * Z) : Prop :=
  (y.1.2 < x.1.2)%Q ∨ ((x.1.2 == y.1.2)%Q ∧ (x.2 ≤ y.2)%Z).

(** *** Registries up to statistics *)

(** The registry with every agent's statistics put back to their initial
    values: what is left is what [__init__] fixed. *)
Definition erase_stats (agents : list (string * base_agent.Agent))
    : list (string * base_agent.Agent) :=
  (λ e : string * base_agent.Agent,
     (e.1, base_agent.set_stats e.2 base_agent.init_stats)) <$> agents.

(** The state after a run of queries. *)
Fixpoint run_queries (rt : Runtime) (st : orchestrator.State)
    (queries : list (string * option Dict)) : orchestrator.State :=
  match queries with
  | [] => st
  | (q, ctx) :: rest => run_queries rt (orchestrator.process_query rt q ctx st).2 rest
  end.

(** *** Enhancement *)

(** The secondary agent [agent_id] is among [secs] with a confidence above
    the threshold 0.5. *)
Definition contributes (secs : list (string * Q)) (agent_id : string) : Prop :=
  ∃ c : Q, (agent_id, c) ∈ secs ∧ (1 # 2 < c)%Q.

(** Number of times [process] has been called on the agent stored under
    [agent_id]. *)
Definition requests_of (st : orchestrator.State) (agent_id : string) : nat :=
  match orchestrator.get_agent (orchestrator.agents (orchestrator.self st)) agent_id with
  | Some a => base_agent.total_requests (base_agent.stats a)
  | None => 0
  end.

(** The context a content-discovery secondary is processed with. *)
Definition video_context (primary_response context : Dict) : Dict :=
  <["subject" := dict_get primary_response "subject"]> context.

(** The state after [process] ran on the agent stored under [agent_id]. *)
Definition after_process (rt : Runtime) (st : orchestrator.State)
    (agent_id : string) (a : base_agent.Agent) (query : string) (context : Dict)
    : orchestrator.State :=
  let out := base_agent.process rt a query (Some context) None (orchestrator.ticks st) in
  {| orchestrator.self :=
       {| orchestrator.agents :=
            orchestrator.put_agent (orchestrator.agents (orchestrator.self st))
              agent_id out.1.2;
          orchestrator.stats := orchestrator.stats (orchestrator.self st) |};
     orchestrator.ticks := out.2 |}.

(** [v] is the envelope of a successful [process] call on the registered
    content-discovery agent, made with the video context. *)
Definition recommended_by (rt : Runtime) (st : orchestrator.State)
    (primary_response : Dict) (query : string) (context : Dict) (v : PyVal) : Prop :=
  ∃ (a : base_agent.Agent) (s : base_agent.AgentStats) (t : nat),
    orchestrator.get_agent (orchestrator.agents (orchestrator.self st))
      "content_discovery" = Some a
    ∧ let vr := (base_agent.process rt (base_agent.set_stats a s) query
                   (Some (video_context primary_response context)) None t).1.1 in
      v = VDict vr ∧ truthy (dict_get vr "success") = true.

(** The registered content-discovery agent answers the query, in the video
    context, with an envelope reporting success. *)
Definition video_succeeds (st : orchestrator.State)
    (primary_response : Dict) (query : string) (context : Dict) : Prop :=
  ∃ (a : base_agent.Agent) (d : Dict),
    orchestrator.get_agent (orchestrator.agents (orchestrator.self st))
      "content_discovery" = Some a
    ∧ let vc := Some (video_context primary_response context) in
      base_agent.run_handler a (base_agent.resolve_mode a vc None) query vc = Ok d
      ∧ truthy (dict_get d "success") = true.

(** Where an entry [k ↦ v] of the enhancements can come from. *)
Definition contributed (rt : Runtime) (st : orchestrator.State)
    (primary_response : Dict) (query : string) (context : Dict)
    (secs : list (string * Q)) (k : string) (v : PyVal) : Prop :=
  (k = "recommended_videos" ∧ contributes secs "content_discovery"
   ∧ recommended_by rt st primary_response query context v)
  ∨ (k = "study_path_available" ∧ v = VBool true
     ∧ contributes secs "study_path_planner")
  ∨ (k = "practice_available" ∧ v = VBool true
     ∧ contributes secs "assessment").

(** What one pass over the secondaries [secs] does to the enhancements
    collected so far and to the state. *)
Definition enhancement_pass (rt : Runtime) (primary_response : Dict)
    (query : string) (context : Dict) (secs : list (string * Q))
    (enh : Dict) (st : orchestrator.State)
    (enh' : Dict) (st' : orchestrator.State) : Prop :=
  orchestrator.stats (orchestrator.self st') = orchestrator.stats (orchestrator.self st)
  ∧ erase_stats (orchestrator.agents (orchestrator.self st'))
    = erase_stats (orchestrator.agents (orchestrator.self st))
  ∧ (∀ k, k ≠ "content_discovery" →
       orchestrator.get_agent (orchestrator.agents (orchestrator.self st')) k
       = orchestrator.get_agent (orchestrator.agents (orchestrator.self st)) k)
  ∧ (¬ contributes secs "content_discovery" → st' = st)
  ∧ (∀ k, (requests_of st k ≤ requests_of st' k)%nat)
  ∧ (contributes secs "content_discovery" →
       (requests_of st "content_discovery" < requests_of st' "content_discovery")%nat)
  ∧ (∀ k v, enh' !! k = Some v →
       enh !! k = Some v ∨ contributed rt st primary_response query context secs k v)
  ∧ (contributes secs "study_path_planner"
       ∨ enh !! "study_path_available" = Some (VBool true) →
     enh' !! "study_path_available" = Some (VBool true))
  ∧ (contributes secs "assessment"
       ∨ enh !! "practice_available" = Some (VBool true) →
     enh' !! "practice_available" = Some (VBool true))
  ∧ ((contributes secs "content_discovery"
        ∧ video_succeeds st primary_response query context)
       ∨ is_Some (enh !! "recommended_videos") →
     is_Some (enh' !! "recommended_videos")).

(** *** The end of a request *)

(** The state after lines 138-146 of [process_query]: the outcome and the
    primary agent's usage are counted and the clock is read. *)
Definition settle (primary_agent_id : string) (response : Dict)
    (st : orchestrator.State) : orchestrator.State :=
  orchestrator.tick
    (orchestrator._update_agent_usage primary_agent_id
       ((if truthy (dict_get response "success")
         then orchestrator.count_success_in
         else orchestrator.count_failure_in) st)).2.

(** The response with the enhancements, if any, attached. *)
Definition attach (enhancements response : Dict) : Dict :=
  if truthy (VDict enhancements)
  then <["enhancements" := VDict enhancements]> response
  else response.

(** *** Envelopes *)

(** The agent a request runs: the top-ranked one, or the fallback agent
    when none is selected. *)
Definition executed_agent (agents : list (string * base_agent.Agent))
    (selected : list (string * Q)) : option base_agent.Agent :=
  match selected with
  | [] => orchestrator.get_agent agents "offline_knowledge"
  | (primary_agent_id, _) :: _ => orchestrator.get_agent agents primary_agent_id
  end.

(** The identity of agent [a] running in mode [m], and a timestamp. *)
Definition agent_fields (response : Dict) (a : base_agent.Agent)
    (m : base_agent.AgentMode) : Prop :=
  response !! "agent_id" = Some (VStr (base_agent.agent_id a))
  ∧ response !! "agent_name" = Some (VStr (base_agent.name a))
  ∧ response !! "mode" = Some (VStr (base_agent.AgentMode_value m))
  ∧ is_Some (response !! "timestamp").

(** The generic failure envelope carrying the text of exception [e]. *)
Definition pipeline_failure (response : Dict) (e : string) : Prop :=
  response !! "success" = Some (VBool false)
  ∧ response !! "error" = Some (VStr e)
  ∧ is_Some (response !! "message")
  ∧ is_Some (response !! "timestamp")
  ∧ ∀ k, k ∈ ["agent_id"; "agent_name"; "mode"; "response_time_ms"] →
         response !! k = None.

(** A state holding an orchestrator as [__init__] leaves it. *)
Definition initial_state (agents : list (string * base_agent.Agent)) (t : nat)
    : orchestrator.State :=
  {| orchestrator.self := orchestrator.AgentOrchestrator_init agents;
     orchestrator.ticks := t |}.

(** *** The claims that fail, as stated *)

(** C2 as stated: the envelope contains the five injected fields. *)
Definition has_injected_fields (response : Dict) : Prop :=
  ∀ k, k ∈ ["agent_id"; "agent_name"; "mode"; "timestamp"; "response_time_ms"] →
       is_Some (response !! k).

(** C6 as stated: after a successful primary response, [process] is
    invoked on each of the first two secondary agents whose confidence
    exceeds 0.5. *)
Definition invokes_each_confident_secondary (rt : Runtime) (query : string)
    (context : option Dict) (st : orchestrator.State) : Prop :=
  ∀ pid conf secondary a,
    orchestrator.select_from (orchestrator.agents (orchestrator.self st)) query
      (context_or_empty context) = Ok ((pid, conf) :: secondary) →
    orchestrator.get_agent (orchestrator.agents (orchestrator.self st)) pid = Some a →
    truthy (dict_get
              (base_agent.process rt a query (Some (context_or_empty context)) None
                 (S (orchestrator.ticks st))).1.1 "success") = true →
    ∀ k c, (k, c) ∈ take 2 secondary → (1 # 2 < c)%Q →
      requests_of (orchestrator.process_query rt query context st).2 k
      = S (requests_of st k).

(** ** Sample data *)

Module sample.
Import base_agent.

(** A clock advancing one second per reading, texts left as they are. *)
Definition rt : Runtime :=
  {| now := λ n, inject_Z (Z.of_nat n);
     isoformat := λ _, "2024-01-01T00:00:00";
     round2 := λ q, q;
     str_lower := λ s, s |}.

Definition answers (text : string) : string → option Dict → Outcome Dict :=
  λ _ _, Ok (<["answer" := VStr text]> (<["success" := VBool true]> ∅)).

Definition declines : string → option Dict → Outcome Dict :=
  λ _ _, Ok (<["success" := VBool false]> ∅).

Definition fails : string → option Dict → Outcome Dict :=
  λ _ _, Raise "connection refused".

Definition scores (c : Q) : string → Dict → Outcome Q := λ _ _, Ok c.

(** An agent in AUTO mode with both paths working. *)
Definition tutor : Agent :=
  BaseAgent_init "study_assistant" "Study Assistant" HIGH AUTO
    (scores (8 # 10)) (answers "offline answer") (answers "online answer").
End sample.

Module sample_requests.
Import base_agent sample.

(** An agent whose two paths both raise. *)
Definition broken : Agent :=
  BaseAgent_init "study_assistant" "Study Assistant" HIGH AUTO
    (scores (8 # 10)) fails fails.

(** A planner that is confident about the query. *)
Definition planner : Agent :=
  BaseAgent_init "study_path_planner" "Study Path Planner" MEDIUM AUTO
    (scores (95 # 100)) (answers "plan") (answers "plan").

(** A video agent that is confident but finds nothing. *)
Definition videos : Agent :=
  BaseAgent_init "content_discovery" "Content Discovery" LOW AUTO
    (scores (85 # 100)) declines declines.

(** A knowledge agent left with the base class's [can_handle]. *)
Definition silent_knowledge : Agent :=
  BaseAgent_init "offline_knowledge" "Offline Knowledge Agent" CRITICAL OFFLINE
    BaseAgent_can_handle (answers "cached") (answers "cached").

(** A tutor that outranks every other sample agent. *)
Definition top_tutor : Agent :=
  BaseAgent_init "study_assistant" "Study Assistant" HIGH AUTO
    (scores 1) (answers "offline answer") (answers "online answer").

Definition only_broken : orchestrator.State :=
  initial_state [("study_assistant", broken)] 0.

Definition only_silent : orchestrator.State :=
  initial_state [("offline_knowledge", silent_knowledge)] 0.

Definition tutor_then_planner : orchestrator.State :=
  initial_state [("study_assistant", top_tutor); ("study_path_planner", planner)] 0.

Definition tutor_planner_videos : orchestrator.State :=
  initial_state
    [("study_assistant", top_tutor); ("study_path_planner", planner);
     ("content_discovery", videos)] 0.
End sample_requests.

Module sample_selection.
Import base_agent sample.

Definition agent_with (ident : string) (p : AgentPriority) (c : Q) : Agent :=
  BaseAgent_init ident ident p AUTO (scores c) (answers ident) (answers ident).

(** Three agents tie at 0.9, one declines, one scores low. *)
Definition ties : orchestrator.State :=
  initial_state
    [("language_support", agent_with "language_support" LOW (9 # 10));
     ("offline_knowledge", agent_with "offline_knowledge" CRITICAL (9 # 10));
     ("voice_interface", agent_with "voice_interface" HIGH 0);
     ("assessment", agent_with "assessment" MEDIUM (9 # 10));
     ("content_discovery", agent_with "content_discovery" HIGH (3 # 10))] 0.
End sample_selection.

(** * Further notions *)

(** ** Runs of calls on one agent *)

(** The chosen path of call [c] on agent [a] returns. *)
Definition call_returns (a : base_agent.Agent) (c : Call) : bool :=
  match base_agent.run_handler a
          (base_agent.resolve_mode a (call_context c) (call_mode c))
          (call_query c) (call_context c) with
  | Ok _ => true
  | Raise _ => false
  end.

Definition Qsum (l : list Q) : Q := foldr Qplus 0%Q l.

(** A count as a rational. *)
Definition Qnat (n : nat) : Q := inject_Z (Z.of_nat n).

(** ** What happens to the registry *)

(** The only change ever made to the registry during a request: [process]
    runs, with a context and without a mode override, on the agent stored
    under some key. *)
Inductive registry_step (rt : Runtime)
    : list (string * base_agent.Agent) → list (string * base_agent.Agent) → Prop :=
| registry_step_process agents k a q ctx t :
    orchestrator.get_agent agents k = Some a →
    registry_step rt agents
      (orchestrator.put_agent agents k
         (base_agent.process rt a q (Some ctx) None t).1.2).

(** The registry of [st'] comes from that of [st] by such changes. *)
Definition processes_only (rt : Runtime) (st st' : orchestrator.State) : Prop :=
  rtc (registry_step rt)
    (orchestrator.agents (orchestrator.self st))
    (orchestrator.agents (orchestrator.self st')).

(** The statistics of an agent are consistent: every request is counted as
    one success or failure and on one of the two paths. *)
Definition stats_consistent (a : base_agent.Agent) : Prop :=
  let s := base_agent.stats a in
  (base_agent.successful_responses s + base_agent.failed_responses s
   = base_agent.total_requests s)%nat
  ∧ (base_agent.offline_requests s + base_agent.online_requests s
     = base_agent.total_requests s)%nat.

(** Sum of the usage counters. *)
Definition usage_total (usage : gmap string nat) : nat :=
  map_fold (λ _ n acc, (n + acc)%nat) 0%nat usage.

(** ** Ranking *)

(** [y] has the sort key of [x]: the same confidence and priority. *)
Definition same_rank (x y : string * Q * Z) : Prop :=
  (y.1.2 == x.1.2)%Q ∧ y.2 = x.2.

#[export] Instance same_rank_decision x y : Decision (same_rank x y).
Proof.
  unfold same_rank. destruct (Qeq_dec y.1.2 x.1.2); [| right; tauto].
  destruct (decide (y.2 = x.2)); [left | right]; tauto.
Defined.

(** ** Administration *)

(** [agent_id] is among the agents a call [set_mode mode agent_ids]
    addresses. *)
Definition targeted (agent_ids : option (list string)) (agent_id : string) : Prop :=
  match agent_ids with
  | Some (id :: ids) => agent_id ∈ id :: ids
  | _ => True
  end.

(** The [online_requests] counter of the agent stored under [agent_id]. *)
Definition online_requests_of (st : orchestrator.State) (agent_id : string) : nat :=
  match orchestrator.get_agent (orchestrator.agents (orchestrator.self st)) agent_id with
  | Some a => base_agent.online_requests (base_agent.stats a)
  | None => 0
  end.

(** ** Confidence functions *)

(** [f] gives for [q] and [ctx] a score between [lo] and [hi]. *)
Definition scores_within (lo hi : Q) (f : string → Dict → Outcome Q)
    (q : string) (ctx : Dict) : Prop :=
  ∃ s, f q ctx = Ok s ∧ (lo <= s)%Q ∧ (s <= hi)%Q.

(** ** More sample data *)

Module sample_knowledge.
Import offline_knowledge_paths.

Definition faq (question answer : string) : Dict :=
  <["answer" := VStr answer]> (<["question" := VStr question]> ∅).

(** A knowledge base that matches every search with the same three FAQs. *)
Definition kb : KnowledgeBase :=
  {| search_app_faqs := λ _ _ _,
       Ok [faq "How do I scan notes?" "Open the scanner from the home screen.";
           faq "Can I share notes?" "Use the share button on a note.";
           faq "Does scanning work offline?" "Yes."] |}.

(** A knowledge base that matches nothing. *)
Definition empty_kb : KnowledgeBase :=
  {| search_app_faqs := λ _ _ _, Ok [] |}.
End sample_knowledge.

Module sample_registry.
Import base_agent registered_agents.

Definition paths (text : string) : Paths :=
  {| offline := sample.answers text; online := sample.answers text |}.

(** The eight agents, the knowledge agent holding the sample knowledge
    base; [strip] leaves texts as they are. *)
Definition eight : orchestrator.Registry :=
  registry sample.rt (λ s, s) (Some sample_knowledge.kb)
    (paths "study") (paths "voice") (paths "language") (paths "quiz")
    (paths "videos") (paths "plan") (paths "accessible").

Definition accessible : Dict := <["accessibility_mode" := VBool true]> ∅.

(** Only the video agent, which declines every request. *)
Definition only_videos : orchestrator.State :=
  initial_state [("content_discovery", sample_requests.videos)] 0.

Definition online_context : Dict := <["has_internet" := VBool true]> ∅.
End sample_registry.

(** ** Reports *)

(** The usage counts a report of [get_stats] lists, agent by agent. *)
Definition listed_usage (report : Dict) : list Q :=
  match report !! "agents" with
  | Some (VList entries) =>
      omap (λ entry,
              match entry with
              | VDict e =>
                  match e !! "usage_count" with
                  | Some (VNum n) => Some n
                  | _ => None
                  end
              | _ => None
              end) entries
  | _ => []
  end.

Module sample_malformed.
Import offline_knowledge_paths.

(** A knowledge base whose rows lack the [answer] column. *)
Definition kb : KnowledgeBase :=
  {| search_app_faqs := λ _ _ _,
       Ok [<["question" := VStr "How do I scan notes?"]> ∅] |}.
End sample_malformed.

(** * Properties *)

(** ** BaseAgent.process *)

Section base_agent_facts.
Import base_agent.
Context (rt : Runtime).

(** What [process] returns and stores when the chosen path raises. *)
Lemma process_raise a q ctx mode t e :
  run_handler a (resolve_mode a ctx mode) q ctx = Raise e →
  process rt a q ctx mode t =
    (agent_failure a (resolve_mode a ctx mode) e (isoformat rt (now rt (S t))),
     set_stats a
       {| total_requests := S (total_requests (stats a));
          offline_requests :=
            (if decide (resolve_mode a ctx mode = OFFLINE)
             then S (offline_requests (stats a)) else offline_requests (stats a));
          online_requests :=
            (if decide (resolve_mode a ctx mode = OFFLINE)
             then online_requests (stats a) else S (online_requests (stats a)));
          successful_responses := successful_responses (stats a);
          failed_responses := S (failed_responses (stats a));
          avg_response_time_ms := avg_response_time_ms (stats a);
          last_used := Some (isoformat rt (now rt t)) |},
     S (S t)).
Proof.
  intros H. unfold process. rewrite H.
  destruct (decide (resolve_mode a ctx mode = OFFLINE)); reflexivity.
Qed.

(** What [process] returns and stores when the chosen path returns. *)
Lemma process_ok a q ctx mode t d :
  run_handler a (resolve_mode a ctx mode) q ctx = Ok d →
  process rt a q ctx mode t =
    (<["response_time_ms" := VNum (round2 rt (elapsed_ms rt t))]>
     (<["timestamp" := VStr (isoformat rt (now rt (S t)))]>
     (<["mode" := VStr (AgentMode_value (resolve_mode a ctx mode))]>
     (<["agent_name" := VStr (name a)]>
     (<["agent_id" := VStr (agent_id a)]> d)))),
     set_stats a
       {| total_requests := S (total_requests (stats a));
          offline_requests :=
            (if decide (resolve_mode a ctx mode = OFFLINE)
             then S (offline_requests (stats a)) else offline_requests (stats a));
          online_requests :=
            (if decide (resolve_mode a ctx mode = OFFLINE)
             then online_requests (stats a) else S (online_requests (stats a)));
          successful_responses := S (successful_responses (stats a));
          failed_responses := failed_responses (stats a);
          avg_response_time_ms :=
            (if Nat.eqb (successful_responses (stats a)) 0 then elapsed_ms rt t
             else (avg_response_time_ms (stats a)
                   * inject_Z (Z.of_nat (S (successful_responses (stats a))) - 1)
                   + elapsed_ms rt t)
                  / inject_Z (Z.of_nat (S (successful_responses (stats a)))))%Q;
          last_used := Some (isoformat rt (now rt t)) |},
     S (S (S t))).
Proof.
  intros H. unfold process. rewrite H.
  unfold _update_avg_response_time, elapsed_ms.
  destruct (decide (resolve_mode a ctx mode = OFFLINE)); cbn [successful_responses];
    destruct (successful_responses (stats a)); reflexivity.
Qed.

(** The [success] field of the envelope is the handler's, or [False]
    when the handler raised. *)
Lemma process_success_field a q ctx mode t :
  dict_get (process rt a q ctx mode t).1.1 "success"
  = match run_handler a (resolve_mode a ctx mode) q ctx with
    | Ok d => dict_get d "success"
    | Raise _ => VBool false
    end.
Proof.
  destruct (run_handler a (resolve_mode a ctx mode) q ctx) as [d | e] eqn:Hrun.
  - rewrite (process_ok _ _ _ _ _ _ Hrun). cbn [fst]. unfold dict_get.
    now rewrite !lookup_insert_ne by discriminate.
  - rewrite (process_raise _ _ _ _ _ _ Hrun). reflexivity.
Qed.
End base_agent_facts.

Section base_agent_claims.
Import base_agent.
Context (rt : Runtime).

(** C4. When the effective mode of a call of [process] is AUTO, the call
    executes ONLINE exactly when the context holds a true value under
    [has_internet], and OFFLINE when the context is absent or has no such
    key.  The mode the call executes in is the one written to the envelope
    and the one whose path is run. *)
Theorem auto_mode_follows_has_internet a q ctx mode t :
  match mode with Some m => m | None => current_mode a end = AUTO →
  let executed := resolve_mode a ctx mode in
  (process rt a q ctx mode t).1.1 !! "mode" = Some (VStr (AgentMode_value executed))
  ∧ run_handler a executed q ctx =
      (if decide (executed = ONLINE) then process_online a q ctx
       else process_offline a q ctx)
  ∧ (∀ c v, ctx = Some c → c !! "has_internet" = Some v →
       (executed = ONLINE ↔ truthy v = true)
       ∧ (executed = OFFLINE ↔ truthy v = false))
  ∧ (∀ c b, ctx = Some c → c !! "has_internet" = Some (VBool b) →
       (executed = ONLINE ↔ b = true))
  ∧ (ctx = None → executed = OFFLINE)
  ∧ (∀ c, ctx = Some c → c !! "has_internet" = None → executed = OFFLINE).
Proof.
  intros Hauto executed.
  assert (Hres : executed =
            if truthy (_check_connectivity ctx) then ONLINE else OFFLINE).
  { unfold executed, resolve_mode. rewrite Hauto.
    destruct (decide (AUTO = AUTO)); [reflexivity | congruence]. }
  assert (Hkey : ∀ c v, ctx = Some c → c !! "has_internet" = Some v →
            _check_connectivity ctx = v).
  { intros c v -> Hv. unfold _check_connectivity. rewrite Hv.
    destruct (truthy (VDict c)) eqn:Hc; [reflexivity |].
    exfalso. simpl in Hc. apply negb_false_iff, bool_decide_eq_true in Hc.
    subst c. rewrite lookup_empty in Hv. discriminate. }
  split; [| split; [| split; [| split; [| split]]]].
  - destruct (run_handler a (resolve_mode a ctx mode) q ctx) as [d | e] eqn:Hrun.
    + rewrite (process_ok rt _ _ _ _ _ _ Hrun). cbn [fst].
      rewrite lookup_insert_ne by discriminate.
      rewrite lookup_insert_ne by discriminate.
      apply lookup_insert_eq.
    + rewrite (process_raise rt _ _ _ _ _ _ Hrun). cbn [fst].
      unfold agent_failure.
      rewrite lookup_insert_ne by discriminate.
      apply lookup_insert_eq.
  - unfold run_handler. rewrite Hres.
    destruct (truthy (_check_connectivity ctx)); reflexivity.
  - intros c v Hc Hv. rewrite Hres, (Hkey c v Hc Hv).
    destruct (truthy v); split; split; congruence.
  - intros c b Hc Hv. rewrite Hres, (Hkey c _ Hc Hv). simpl.
    destruct b; split; congruence.
  - intros ->. rewrite Hres. reflexivity.
  - intros c -> Hv. rewrite Hres. unfold _check_connectivity. rewrite Hv.
    destruct (truthy (VDict c)); reflexivity.
Qed.

(** C8. When the chosen path of [process] returns, the stored average
    latency becomes [(avg * (n - 1) + new) / n], where [n] is the success
    count after its increment and [new] the time measured for this call
    (the one reported, rounded, as [response_time_ms]); for [n = 1] the
    stored average is [new] itself. *)
Theorem avg_response_time_is_incremental_mean a q ctx mode t d :
  run_handler a (resolve_mode a ctx mode) q ctx = Ok d →
  let out := process rt a q ctx mode t in
  let avg := avg_response_time_ms (stats a) in
  let avg' := avg_response_time_ms (stats out.1.2) in
  let n := successful_responses (stats out.1.2) in
  let new := elapsed_ms rt t in
  n = S (successful_responses (stats a))
  ∧ out.1.1 !! "response_time_ms" = Some (VNum (round2 rt new))
  ∧ (avg' == (avg * inject_Z (Z.of_nat n - 1) + new) / inject_Z (Z.of_nat n))%Q
  ∧ (n = 1 → avg' = new).
Proof.
  intros Hrun out avg avg' n new.
  unfold avg', n, out. rewrite (process_ok rt _ _ _ _ _ _ Hrun).
  cbn [fst snd set_stats stats successful_responses avg_response_time_ms].
  split; [reflexivity |]. split; [apply lookup_insert_eq |].
  destruct (successful_responses (stats a)) as [| k] eqn:Hk; cbn [Nat.eqb].
  - split; [| reflexivity]. change (inject_Z (Z.of_nat 1 - 1)) with 0%Q.
    change (inject_Z (Z.of_nat 1)) with 1%Q. subst new avg.
    unfold Qdiv. change (/ 1)%Q with 1%Q. ring.
  - split; [reflexivity | discriminate].
Qed.

(** Every call of [process] counts one request and one outcome. *)
Lemma process_counts a q ctx mode t :
  let a' := (process rt a q ctx mode t).1.2 in
  total_requests (stats a') = S (total_requests (stats a))
  ∧ successful_responses (stats a') + failed_responses (stats a')
    = S (successful_responses (stats a) + failed_responses (stats a)).
Proof.
  destruct (run_handler a (resolve_mode a ctx mode) q ctx) as [d | e] eqn:Hrun.
  - rewrite (process_ok rt _ _ _ _ _ _ Hrun). cbn. split; lia.
  - rewrite (process_raise rt _ _ _ _ _ _ Hrun). cbn. split; lia.
Qed.

Lemma run_calls_counts calls : ∀ a t,
  let a' := (run_calls rt a calls t).1 in
  total_requests (stats a') = length calls + total_requests (stats a)
  ∧ successful_responses (stats a') + failed_responses (stats a')
    = length calls + (successful_responses (stats a) + failed_responses (stats a)).
Proof.
  induction calls as [| c rest IH]; intros a t; [cbn; split; reflexivity |].
  cbn [run_calls length].
  pose proof (process_counts a (call_query c) (call_context c) (call_mode c) t) as Hc.
  destruct (process rt a (call_query c) (call_context c) (call_mode c) t)
    as [[r a1] t1].
  cbn [fst snd] in Hc. destruct Hc as [Htot Hsum].
  specialize (IH a1 t1). cbn zeta in IH |- *. destruct IH as [IH1 IH2].
  rewrite IH1, IH2, Htot, Hsum. split; lia.
Qed.

(** C9. For every agent, after each call of a run of calls of [process]
    (that is, after the first [n] of them, for every [n]) the request
    count and the sum of successes and failures have both grown by the
    number of calls made; so on an agent as [__init__] builds it the
    successes and failures add up to the requests, and the request count
    is the number of calls made. *)
Theorem stats_add_up_after_each_call a ident nm prio dm ch off on calls t :
  ∀ n : nat,
    let made := take n calls in
    (let a' := (run_calls rt a made t).1 in
     total_requests (stats a') = (length made + total_requests (stats a))%nat
     ∧ (successful_responses (stats a') + failed_responses (stats a')
        = length made
          + (successful_responses (stats a) + failed_responses (stats a)))%nat)
    ∧ (let fresh := BaseAgent_init ident nm prio dm ch off on in
       let a' := (run_calls rt fresh made t).1 in
       (successful_responses (stats a') + failed_responses (stats a')
        = total_requests (stats a'))%nat
       ∧ total_requests (stats a') = length made).
Proof.
  intros n made. split; [exact (run_calls_counts made a t) |].
  intros fresh a'.
  destruct (run_calls_counts made fresh t) as [Htot Hsum].
  fold a' in Htot, Hsum. cbn in Htot, Hsum. split; lia.
Qed.
End base_agent_claims.

(** ** Selection *)

Section selection.
Import base_agent orchestrator.

Lemma Qltb_lt x y : Qltb x y = true ↔ (x < y)%Q.
Proof.
  unfold Qltb. rewrite Qlt_alt. destruct (x ?= y)%Q; split; congruence.
Qed.

Lemma key_lt_true x y : key_lt x y = true → ranks_before x y.
Proof.
  unfold key_lt, ranks_before.
  destruct (- x.1.2 ?= - y.1.2)%Q eqn:Hc; [| | discriminate].
  - intros Hp. right. apply Qeq_alt in Hc. split; [| lia].
    rewrite <- (Qopp_involutive x.1.2), <- (Qopp_involutive y.1.2), Hc.
    reflexivity.
  - intros _. left. apply Qlt_alt in Hc. apply Qopp_lt_compat in Hc.
    rewrite !Qopp_involutive in Hc. exact Hc.
Qed.

Lemma key_lt_false x y : key_lt x y = false → ranks_before y x.
Proof.
  unfold key_lt, ranks_before.
  destruct (- x.1.2 ?= - y.1.2)%Q eqn:Hc; [| discriminate |].
  - intros Hp. right. apply Qeq_alt in Hc. split; [| lia].
    rewrite <- (Qopp_involutive x.1.2), <- (Qopp_involutive y.1.2), Hc.
    reflexivity.
  - intros _. left. apply Qgt_alt in Hc. apply Qopp_lt_compat in Hc.
    rewrite !Qopp_involutive in Hc. exact Hc.
Qed.

Lemma ranks_before_trans x y z :
  ranks_before x y → ranks_before y z → ranks_before x z.
Proof.
  unfold ranks_before. intros [Hxy | [Hxy Pxy]] [Hyz | [Hyz Pyz]].
  - left. eapply Qlt_trans; eassumption.
  - left. rewrite <- Hyz. exact Hxy.
  - left. rewrite Hxy. exact Hyz.
  - right. split; [rewrite Hxy; exact Hyz | lia].
Qed.

Lemma sort_insert_perm x l : sort_insert x l ≡ₚ x :: l.
Proof.
  induction l as [| y l IH]; cbn; [reflexivity |].
  destruct (key_lt y x); [| reflexivity].
  rewrite IH. apply Permutation_swap.
Qed.

Lemma sort_scores_perm l : sort_scores l ≡ₚ l.
Proof.
  induction l as [| x l IH]; cbn; [reflexivity |].
  rewrite sort_insert_perm. now rewrite IH.
Qed.

Lemma sort_insert_sorted x l :
  StronglySorted ranks_before l → StronglySorted ranks_before (sort_insert x l).
Proof.
  induction 1 as [| y l Hl IH Hy]; cbn; [repeat constructor |].
  destruct (key_lt y x) eqn:Hk.
  - constructor; [exact IH |].
    rewrite sort_insert_perm. constructor; [now apply key_lt_true | exact Hy].
  - apply key_lt_false in Hk. constructor; [now constructor |].
    constructor; [exact Hk |].
    eapply Forall_impl; [exact Hy |]. intros z Hz.
    eapply ranks_before_trans; eassumption.
Qed.

Lemma sort_scores_sorted l : StronglySorted ranks_before (sort_scores l).
Proof.
  induction l as [| x l IH]; cbn; [constructor | now apply sort_insert_sorted].
Qed.

(** When every agent gives a score, the loop collects the candidates. *)
Lemma score_agents_candidates agents q ctx :
  Forall (λ e : string * Agent, is_Ok (can_handle e.2 q ctx)) agents →
  score_agents agents q ctx = Ok (candidates agents q ctx).
Proof.
  induction 1 as [| [k a] rest [s Hs] _ IH]; [reflexivity |].
  cbn [score_agents]. cbn [snd] in Hs. rewrite Hs, IH.
  assert (Hsc : score_of q ctx a = s) by (unfold score_of; now rewrite Hs).
  unfold candidates. rewrite filter_cons. cbn [snd]. rewrite Hsc.
  destruct (decide (0 < s)%Q) as [Hpos | Hpos].
  - apply Qltb_lt in Hpos. rewrite Hpos, fmap_cons. cbn [fst snd].
    now rewrite Hsc.
  - destruct (Qltb 0 s) eqn:Hb; [apply Qltb_lt in Hb; contradiction | reflexivity].
Qed.

Lemma sorted_lookup_lt (l : list (string * Q * Z)) (i j : nat) x y :
  StronglySorted ranks_before l → (i < j)%nat →
  l !! i = Some x → l !! j = Some y → ranks_before x y.
Proof.
  intros Hs. revert i j x y.
  induction Hs as [| z l Hl IH Hz]; intros i j x y Hij Hi Hj.
  - rewrite lookup_nil in Hi. discriminate.
  - destruct j as [| j]; [lia |]. cbn in Hj. destruct i as [| i].
    + cbn in Hi. injection Hi as <-.
      rewrite Forall_forall in Hz. apply Hz.
      eapply list_elem_of_lookup_2. exact Hj.
    + cbn in Hi. apply (IH i j); [lia | assumption | assumption].
Qed.

(** C1. When every registered agent gives a score, [_select_agents]
    returns, without touching the state, the first three entries of a
    list [ranked] that holds exactly the registered agents scoring above
    0 and is ordered by descending confidence and, among equal
    confidence, by ascending priority ordinal; so of two entries with
    equal confidence the one with the lower ordinal comes first. *)
Theorem select_agents_ranks_candidates q ctx st :
  Forall (λ e : string * Agent, is_Ok (can_handle e.2 q ctx)) (agents (self st)) →
  ∃ ranked : list (string * Q * Z),
    _select_agents q ctx st
      = (Ok ((λ x : string * Q * Z, (x.1.1, x.1.2)) <$> take 3 ranked), st)
    ∧ ranked ≡ₚ candidates (agents (self st)) q ctx
    ∧ StronglySorted ranks_before ranked
    ∧ (∀ (i j : nat) x y, (i < j)%nat →
         ranked !! i = Some x → ranked !! j = Some y →
         (y.1.2 <= x.1.2)%Q ∧ ((x.1.2 == y.1.2)%Q → (x.2 ≤ y.2)%Z)).
Proof.
  intros Hok. exists (sort_scores (candidates (agents (self st)) q ctx)).
  split; [| split; [| split]].
  - unfold _select_agents, select_from.
    now rewrite (score_agents_candidates _ _ _ Hok).
  - apply sort_scores_perm.
  - apply sort_scores_sorted.
  - intros i j x y Hij Hi Hj.
    destruct (sorted_lookup_lt _ _ _ _ _ (sort_scores_sorted _) Hij Hi Hj)
      as [Hlt | [Heq Hp]].
    + split; [now apply Qlt_le_weak |].
      intros Heq. rewrite Heq in Hlt. now apply Qlt_irrefl in Hlt.
    + split; [rewrite Heq; apply Qle_refl | intros _; exact Hp].
Qed.
End selection.

(** ** The registry during a request *)

Section registry.
Import base_agent orchestrator.
Context (rt : Runtime).

Lemma set_stats_set_stats a s s' : set_stats (set_stats a s) s' = set_stats a s'.
Proof. reflexivity. Qed.

Lemma process_set_stats a q ctx mode t :
  ∃ s, (process rt a q ctx mode t).1.2 = set_stats a s.
Proof.
  destruct (run_handler a (resolve_mode a ctx mode) q ctx) as [d | e] eqn:Hrun.
  - rewrite (process_ok rt _ _ _ _ _ _ Hrun). eexists. reflexivity.
  - rewrite (process_raise rt _ _ _ _ _ _ Hrun). eexists. reflexivity.
Qed.

Lemma get_agent_put_eq reg k a a' :
  get_agent reg k = Some a → get_agent (put_agent reg k a') k = Some a'.
Proof.
  induction reg as [| [k0 a0] reg IH]; cbn; [discriminate |].
  destruct (String.eqb k0 k) eqn:Hk; cbn; rewrite Hk; [reflexivity | exact IH].
Qed.

Lemma get_agent_put_ne reg k k' a' :
  k ≠ k' → get_agent (put_agent reg k a') k' = get_agent reg k'.
Proof.
  intros Hne. induction reg as [| [k0 a0] reg IH]; cbn; [reflexivity |].
  destruct (String.eqb k0 k) eqn:Hk; cbn.
  - apply String.eqb_eq in Hk. subst k0.
    destruct (String.eqb k k') eqn:Hk'; [| reflexivity].
    apply String.eqb_eq in Hk'. contradiction.
  - now rewrite IH.
Qed.

Lemma get_agent_put_is_Some reg k k' a' :
  is_Some (get_agent reg k') → is_Some (get_agent (put_agent reg k a') k').
Proof.
  intros [a Ha]. destruct (decide (k = k')) as [-> | Hne].
  - rewrite (get_agent_put_eq _ _ _ _ Ha). eauto.
  - rewrite get_agent_put_ne by exact Hne. eauto.
Qed.

Lemma erase_stats_put reg k a s :
  get_agent reg k = Some a →
  erase_stats (put_agent reg k (set_stats a s)) = erase_stats reg.
Proof.
  induction reg as [| [k0 a0] reg IH]; cbn; [reflexivity |].
  destruct (String.eqb k0 k) eqn:Hk; cbn.
  - intros [= ->]. reflexivity.
  - intros Ha. unfold erase_stats in IH. now rewrite IH.
Qed.

Lemma erase_stats_cons_inv k0 a0 reg k1 a1 reg' :
  erase_stats ((k0, a0) :: reg) = erase_stats ((k1, a1) :: reg') →
  k0 = k1 ∧ set_stats a0 init_stats = set_stats a1 init_stats
  ∧ erase_stats reg = erase_stats reg'.
Proof.
  unfold erase_stats. rewrite !fmap_cons. cbn [fst snd]. intros H.
  pose proof (f_equal head H) as Hhd. pose proof (f_equal tail H) as Htl.
  cbn in Hhd, Htl.
  assert (Hp : (k0, set_stats a0 init_stats) = (k1, set_stats a1 init_stats))
    by congruence.
  repeat split; [exact (f_equal fst Hp) | exact (f_equal snd Hp) | exact Htl].
Qed.

Lemma erase_stats_get reg reg' k :
  erase_stats reg = erase_stats reg' →
  (λ a, set_stats a init_stats) <$> get_agent reg k
  = (λ a, set_stats a init_stats) <$> get_agent reg' k.
Proof.
  revert reg'. induction reg as [| [k0 a0] reg IH]; intros [| [k1 a1] reg'];
    try discriminate; [reflexivity |].
  intros H. apply erase_stats_cons_inv in H as (-> & Ha & Hrest). cbn.
  destruct (String.eqb k1 k); cbn.
  - now rewrite Ha.
  - now apply IH.
Qed.

Lemma erase_stats_score reg reg' q ctx :
  erase_stats reg = erase_stats reg' →
  score_agents reg q ctx = score_agents reg' q ctx.
Proof.
  revert reg'. induction reg as [| [k0 a0] reg IH]; intros [| [k1 a1] reg'];
    try discriminate; [reflexivity |].
  intros H. apply erase_stats_cons_inv in H as (-> & Ha & Hrest). cbn.
  assert (Hc : can_handle a0 = can_handle a1)
    by exact (f_equal can_handle Ha).
  assert (Hp : priority a0 = priority a1)
    by exact (f_equal priority Ha).
  now rewrite Hc, Hp, (IH reg' Hrest).
Qed.

Lemma erase_stats_select reg reg' q ctx :
  erase_stats reg = erase_stats reg' →
  select_from reg q ctx = select_from reg' q ctx.
Proof.
  intros H. unfold select_from. now rewrite (erase_stats_score _ _ _ _ H).
Qed.

End registry.

(** ** The enhancement pass *)

Section enhancement.
Import base_agent orchestrator.
Context (rt : Runtime).

Lemma call_process_eq k a q ctx st :
  call_process rt k a q ctx st
  = (Ok (process rt a q (Some ctx) None (ticks st)).1.1, after_process rt st k a q ctx).
Proof.
  unfold call_process, after_process.
  destruct (process rt a q (Some ctx) None (ticks st)) as [[r a'] t']. reflexivity.
Qed.

Lemma agent_at_Some k a st :
  get_agent (agents (self st)) k = Some a → agent_at k st = (Ok a, st).
Proof. intros H. unfold agent_at. now rewrite H. Qed.

(** A content-discovery secondary above the threshold is processed, with
    the subject of the primary response in its context; its envelope is
    kept when it reports success. *)
Lemma enhance_step_content_discovery r q ctx enh c st a :
  get_agent (agents (self st)) "content_discovery" = Some a →
  (1 # 2 < c)%Q →
  enhance_step rt r q ctx enh ("content_discovery", c) st
  = (let vr := (process rt a q (Some (video_context r ctx)) None (ticks st)).1.1 in
     Ok (if truthy (dict_get vr "success")
         then <["recommended_videos" := VDict vr]> enh else enh),
     after_process rt st "content_discovery" a q (video_context r ctx)).
Proof.
  intros Ha Hc. unfold enhance_step, bind at 1.
  rewrite (agent_at_Some _ _ _ Ha).
  apply Qltb_lt in Hc. rewrite Hc. cbn [String.eqb Ascii.eqb Bool.eqb andb].
  unfold bind. rewrite call_process_eq. fold (video_context r ctx).
  destruct (truthy (dict_get _ "success")); reflexivity.
Qed.

(** A study-path-planner secondary above the threshold only sets a flag. *)
Lemma enhance_step_study_path_planner r q ctx enh c st :
  is_Some (get_agent (agents (self st)) "study_path_planner") →
  (1 # 2 < c)%Q →
  enhance_step rt r q ctx enh ("study_path_planner", c) st
  = (Ok (<["study_path_available" := VBool true]> enh), st).
Proof.
  intros [a Ha] Hc. unfold enhance_step, bind.
  rewrite (agent_at_Some _ _ _ Ha).
  apply Qltb_lt in Hc. rewrite Hc. reflexivity.
Qed.

(** So does an assessment secondary. *)
Lemma enhance_step_assessment r q ctx enh c st :
  is_Some (get_agent (agents (self st)) "assessment") →
  (1 # 2 < c)%Q →
  enhance_step rt r q ctx enh ("assessment", c) st
  = (Ok (<["practice_available" := VBool true]> enh), st).
Proof.
  intros [a Ha] Hc. unfold enhance_step, bind.
  rewrite (agent_at_Some _ _ _ Ha).
  apply Qltb_lt in Hc. rewrite Hc. reflexivity.
Qed.

(** Any other secondary, and any at or below the threshold, adds nothing. *)
Lemma enhance_step_other r q ctx enh k c st :
  is_Some (get_agent (agents (self st)) k) →
  ¬ ((k = "content_discovery" ∨ k = "study_path_planner" ∨ k = "assessment")
     ∧ (1 # 2 < c)%Q) →
  enhance_step rt r q ctx enh (k, c) st = (Ok enh, st).
Proof.
  intros [a Ha] Hno. unfold enhance_step, bind.
  rewrite (agent_at_Some _ _ _ Ha).
  destruct (Qltb (1 # 2) c) eqn:Hc.
  - apply Qltb_lt in Hc. rewrite !andb_true_r.
    destruct (String.eqb k "content_discovery") eqn:H1;
      [apply String.eqb_eq in H1; tauto |].
    destruct (String.eqb k "study_path_planner") eqn:H2;
      [apply String.eqb_eq in H2; tauto |].
    destruct (String.eqb k "assessment") eqn:H3;
      [apply String.eqb_eq in H3; tauto |].
    reflexivity.
  - rewrite !andb_false_r. reflexivity.
Qed.
End enhancement.

Section enhancement_pass.
Import base_agent orchestrator.
Context (rt : Runtime).

Lemma contributes_cons_iff x rest k :
  contributes (x :: rest) k ↔ contributes [x] k ∨ contributes rest k.
Proof.
  unfold contributes. split.
  - intros (c & Hin & Hc). apply elem_of_cons in Hin as [Heq | Hin].
    + subst x. left. exists c. split; [apply list_elem_of_singleton; reflexivity | exact Hc].
    + right. eauto.
  - intros [(c & Hin & Hc) | (c & Hin & Hc)]; exists c; split; try exact Hc.
    + apply list_elem_of_singleton in Hin. subst x. apply elem_of_cons. now left.
    + apply elem_of_cons. now right.
Qed.

Lemma contributes_singleton k' c k :
  contributes [(k', c)] k ↔ k' = k ∧ (1 # 2 < c)%Q.
Proof.
  unfold contributes. split.
  - intros (c' & Hin & Hc). apply list_elem_of_singleton in Hin.
    injection Hin as -> ->. now split.
  - intros [-> Hc]. exists c. split; [apply list_elem_of_singleton; reflexivity | exact Hc].
Qed.

Lemma set_stats_eta a : set_stats a (base_agent.stats a) = a.
Proof. destruct a. reflexivity. Qed.

Lemma same_methods_set_stats a a' s :
  set_stats a init_stats = set_stats a' init_stats → set_stats a s = set_stats a' s.
Proof.
  intros H. rewrite <- (set_stats_set_stats a init_stats s), H. reflexivity.
Qed.

Lemma recommended_by_erase st st' r q ctx v :
  erase_stats (agents (self st')) = erase_stats (agents (self st)) →
  recommended_by rt st' r q ctx v → recommended_by rt st r q ctx v.
Proof.
  intros He (a' & s & t & Ha' & Hv).
  pose proof (erase_stats_get _ _ "content_discovery" He) as Hg.
  rewrite Ha' in Hg. cbn in Hg.
  destruct (get_agent (agents (self st)) "content_discovery") as [a |] eqn:Ha;
    [| discriminate].
  cbn in Hg. assert (Hm : set_stats a' init_stats = set_stats a init_stats)
    by congruence.
  exists a, s, t. split; [exact Ha |].
  now rewrite <- (same_methods_set_stats _ _ s Hm).
Qed.

Lemma video_succeeds_erase st st' r q ctx :
  erase_stats (agents (self st')) = erase_stats (agents (self st)) →
  video_succeeds st r q ctx → video_succeeds st' r q ctx.
Proof.
  intros He (a & d & Ha & Hrun & Hd).
  pose proof (erase_stats_get _ _ "content_discovery" He) as Hg.
  rewrite Ha in Hg. cbn in Hg.
  destruct (get_agent (agents (self st')) "content_discovery") as [a' |] eqn:Ha';
    [| discriminate].
  cbn in Hg. assert (Hm : set_stats a' init_stats = set_stats a init_stats)
    by congruence.
  exists a', d. split; [exact Ha' |]. split; [| exact Hd].
  change (run_handler (set_stats a' init_stats)
            (resolve_mode (set_stats a' init_stats)
               (Some (video_context r ctx)) None) q
            (Some (video_context r ctx)) = Ok d).
  rewrite Hm. exact Hrun.
Qed.

Lemma contributed_mono_head st r q ctx x rest k v :
  contributed rt st r q ctx [x] k v → contributed rt st r q ctx (x :: rest) k v.
Proof.
  unfold contributed. rewrite !(contributes_cons_iff x rest). tauto.
Qed.

Lemma contributed_mono_tail st st' r q ctx x rest k v :
  erase_stats (agents (self st')) = erase_stats (agents (self st)) →
  contributed rt st' r q ctx rest k v → contributed rt st r q ctx (x :: rest) k v.
Proof.
  intros He. unfold contributed. rewrite !(contributes_cons_iff x rest).
  intros [(? & ? & Hr) | [? | ?]]; [| tauto | tauto].
  apply (recommended_by_erase _ _ _ _ _ _ He) in Hr. tauto.
Qed.

Lemma enhancement_pass_nil r q ctx enh st :
  enhancement_pass rt r q ctx [] enh st enh st.
Proof.
  assert (Hno : ∀ k, ¬ contributes [] k).
  { intros k (c & Hin & _). now apply elem_of_nil in Hin. }
  unfold enhancement_pass. repeat split; try done.
  - intros H. now apply Hno in H.
  - intros k v H. now left.
  - intros [H | H]; [now apply Hno in H | exact H].
  - intros [H | H]; [now apply Hno in H | exact H].
  - intros [[H _] | H]; [now apply Hno in H | exact H].
Qed.

Lemma enhancement_pass_cons r q ctx x rest enh st enh1 st1 enh2 st2 :
  enhancement_pass rt r q ctx [x] enh st enh1 st1 →
  enhancement_pass rt r q ctx rest enh1 st1 enh2 st2 →
  enhancement_pass rt r q ctx (x :: rest) enh st enh2 st2.
Proof.
  intros (A1 & A2 & A3 & A4 & A5 & A6 & A7 & A8 & A9 & A10)
         (B1 & B2 & B3 & B4 & B5 & B6 & B7 & B8 & B9 & B10).
  unfold enhancement_pass. rewrite !(contributes_cons_iff x rest).
  split; [congruence |]. split; [congruence |].
  split; [intros k Hk; rewrite (B3 k Hk); exact (A3 k Hk) |].
  split; [intros Hno; rewrite B4, A4 by tauto; reflexivity |].
  split; [intros k; specialize (A5 k); specialize (B5 k); lia |].
  split.
  { intros [H | H].
    - specialize (A6 H). specialize (B5 "content_discovery"). lia.
    - specialize (B6 H). specialize (A5 "content_discovery"). lia. }
  split.
  { intros k v H. destruct (B7 k v H) as [H1 | H1].
    - destruct (A7 k v H1) as [H0 | H0]; [now left | right].
      now apply contributed_mono_head.
    - right. now apply (contributed_mono_tail st st1). }
  split; [intros H; apply B8; tauto |].
  split; [intros H; apply B9; tauto |].
  intros [[[H | H] Hv] | H]; apply B10.
  - right. apply A10. left. now split.
  - left. split; [exact H |]. now apply (video_succeeds_erase st st1).
  - right. apply A10. now right.
Qed.
End enhancement_pass.

Section enhancement_loop.
Import base_agent orchestrator.
Context (rt : Runtime).

Lemma requests_of_after_process st k a q ctx k' :
  get_agent (agents (self st)) k = Some a →
  requests_of (after_process rt st k a q ctx) k'
  = if decide (k = k') then S (requests_of st k') else requests_of st k'.
Proof.
  intros Ha. unfold requests_of, after_process. cbn [self agents].
  destruct (decide (k = k')) as [<- | Hne].
  - rewrite (get_agent_put_eq _ _ _ _ Ha), Ha.
    apply (process_counts rt a q (Some ctx) None (ticks st)).
  - now rewrite get_agent_put_ne.
Qed.

Lemma erase_stats_after_process st k a q ctx :
  get_agent (agents (self st)) k = Some a →
  erase_stats (agents (self (after_process rt st k a q ctx)))
  = erase_stats (agents (self st)).
Proof.
  intros Ha. unfold after_process. cbn [self agents].
  destruct (process_set_stats rt a q (Some ctx) None (ticks st)) as [s ->].
  now apply erase_stats_put.
Qed.

(** The first five clauses of [enhancement_pass] when the state is left
    as it was. *)
Local Ltac unchanged_state :=
  split; [reflexivity |]; split; [reflexivity |];
  split; [intros; reflexivity |]; split; [intros; reflexivity |];
  split; [intros; lia |].

(** One iteration never raises on a registered secondary, and does what
    [enhancement_pass] says. *)
Lemma enhance_step_pass r q ctx enh k c st :
  is_Some (get_agent (agents (self st)) k) →
  ∃ enh1 st1,
    enhance_step rt r q ctx enh (k, c) st = (Ok enh1, st1)
    ∧ enhancement_pass rt r q ctx [(k, c)] enh st enh1 st1
    ∧ (∀ k', is_Some (get_agent (agents (self st)) k') →
             is_Some (get_agent (agents (self st1)) k')).
Proof.
  intros Hreg.
  destruct (decide (1 # 2 < c)%Q) as [Hc | Hc];
    [destruct (decide (k = "content_discovery")) as [-> | Hcd];
     [| destruct (decide (k = "study_path_planner")) as [-> | Hsp];
        [| destruct (decide (k = "assessment")) as [-> | Has]]] |].
  - (* content_discovery, above the threshold *)
    destruct Hreg as [a Ha].
    eexists _, _. split; [exact (enhance_step_content_discovery rt r q ctx enh c st a Ha Hc) |].
    split; [| intros k'; apply get_agent_put_is_Some].
    unfold enhancement_pass. rewrite !contributes_singleton.
    split; [reflexivity |].
    split; [now apply erase_stats_after_process |].
    split; [intros k' Hk'; unfold after_process; cbn [self agents];
            now rewrite get_agent_put_ne by congruence |].
    split; [intros Hno; exfalso; apply Hno; now split |].
    split; [intros k'; rewrite (requests_of_after_process _ _ _ _ _ _ Ha);
            destruct (decide ("content_discovery" = k')); lia |].
    split; [intros _; rewrite (requests_of_after_process _ _ _ _ _ _ Ha);
            destruct (decide ("content_discovery" = "content_discovery")); [lia | congruence] |].
    split.
    { intros k' v. cbn zeta.
      destruct (truthy (dict_get _ "success")) eqn:Hsucc; [| now left].
      destruct (decide (k' = "recommended_videos")) as [-> | Hk'].
      - rewrite lookup_insert_eq. intros [= <-]. right. left.
        split; [reflexivity |]. split; [apply contributes_singleton; now split |].
        exists a, (base_agent.stats a), (ticks st). split; [exact Ha |].
        rewrite set_stats_eta. now split.
      - rewrite lookup_insert_ne by congruence. now left. }
    split; [| split];
      [ intros [[? _] | H]; [discriminate |];
        cbn zeta; destruct (truthy (dict_get _ "success"));
        try exact H; now rewrite lookup_insert_ne by discriminate ..
      | ].
    intros H. cbn zeta.
    destruct (truthy (dict_get _ "success")) eqn:Hsucc;
      [rewrite lookup_insert_eq; eauto |].
    destruct H as [[_ (a0 & d & Ha0 & Hrun & Hd)] | H]; [| exact H].
    rewrite Ha in Ha0. injection Ha0 as <-.
    rewrite (process_success_field rt), Hrun, Hd in Hsucc. discriminate.
  - (* study_path_planner, above the threshold *)
    eexists _, _. split; [exact (enhance_step_study_path_planner rt r q ctx enh c st Hreg Hc) |].
    split; [| tauto].
    unfold enhancement_pass. rewrite !contributes_singleton. unchanged_state.
    split; [intros [? _]; discriminate |].
    split.
    { intros k' v. destruct (decide (k' = "study_path_available")) as [-> | Hk'].
      - rewrite lookup_insert_eq. intros [= <-]. right. right. left.
        repeat split. now apply contributes_singleton.
      - rewrite lookup_insert_ne by congruence. now left. }
    split; [intros _; apply lookup_insert_eq |].
    split; [intros [[? _] | H]; [discriminate |] | intros [[[? _] _] | H]; [discriminate |]];
      now rewrite lookup_insert_ne by discriminate.
  - (* assessment, above the threshold *)
    eexists _, _. split; [exact (enhance_step_assessment rt r q ctx enh c st Hreg Hc) |].
    split; [| tauto].
    unfold enhancement_pass. rewrite !contributes_singleton. unchanged_state.
    split; [intros [? _]; discriminate |].
    split.
    { intros k' v. destruct (decide (k' = "practice_available")) as [-> | Hk'].
      - rewrite lookup_insert_eq. intros [= <-]. right. right. right.
        repeat split. now apply contributes_singleton.
      - rewrite lookup_insert_ne by congruence. now left. }
    split; [| split; [intros _; apply lookup_insert_eq |]];
      [intros [[? _] | H]; [discriminate |] | intros [[[? _] _] | H]; [discriminate |]];
      now rewrite lookup_insert_ne by discriminate.
  - (* another agent *)
    eexists _, _. split; [apply (enhance_step_other rt r q ctx enh k c st Hreg); tauto |].
    split; [| tauto].
    unfold enhancement_pass. rewrite !contributes_singleton. unchanged_state.
    split; [tauto |]. split; [intros k' v H; now left |]. tauto.
  - (* at or below the threshold *)
    eexists _, _. split; [apply (enhance_step_other rt r q ctx enh k c st Hreg); tauto |].
    split; [| tauto].
    unfold enhancement_pass. rewrite !contributes_singleton. unchanged_state.
    split; [tauto |]. split; [intros k' v H; now left |]. tauto.
Qed.

(** The loop never raises on registered secondaries, and does what
    [enhancement_pass] says. *)
Lemma enhance_loop_pass r q ctx secs : ∀ enh st,
  Forall (λ s : string * Q, is_Some (get_agent (agents (self st)) s.1)) secs →
  ∃ enh' st',
    enhance_loop rt r q ctx secs enh st = (Ok enh', st')
    ∧ enhancement_pass rt r q ctx secs enh st enh' st'.
Proof.
  induction secs as [| [k c] rest IH]; intros enh st Hreg.
  - exists enh, st. split; [reflexivity | apply enhancement_pass_nil].
  - apply Forall_cons in Hreg as [Hk Hrest]. cbn [fst] in Hk.
    destruct (enhance_step_pass r q ctx enh k c st Hk) as (enh1 & st1 & E1 & P1 & K1).
    destruct (IH enh1 st1) as (enh2 & st2 & E2 & P2).
    { eapply Forall_impl; [exact Hrest |]. intros s Hs. now apply K1. }
    exists enh2, st2. split.
    + cbn [enhance_loop]. unfold bind. now rewrite E1.
    + eapply enhancement_pass_cons; eassumption.
Qed.
End enhancement_loop.

(** ** process_query *)

Section process_query.
Import base_agent orchestrator.
Context (rt : Runtime).

Lemma score_agents_registered reg q ctx : ∀ scores,
  score_agents reg q ctx = Ok scores →
  Forall (λ x : string * Q * Z, is_Some (get_agent reg x.1.1)) scores.
Proof.
  induction reg as [| [k a] rest IH]; intros scores; cbn [score_agents].
  - intros [= <-]. constructor.
  - destruct (can_handle a q ctx) as [c |]; [| discriminate].
    destruct (score_agents rest q ctx) as [rs |]; [| discriminate].
    assert (Hrest : Forall (λ x : string * Q * Z,
               is_Some (get_agent ((k, a) :: rest) x.1.1)) rs).
    { eapply Forall_impl; [exact (IH rs eq_refl) |]. intros x Hx. cbn.
      destruct (String.eqb k x.1.1); [eauto | exact Hx]. }
    destruct (Qltb 0 c); intros [= <-]; [| exact Hrest].
    constructor; [| exact Hrest]. cbn. rewrite String.eqb_refl. eauto.
Qed.

Lemma select_from_registered reg q ctx sel :
  select_from reg q ctx = Ok sel →
  Forall (λ s : string * Q, is_Some (get_agent reg s.1)) sel.
Proof.
  unfold select_from.
  destruct (score_agents reg q ctx) as [scores |] eqn:Hs; [| discriminate].
  intros [= <-]. apply Forall_fmap.
  apply Forall_take. rewrite sort_scores_perm.
  exact (score_agents_registered _ _ _ _ Hs).
Qed.

Lemma attach_lookup_ne enh r k :
  k ≠ "enhancements" → attach enh r !! k = r !! k.
Proof.
  intros Hk. unfold attach. destruct (truthy (VDict enh)); [| reflexivity].
  now rewrite lookup_insert_ne by congruence.
Qed.

Lemma attach_empty r : attach ∅ r = r.
Proof. reflexivity. Qed.

(** [_enhance_response] on registered secondaries. *)
Lemma enhance_response_pass r secs q ctx st :
  Forall (λ s : string * Q, is_Some (get_agent (agents (self st)) s.1)) secs →
  ∃ enh st',
    _enhance_response rt r secs q ctx st = (Ok (attach enh r), st')
    ∧ enhancement_pass rt r q ctx (take 2 secs) ∅ st enh st'.
Proof.
  intros Hreg.
  destruct (enhance_loop_pass rt r q ctx (take 2 secs) ∅ st) as (enh & st' & E & P).
  { now apply Forall_take. }
  exists enh, st'. split; [| exact P].
  unfold _enhance_response, bind. rewrite E. unfold attach.
  destruct (truthy (VDict enh)); reflexivity.
Qed.

(** A request in which an agent was selected: the primary agent is
    processed, the enhancement pass runs when there are secondaries and
    the primary succeeded, and the request is settled. *)
Lemma process_query_selected q ctx0 st pid conf secondary a :
  let ctx := context_or_empty ctx0 in
  select_from (agents (self st)) q ctx = Ok ((pid, conf) :: secondary) →
  get_agent (agents (self st)) pid = Some a →
  let st0 := count_query_in (tick st) in
  let r := (process rt a q (Some ctx) None (ticks st0)).1.1 in
  let st1 := after_process rt st0 pid a q ctx in
  ∃ enh st2,
    (if (1 <? length ((pid, conf) :: secondary))%nat
        && truthy (dict_get r "success")
     then enhancement_pass rt r q ctx (take 2 secondary) ∅ st1 enh st2
     else enh = ∅ ∧ st2 = st1)
    ∧ process_query rt q ctx0 st
      = (<["total_response_time_ms" :=
             VNum (round2 rt ((now rt (ticks st2) - now rt (ticks st)) * 1000))]>
           (attach enh r),
         settle pid r st2).
Proof.
  intros ctx Hsel Ha st0 r st1.
  assert (Hfin : ∀ enh st2,
    (let! _ := (if truthy (dict_get (attach enh r) "success")
                then count_success else count_failure) in
     let! _ := _update_agent_usage pid in
     let! end_time := read_clock rt in
     ret (<["total_response_time_ms" :=
              VNum (round2 rt ((end_time - now rt (ticks st)) * 1000))]>
            (attach enh r))) st2
    = (Ok (<["total_response_time_ms" :=
               VNum (round2 rt ((now rt (ticks st2) - now rt (ticks st)) * 1000))]>
             (attach enh r)),
       settle pid r st2)).
  { intros enh st2. unfold bind, ret, settle. cbn beta iota.
    unfold dict_get at 1. rewrite attach_lookup_ne by discriminate.
    fold (dict_get r "success").
    destruct (truthy (dict_get r "success")); reflexivity. }
  unfold process_query. fold (context_or_empty ctx0). fold ctx. fold st0.
  unfold process_query_try. unfold bind at 1. unfold _select_agents.
  change (agents (self st0)) with (agents (self st)). rewrite Hsel.
  unfold bind at 1. rewrite (agent_at_Some pid a st0 Ha).
  unfold bind at 1. rewrite call_process_eq. fold r. fold st1.
  destruct ((1 <? length ((pid, conf) :: secondary))%nat
            && truthy (dict_get r "success")) eqn:Hguard.
  - destruct (enhance_response_pass r secondary q ctx st1) as (enh & st2 & E & P).
    { apply select_from_registered in Hsel. apply Forall_cons in Hsel as [_ Hsel].
      eapply Forall_impl; [exact Hsel |]. intros s Hs.
      unfold st1, after_process. cbn [self agents].
      now apply get_agent_put_is_Some. }
    exists enh, st2. split; [exact P |].
    unfold bind at 1. rewrite E. cbn beta iota. rewrite Hfin. reflexivity.
  - exists ∅, st1. split; [now split |].
    pose proof (Hfin ∅ st1) as H. rewrite !attach_empty in H |- *.
    unfold bind at 1. unfold ret at 1. cbn beta iota. rewrite H. reflexivity.
Qed.
End process_query.

Section request_paths.
Import base_agent orchestrator.
Context (rt : Runtime).

(** A request in which scoring raises: the [except] branch answers. *)
Lemma process_query_raise q ctx0 st e :
  select_from (agents (self st)) q (context_or_empty ctx0) = Raise e →
  process_query rt q ctx0 st
  = (failure_envelope e (isoformat rt (now rt (S (ticks st)))),
     tick (count_failure_in (count_query_in (tick st)))).
Proof.
  intros Hsel. unfold process_query. fold (context_or_empty ctx0).
  unfold process_query_try, bind, _select_agents.
  change (agents (self (count_query_in (tick st)))) with (agents (self st)).
  rewrite Hsel. reflexivity.
Qed.

(** A request in which no agent is selected: the fallback agent is
    processed and the envelope returned at once. *)
Lemma process_query_fallback q ctx0 st fb :
  select_from (agents (self st)) q (context_or_empty ctx0) = Ok [] →
  get_agent (agents (self st)) "offline_knowledge" = Some fb →
  let st0 := count_query_in (tick st) in
  process_query rt q ctx0 st
  = (<["is_fallback" := VBool true]>
       (process rt fb q (Some (context_or_empty ctx0)) None (ticks st0)).1.1,
     after_process rt st0 "offline_knowledge" fb q (context_or_empty ctx0)).
Proof.
  intros Hsel Hfb st0. unfold process_query. fold (context_or_empty ctx0). fold st0.
  unfold process_query_try. unfold bind at 1. unfold _select_agents.
  change (agents (self st0)) with (agents (self st)). rewrite Hsel.
  unfold _default_response, bind.
  rewrite (agent_at_Some "offline_knowledge" fb st0 Hfb), call_process_eq.
  reflexivity.
Qed.

(** Without a fallback agent registered, the lookup raises. *)
Lemma process_query_no_fallback q ctx0 st :
  select_from (agents (self st)) q (context_or_empty ctx0) = Ok [] →
  get_agent (agents (self st)) "offline_knowledge" = None →
  process_query rt q ctx0 st
  = (failure_envelope "'offline_knowledge'" (isoformat rt (now rt (S (ticks st)))),
     tick (count_failure_in (count_query_in (tick st)))).
Proof.
  intros Hsel Hfb. unfold process_query. fold (context_or_empty ctx0).
  unfold process_query_try. unfold bind at 1. unfold _select_agents.
  change (agents (self (count_query_in (tick st)))) with (agents (self st)).
  rewrite Hsel. unfold _default_response, bind, agent_at.
  change (agents (self (count_query_in (tick st)))) with (agents (self st)).
  rewrite Hfb. reflexivity.
Qed.

Lemma score_agents_all_zero reg q ctx :
  Forall (λ e : string * Agent,
            ∃ s, can_handle e.2 q ctx = Ok s ∧ (s == 0)%Q) reg →
  score_agents reg q ctx = Ok [].
Proof.
  induction 1 as [| [k a] rest (s & Hs & Hz) _ IH]; [reflexivity |].
  cbn [score_agents]. cbn [snd] in Hs. rewrite Hs, IH.
  destruct (Qltb 0 s) eqn:Hb; [| reflexivity].
  apply Qltb_lt in Hb. rewrite Hz in Hb. now apply Qlt_irrefl in Hb.
Qed.

(** C5. When every registered agent scores the query 0, so that
    [_select_agents] returns the empty list, and an agent is registered
    as [offline_knowledge], [process_query] returns (it cannot raise) the
    envelope of [process] run on that agent with the request's context,
    with [is_fallback] set to true. *)
Theorem fallback_when_no_agent_scores q ctx0 st fb :
  Forall (λ e : string * Agent,
            ∃ s, can_handle e.2 q (context_or_empty ctx0) = Ok s ∧ (s == 0)%Q)
         (agents (self st)) →
  get_agent (agents (self st)) "offline_knowledge" = Some fb →
  let ctx := context_or_empty ctx0 in
  let envelope := (process rt fb q (Some ctx) None (S (ticks st))).1.1 in
  let response := (process_query rt q ctx0 st).1 in
  _select_agents q ctx st = (Ok [], st)
  ∧ response = <["is_fallback" := VBool true]> envelope
  ∧ response !! "is_fallback" = Some (VBool true)
  ∧ response !! "agent_id" = Some (VStr (agent_id fb)).
Proof.
  intros Hzero Hfb ctx envelope response.
  assert (Hsel : select_from (agents (self st)) q ctx = Ok []).
  { unfold select_from, ctx. now rewrite (score_agents_all_zero _ _ _ Hzero). }
  assert (Hresp : response = <["is_fallback" := VBool true]> envelope).
  { unfold response. now rewrite (process_query_fallback q ctx0 st fb Hsel Hfb). }
  split; [unfold _select_agents; now rewrite Hsel |].
  split; [exact Hresp |]. rewrite Hresp.
  split; [apply lookup_insert_eq |].
  rewrite lookup_insert_ne by discriminate. unfold envelope.
  destruct (run_handler fb (resolve_mode fb (Some ctx) None) q (Some ctx))
    as [d | e] eqn:Hrun.
  - rewrite (process_ok rt _ _ _ _ _ _ Hrun). cbn [fst].
    rewrite !lookup_insert_ne by discriminate. apply lookup_insert_eq.
  - rewrite (process_raise rt _ _ _ _ _ _ Hrun). cbn [fst]. unfold agent_failure.
    rewrite !lookup_insert_ne by discriminate. apply lookup_insert_eq.
Qed.
End request_paths.

Section envelopes.
Import base_agent orchestrator.
Context (rt : Runtime).

Lemma failure_envelope_is_pipeline_failure e ts :
  pipeline_failure (failure_envelope e ts) e.
Proof.
  unfold pipeline_failure, failure_envelope.
  repeat split; try (eexists; reflexivity).
  intros k Hk. repeat (apply elem_of_cons in Hk as [-> | Hk]; [reflexivity |]).
  now apply elem_of_nil in Hk.
Qed.

(** The fields [process] leaves in its envelope. *)
Lemma process_envelope_fields a q ctx mode t :
  let response := (process rt a q ctx mode t).1.1 in
  agent_fields response a (resolve_mode a ctx mode)
  ∧ match run_handler a (resolve_mode a ctx mode) q ctx with
    | Ok _ => is_Some (response !! "response_time_ms")
    | Raise e =>
        response !! "response_time_ms" = None
        ∧ response !! "success" = Some (VBool false)
        ∧ response !! "error" = Some (VStr e)
    end.
Proof.
  unfold agent_fields.
  destruct (run_handler a (resolve_mode a ctx mode) q ctx) as [d | e] eqn:Hrun.
  - rewrite (process_ok rt _ _ _ _ _ _ Hrun). cbn [fst].
    repeat split; try (eexists; apply lookup_insert_eq);
      try (rewrite !lookup_insert_ne by discriminate; apply lookup_insert_eq).
    eexists. rewrite lookup_insert_ne by discriminate. apply lookup_insert_eq.
  - rewrite (process_raise rt _ _ _ _ _ _ Hrun). cbn [fst]. unfold agent_failure.
    repeat split; try (eexists; reflexivity).
Qed.

(** C2 (amended). [process_query] returns an envelope on every path and
    never raises, and the envelope always carries [timestamp].  When an
    agent is run (the top-ranked one, or the fallback agent), the envelope
    carries its [agent_id] and [agent_name] and the [mode] it ran in; it
    carries [response_time_ms] when the agent's path returned, and lacks
    it, carrying [success] false and the exception's text, when that path
    raised.  When the pipeline itself raises, the envelope is the generic
    failure envelope: [success] false, [error], [message], [timestamp],
    and none of [agent_id], [agent_name], [mode], [response_time_ms]. *)
Theorem process_query_envelope_fields q ctx0 st :
  let ctx := context_or_empty ctx0 in
  let response := (process_query rt q ctx0 st).1 in
  is_Some (response !! "timestamp")
  ∧ match select_from (agents (self st)) q ctx with
    | Raise e => pipeline_failure response e
    | Ok selected =>
        match executed_agent (agents (self st)) selected with
        | None => selected = [] ∧ pipeline_failure response "'offline_knowledge'"
        | Some a =>
            let m := resolve_mode a (Some ctx) None in
            agent_fields response a m
            ∧ match run_handler a m q (Some ctx) with
              | Ok _ => is_Some (response !! "response_time_ms")
              | Raise e =>
                  response !! "response_time_ms" = None
                  ∧ response !! "success" = Some (VBool false)
                  ∧ response !! "error" = Some (VStr e)
              end
        end
    end.
Proof.
  intros ctx response.
  assert (Hmain :
    match select_from (agents (self st)) q ctx with
    | Raise e => pipeline_failure response e
    | Ok selected =>
        match executed_agent (agents (self st)) selected with
        | None => selected = [] ∧ pipeline_failure response "'offline_knowledge'"
        | Some a =>
            let m := resolve_mode a (Some ctx) None in
            agent_fields response a m
            ∧ match run_handler a m q (Some ctx) with
              | Ok _ => is_Some (response !! "response_time_ms")
              | Raise e =>
                  response !! "response_time_ms" = None
                  ∧ response !! "success" = Some (VBool false)
                  ∧ response !! "error" = Some (VStr e)
              end
        end
    end).
  { destruct (select_from (agents (self st)) q ctx) as [[| [pid conf] secondary] | e]
      eqn:Hsel.
    - (* nobody selected *)
      cbn [executed_agent].
      destruct (get_agent (agents (self st)) "offline_knowledge") as [fb |] eqn:Hfb.
      + unfold response. rewrite (process_query_fallback rt q ctx0 st fb Hsel Hfb).
        cbn [fst]. fold ctx. cbn zeta.
        pose proof (process_envelope_fields fb q (Some ctx) None
                      (ticks (count_query_in (tick st)))) as [Hf Hm].
        cbn zeta in Hf, Hm. unfold agent_fields in Hf |- *.
        rewrite !lookup_insert_ne by discriminate.
        split; [exact Hf |].
        destruct (run_handler fb (resolve_mode fb (Some ctx) None) q (Some ctx));
          exact Hm.
      + split; [reflexivity |]. unfold response.
        rewrite (process_query_no_fallback rt q ctx0 st Hsel Hfb).
        apply failure_envelope_is_pipeline_failure.
    - (* an agent selected *)
      cbn [executed_agent].
      pose proof (select_from_registered _ _ _ _ Hsel) as Hreg.
      apply Forall_cons in Hreg as [[a Ha] _]. cbn [fst] in Ha. rewrite Ha.
      destruct (process_query_selected rt q ctx0 st pid conf secondary a Hsel Ha)
        as (enh & st2 & _ & Heq).
      unfold response. rewrite Heq. cbn [fst]. fold ctx. cbn zeta.
      pose proof (process_envelope_fields a q (Some ctx) None
                    (ticks (count_query_in (tick st)))) as [Hf Hm].
      cbn zeta in Hf, Hm. unfold agent_fields in Hf |- *.
      rewrite !lookup_insert_ne by discriminate.
      rewrite !attach_lookup_ne by discriminate.
      split; [exact Hf |].
      destruct (run_handler a (resolve_mode a (Some ctx) None) q (Some ctx));
        exact Hm.
    - (* scoring raised *)
      unfold response. rewrite (process_query_raise rt q ctx0 st e Hsel).
      apply failure_envelope_is_pipeline_failure. }
  split; [| exact Hmain].
  destruct (select_from (agents (self st)) q ctx) as [selected | e].
  - destruct (executed_agent (agents (self st)) selected).
    + apply Hmain.
    + apply Hmain.
  - apply Hmain.
Qed.
End envelopes.

Section enhancement_claims.
Import base_agent orchestrator.
Context (rt : Runtime).

(** C6 (amended). When the primary agent's envelope reports success and
    more than one agent was selected, the pass over the first two
    secondary agents adds to the primary response, under [enhancements]
    and only if there is something to add, entries that each come from
    a secondary whose confidence exceeds 0.5: [recommended_videos] is
    the envelope of [process] invoked on [content_discovery] (with the
    primary's subject in its context) when that envelope reports
    success, while [study_path_available] and [practice_available] are
    set to true for [study_path_planner] and [assessment] without
    invoking them.  [process] is invoked on no other secondary. *)
Theorem enhancement_contributions q ctx0 st pid conf secondary a :
  let ctx := context_or_empty ctx0 in
  select_from (agents (self st)) q ctx = Ok ((pid, conf) :: secondary) →
  get_agent (agents (self st)) pid = Some a →
  let st0 := count_query_in (tick st) in
  let r := (process rt a q (Some ctx) None (ticks st0)).1.1 in
  let st1 := after_process rt st0 pid a q ctx in
  let secs := take 2 secondary in
  secondary ≠ [] →
  truthy (dict_get r "success") = true →
  ∃ enh st2,
    process_query rt q ctx0 st
    = (<["total_response_time_ms" :=
           VNum (round2 rt ((now rt (ticks st2) - now rt (ticks st)) * 1000))]>
         (if truthy (VDict enh) then <["enhancements" := VDict enh]> r else r),
       settle pid r st2)
    ∧ (∀ k v, enh !! k = Some v → contributed rt st1 r q ctx secs k v)
    ∧ (contributes secs "study_path_planner" →
         enh !! "study_path_available" = Some (VBool true))
    ∧ (contributes secs "assessment" →
         enh !! "practice_available" = Some (VBool true))
    ∧ (contributes secs "content_discovery" → video_succeeds st1 r q ctx →
         is_Some (enh !! "recommended_videos"))
    ∧ (∀ k, k ≠ "content_discovery" →
         get_agent (agents (self st2)) k = get_agent (agents (self st1)) k)
    ∧ (¬ contributes secs "content_discovery" → st2 = st1)
    ∧ (contributes secs "content_discovery" →
         (requests_of st1 "content_discovery" < requests_of st2 "content_discovery")%nat).
Proof.
  intros ctx Hsel Ha st0 r st1 secs Hsec Hsucc.
  destruct (process_query_selected rt q ctx0 st pid conf secondary a Hsel Ha)
    as (enh & st2 & Hpass & Heq).
  fold ctx st0 in Hpass, Heq. fold r in Hpass, Heq. fold st1 in Hpass.
  rewrite Hsucc, andb_true_r in Hpass.
  destruct secondary as [| s1 rest]; [congruence |].
  cbn [length Nat.ltb Nat.leb] in Hpass.
  destruct Hpass as (_ & _ & P3 & P4 & _ & P6 & P7 & P8 & P9 & P10).
  exists enh, st2. split; [exact Heq |].
  split; [intros k v H; destruct (P7 k v H) as [H0 | H0];
          [rewrite lookup_empty in H0; discriminate | exact H0] |].
  split; [intros H; apply P8; now left |].
  split; [intros H; apply P9; now left |].
  split; [intros H Hv; apply P10; left; now split |].
  split; [exact P3 |]. split; [exact P4 | exact P6].
Qed.

(** C7. Once the primary agent's envelope reports success, whatever the
    secondary agents do, the response of [process_query] agrees with that
    envelope on every field but [enhancements] and
    [total_response_time_ms], so on [success] and [answer]; and when the
    content-discovery secondary fails, by raising or by reporting
    [success] false, [recommended_videos] is left out of the
    enhancements. *)
Theorem secondary_failure_leaves_primary q ctx0 st pid conf secondary a :
  let ctx := context_or_empty ctx0 in
  select_from (agents (self st)) q ctx = Ok ((pid, conf) :: secondary) →
  get_agent (agents (self st)) pid = Some a →
  let st0 := count_query_in (tick st) in
  let r := (process rt a q (Some ctx) None (ticks st0)).1.1 in
  let st1 := after_process rt st0 pid a q ctx in
  truthy (dict_get r "success") = true →
  let response := (process_query rt q ctx0 st).1 in
  response !! "success" = r !! "success"
  ∧ response !! "answer" = r !! "answer"
  ∧ (∀ k, k ≠ "enhancements" → k ≠ "total_response_time_ms" →
       response !! k = r !! k)
  ∧ ∃ enh,
      response !! "enhancements"
      = (if truthy (VDict enh) then Some (VDict enh) else r !! "enhancements")
      ∧ ∀ a_cd,
          get_agent (agents (self st1)) "content_discovery" = Some a_cd →
          let vc := Some (video_context r ctx) in
          match run_handler a_cd (resolve_mode a_cd vc None) q vc with
          | Raise _ => True
          | Ok d => truthy (dict_get d "success") = false
          end →
          enh !! "recommended_videos" = None.
Proof.
  intros ctx Hsel Ha st0 r st1 Hsucc response.
  destruct (process_query_selected rt q ctx0 st pid conf secondary a Hsel Ha)
    as (enh & st2 & Hpass & Heq).
  fold ctx st0 in Hpass, Heq. fold r in Hpass, Heq. fold st1 in Hpass.
  assert (Hframe : ∀ k, k ≠ "enhancements" → k ≠ "total_response_time_ms" →
            response !! k = r !! k).
  { intros k H1 H2. unfold response. rewrite Heq. cbn [fst].
    rewrite lookup_insert_ne by congruence. now apply attach_lookup_ne. }
  split; [apply Hframe; discriminate |].
  split; [apply Hframe; discriminate |].
  split; [exact Hframe |].
  exists enh. split.
  { unfold response. rewrite Heq. cbn [fst].
    rewrite lookup_insert_ne by discriminate. unfold attach.
    destruct (truthy (VDict enh)); [apply lookup_insert_eq | reflexivity]. }
  intros a_cd Hcd vc Hfail.
  destruct (enh !! "recommended_videos") as [v |] eqn:Hv; [| reflexivity].
  exfalso.
  destruct ((1 <? length ((pid, conf) :: secondary))%nat
            && truthy (dict_get r "success")).
  - destruct Hpass as (_ & _ & _ & _ & _ & _ & P7 & _).
    destruct (P7 _ _ Hv) as [H0 | H0];
      [rewrite lookup_empty in H0; discriminate |].
    destruct H0 as [(_ & _ & a1 & s & t & Ha1 & Hrec) | [(? & _) | (? & _)]];
      [| discriminate | discriminate].
    rewrite Hcd in Ha1. injection Ha1 as <-.
    cbn zeta in Hrec. destruct Hrec as [_ Hrec].
    rewrite (process_success_field rt) in Hrec.
    change (run_handler (set_stats a_cd s)
              (resolve_mode (set_stats a_cd s) (Some (video_context r ctx)) None)
              q (Some (video_context r ctx)))
      with (run_handler a_cd (resolve_mode a_cd vc None) q vc) in Hrec.
    destruct (run_handler a_cd (resolve_mode a_cd vc None) q vc);
      [congruence | discriminate].
  - destruct Hpass as [-> _]. rewrite lookup_empty in Hv. discriminate.
Qed.
End enhancement_claims.

Section statistics.
Import base_agent orchestrator.
Context (rt : Runtime).

(** In a request in which an agent was selected the statistics are
    updated once: one query, one outcome, one use of the primary agent. *)
Lemma process_query_selected_counts q ctx0 st pid conf secondary :
  select_from (agents (self st)) q (context_or_empty ctx0)
    = Ok ((pid, conf) :: secondary) →
  let s := orchestrator.stats (self st) in
  let s' := orchestrator.stats (self (process_query rt q ctx0 st).2) in
  total_queries s' = S (total_queries s)
  ∧ (orchestrator.successful_responses s' + orchestrator.failed_responses s'
     = S (orchestrator.successful_responses s + orchestrator.failed_responses s))%nat
  ∧ (orchestrator.successful_responses s ≤ orchestrator.successful_responses s')%nat
  ∧ (orchestrator.failed_responses s ≤ orchestrator.failed_responses s')%nat
  ∧ agent_usage s' = <[pid := S (default 0 (agent_usage s !! pid))]> (agent_usage s).
Proof.
  intros Hsel s s'.
  pose proof (select_from_registered _ _ _ _ Hsel) as Hreg.
  apply Forall_cons in Hreg as [[a Ha] _]. cbn [fst] in Ha.
  destruct (process_query_selected rt q ctx0 st pid conf secondary a Hsel Ha)
    as (enh & st2 & Hpass & Heq).
  assert (Hst : orchestrator.stats (self st2)
                = orchestrator.stats (self (count_query_in (tick st)))).
  { destruct (_ && _); [destruct Hpass as [H _]; exact H |].
    destruct Hpass as [_ ->]. reflexivity. }
  unfold s'. rewrite Heq. cbn [snd]. unfold settle.
  destruct (truthy (dict_get _ "success"));
    cbn [_update_agent_usage snd tick self with_stats orchestrator.stats
         count_success_in count_failure_in total_queries agent_usage
         orchestrator.successful_responses orchestrator.failed_responses];
    rewrite Hst; subst s; cbn;
    (split; [lia |]); (split; [lia |]); (split; [lia |]); (split; [lia |]);
    reflexivity.
Qed.

(** In a request that takes the fallback branch only the query is
    counted. *)
Lemma process_query_fallback_counts q ctx0 st fb :
  select_from (agents (self st)) q (context_or_empty ctx0) = Ok [] →
  get_agent (agents (self st)) "offline_knowledge" = Some fb →
  let s := orchestrator.stats (self st) in
  let s' := orchestrator.stats (self (process_query rt q ctx0 st).2) in
  total_queries s' = S (total_queries s)
  ∧ orchestrator.successful_responses s' = orchestrator.successful_responses s
  ∧ orchestrator.failed_responses s' = orchestrator.failed_responses s
  ∧ agent_usage s' = agent_usage s.
Proof.
  intros Hsel Hfb s s'. unfold s'.
  rewrite (process_query_fallback rt q ctx0 st fb Hsel Hfb). repeat split.
Qed.

(** The fallback branch on a registry of one agent that gives every query
    the score 0: the query is counted, the fallback agent is run, and
    neither an outcome nor a use of any agent is counted.  [__init__]
    registers the eight agents, with which this branch is not entered. *)
Lemma fallback_request_counts_no_outcome :
  let out := process_query sample.rt "xyzzy" None sample_requests.only_silent in
  let s' := orchestrator.stats (self out.2) in
  out.1 !! "is_fallback" = Some (VBool true)
  ∧ out.1 !! "success" = Some (VBool true)
  ∧ requests_of out.2 "offline_knowledge" = 1%nat
  ∧ total_queries s' = 1%nat
  ∧ orchestrator.successful_responses s' = 0%nat
  ∧ orchestrator.failed_responses s' = 0%nat
  ∧ agent_usage s' = ∅.
Proof. vm_compute. repeat split. Qed.
End statistics.

Section reachable.
Import base_agent orchestrator.
Context (rt : Runtime).

(** A request changes nothing of the registry but statistics. *)
Lemma process_query_erase_stats q ctx0 st :
  erase_stats (agents (self (process_query rt q ctx0 st).2))
  = erase_stats (agents (self st)).
Proof.
  destruct (select_from (agents (self st)) q (context_or_empty ctx0))
    as [[| [pid conf] secondary] | e] eqn:Hsel.
  - destruct (get_agent (agents (self st)) "offline_knowledge") as [fb |] eqn:Hfb.
    + rewrite (process_query_fallback rt q ctx0 st fb Hsel Hfb). cbn [snd].
      now rewrite erase_stats_after_process.
    + now rewrite (process_query_no_fallback rt q ctx0 st Hsel Hfb).
  - pose proof (select_from_registered _ _ _ _ Hsel) as Hreg.
    apply Forall_cons in Hreg as [[a Ha] _]. cbn [fst] in Ha.
    destruct (process_query_selected rt q ctx0 st pid conf secondary a Hsel Ha)
      as (enh & st2 & Hpass & Heq).
    rewrite Heq. cbn [snd]. unfold settle.
    assert (Hst : erase_stats (agents (self st2)) = erase_stats (agents (self st))).
    { destruct (_ && _).
      - destruct Hpass as (_ & H & _). rewrite H.
        now rewrite erase_stats_after_process.
      - destruct Hpass as [_ ->]. now rewrite erase_stats_after_process. }
    destruct (truthy (dict_get _ "success")); exact Hst.
  - now rewrite (process_query_raise rt q ctx0 st e Hsel).
Qed.

Lemma run_queries_erase_stats queries : ∀ st,
  erase_stats (agents (self (run_queries rt st queries)))
  = erase_stats (agents (self st)).
Proof.
  induction queries as [| [q ctx0] rest IH]; intros st; [reflexivity |].
  cbn [run_queries]. rewrite IH. apply process_query_erase_stats.
Qed.

Lemma take_sort_scores_cons x l : take 3 (sort_scores (x :: l)) ≠ [].
Proof.
  intros H. apply (f_equal length) in H.
  rewrite length_take, (Permutation_length (sort_scores_perm _)) in H.
  cbn [length] in H. lia.
Qed.

(** A first agent scoring above 0 heads the collected scores. *)
Lemma select_from_head_candidate k a rest q ctx s :
  can_handle a q ctx = Ok s → (0 < s)%Q →
  select_from ((k, a) :: rest) q ctx ≠ Ok [].
Proof.
  intros Hs Hpos. unfold select_from. cbn [score_agents]. rewrite Hs.
  apply Qltb_lt in Hpos. rewrite Hpos.
  destruct (score_agents rest q ctx) as [scores |]; [| discriminate].
  intros [= H]. apply fmap_nil_inv in H.
  exact (take_sort_scores_cons _ _ H).
Qed.

(** C10. [OfflineKnowledgeAgent.can_handle] scores every query at least
    0.3, hence above 0.  So for the registry built by
    [_initialize_agents], whatever the other seven agents are and after
    any run of requests, [_select_agents] never returns the empty list:
    the branch of [process_query] taken when no agent is selected, the
    one that sets [is_fallback], is never entered. *)
Theorem offline_knowledge_always_candidate :
  (∀ q ctx, ∃ s, offline_knowledge_agent.can_handle rt q ctx = Ok s
                 ∧ (3 # 10 <= s)%Q ∧ (0 < s)%Q)
  ∧ ∀ offline_exec online_exec a2 a3 a4 a5 a6 a7 a8 t queries q ctx,
      let registry :=
        _initialize_agents rt offline_exec online_exec a2 a3 a4 a5 a6 a7 a8 in
      let st := run_queries rt (initial_state registry t) queries in
      select_from (agents (self st)) q ctx ≠ Ok []
      ∧ ∀ selected, _select_agents q ctx st = (Ok selected, st) → selected ≠ [].
Proof.
  assert (Hscore : ∀ q ctx, ∃ s, offline_knowledge_agent.can_handle rt q ctx = Ok s
                                 ∧ (3 # 10 <= s)%Q ∧ (0 < s)%Q).
  { intros q ctx. unfold offline_knowledge_agent.can_handle.
    destruct (existsb _ offline_knowledge_agent.app_keywords);
      [eexists; split; [reflexivity | split; reflexivity || discriminate] |].
    destruct (existsb _ offline_knowledge_agent.education_keywords);
      eexists; (split; [reflexivity | split; reflexivity || discriminate]). }
  split; [exact Hscore |].
  intros offline_exec online_exec a2 a3 a4 a5 a6 a7 a8 t queries q ctx registry st.
  assert (Hne : select_from (agents (self st)) q ctx ≠ Ok []).
  { rewrite (erase_stats_select _ registry q ctx)
      by apply run_queries_erase_stats.
    destruct (Hscore q ctx) as (s & Hs & _ & Hpos).
    unfold registry, _initialize_agents.
    exact (select_from_head_candidate "offline_knowledge"
             (offline_knowledge_agent.OfflineKnowledgeAgent rt offline_exec online_exec)
             _ q ctx s Hs Hpos). }
  split; [exact Hne |].
  intros selected Hsel ->. unfold _select_agents in Hsel. congruence.
Qed.
End reachable.

(** * The properties on sample requests *)

Import base_agent.

(** Keyword matching of the offline knowledge agent. *)
Example can_handle_app_query :
  offline_knowledge_agent.can_handle sample.rt "how to use the scanner" ∅
  = Ok (9 # 10)%Q.
Proof. reflexivity. Qed.

Example can_handle_education_query :
  offline_knowledge_agent.can_handle sample.rt "what is photosynthesis?" ∅
  = Ok (7 # 10)%Q.
Proof. reflexivity. Qed.

Example can_handle_other_query :
  offline_knowledge_agent.can_handle sample.rt "xyzzy" ∅ = Ok (3 # 10)%Q.
Proof. reflexivity. Qed.

(** Ties at 0.9 are broken by priority, and the fourth candidate is cut. *)
Example select_agents_ties :
  orchestrator._select_agents "quiz" ∅ sample_selection.ties
  = (Ok [("offline_knowledge", 9 # 10); ("assessment", 9 # 10);
         ("language_support", 9 # 10)]%Q,
     sample_selection.ties).
Proof. reflexivity. Qed.

Lemma select_agents_ranks_candidates_witness :
  ∃ ranked : list (string * Q * Z),
    orchestrator._select_agents "quiz" ∅ sample_selection.ties
      = (Ok ((λ x : string * Q * Z, (x.1.1, x.1.2)) <$> take 3 ranked),
         sample_selection.ties)
    ∧ StronglySorted ranks_before ranked.
Proof.
  destruct (select_agents_ranks_candidates "quiz" ∅ sample_selection.ties)
    as (ranked & H1 & _ & H3 & _).
  - repeat constructor; eexists; reflexivity.
  - exists ranked. split; assumption.
Defined.

Lemma auto_mode_follows_has_internet_witness :
  current_mode sample.tutor = AUTO
  ∧ resolve_mode sample.tutor (Some (<["has_internet" := VBool true]> ∅)) None
    = ONLINE.
Proof.
  split; [reflexivity |].
  destruct (auto_mode_follows_has_internet sample.rt sample.tutor "what is 2+2"
              (Some (<["has_internet" := VBool true]> ∅)) None 0 eq_refl)
    as (_ & _ & _ & H & _).
  apply (H (<["has_internet" := VBool true]> ∅) true); reflexivity.
Defined.

Lemma avg_response_time_is_incremental_mean_witness :
  avg_response_time_ms
    (stats (process sample.rt sample.tutor "what is 2+2" None None 0).1.2)
  = elapsed_ms sample.rt 0.
Proof.
  destruct (avg_response_time_is_incremental_mean sample.rt sample.tutor
              "what is 2+2" None None 0
              (<["answer" := VStr "offline answer"]> (<["success" := VBool true]> ∅))
              eq_refl)
    as (_ & _ & _ & H).
  apply H. reflexivity.
Defined.

Lemma fallback_when_no_agent_scores_witness :
  (orchestrator.process_query sample.rt "xyzzy" None sample_requests.only_silent).1
    !! "is_fallback" = Some (VBool true).
Proof.
  destruct (fallback_when_no_agent_scores sample.rt "xyzzy" None
              sample_requests.only_silent sample_requests.silent_knowledge)
    as (_ & _ & H & _).
  - repeat constructor. exists 0%Q. split; reflexivity.
  - reflexivity.
  - exact H.
Defined.

(** C2, as stated, fails when the primary agent's path raises: the
    envelope has no [response_time_ms]. *)
Lemma failing_agent_envelope_lacks_response_time :
  ¬ has_injected_fields
      (orchestrator.process_query sample.rt "hello" None sample_requests.only_broken).1.
Proof.
  intros H. specialize (H "response_time_ms").
  destruct H as [v Hv].
  - do 4 (apply elem_of_cons; right). apply elem_of_cons. now left.
  - vm_compute in Hv. discriminate.
Qed.

(** C6, as stated, fails on a confident planner: it is a secondary with
    confidence 0.95 after a successful primary, [process] is not invoked
    on it, and yet it contributes [study_path_available]. *)
Lemma confident_planner_is_not_invoked :
  ¬ invokes_each_confident_secondary sample.rt "plan my week" None
      sample_requests.tutor_then_planner
  ∧ requests_of
      (orchestrator.process_query sample.rt "plan my week" None
         sample_requests.tutor_then_planner).2 "study_path_planner" = 0%nat
  ∧ (orchestrator.process_query sample.rt "plan my week" None
       sample_requests.tutor_then_planner).1 !! "enhancements"
    = Some (VDict (<["study_path_available" := VBool true]> ∅)).
Proof.
  split; [| split; reflexivity].
  intros H.
  specialize (H "study_assistant" 1%Q [("study_path_planner", (95 # 100)%Q)]
                sample_requests.top_tutor eq_refl eq_refl eq_refl
                "study_path_planner" (95 # 100)%Q).
  assert (Hin : ("study_path_planner", (95 # 100)%Q)
                ∈ take 2 [("study_path_planner", (95 # 100)%Q)])
    by (apply elem_of_cons; now left).
  specialize (H Hin eq_refl). vm_compute in H. discriminate.
Qed.

Lemma enhancement_contributions_witness :
  ∃ (enh : Dict) (st2 : orchestrator.State),
    (orchestrator.process_query sample.rt "plan my week" None
       sample_requests.tutor_planner_videos).2
    = settle "study_assistant"
        (process sample.rt sample_requests.top_tutor "plan my week" (Some ∅) None 1).1.1
        st2
    ∧ enh !! "study_path_available" = Some (VBool true).
Proof.
  destruct (enhancement_contributions sample.rt "plan my week" None
              sample_requests.tutor_planner_videos "study_assistant" 1%Q
              [("study_path_planner", (95 # 100)%Q); ("content_discovery", (85 # 100)%Q)]
              sample_requests.top_tutor eq_refl eq_refl)
    as (enh & st2 & Heq & _ & Hplan & _).
  - discriminate.
  - reflexivity.
  - exists enh, st2. split.
    + rewrite Heq. reflexivity.
    + apply Hplan. exists (95 # 100)%Q.
      split; [apply elem_of_cons; now left | reflexivity].
Defined.

Lemma secondary_failure_leaves_primary_witness :
  (orchestrator.process_query sample.rt "plan my week" None
     sample_requests.tutor_planner_videos).1 !! "answer"
  = Some (VStr "offline answer").
Proof.
  destruct (secondary_failure_leaves_primary sample.rt "plan my week" None
              sample_requests.tutor_planner_videos "study_assistant" 1%Q
              [("study_path_planner", (95 # 100)%Q); ("content_discovery", (85 # 100)%Q)]
              sample_requests.top_tutor eq_refl eq_refl eq_refl)
    as (_ & H & _).
  rewrite H. reflexivity.
Defined.

(** * Further properties *)

(** ** BaseAgent: modes and counters *)

Section base_agent_more.
Import base_agent.
Context (rt : Runtime).

Lemma process_keeps_mode a q ctx mode t :
  current_mode (process rt a q ctx mode t).1.2 = current_mode a.
Proof.
  destruct (process_set_stats rt a q ctx mode t) as [s ->]. reflexivity.
Qed.

(** What one call does to the counters of the two paths. *)
Lemma process_path_counts a q ctx mode t :
  let a' := (process rt a q ctx mode t).1.2 in
  offline_requests (stats a')
  = (if decide (resolve_mode a ctx mode = OFFLINE)
     then S (offline_requests (stats a)) else offline_requests (stats a))
  ∧ online_requests (stats a')
    = (if decide (resolve_mode a ctx mode = OFFLINE)
       then online_requests (stats a) else S (online_requests (stats a))).
Proof.
  destruct (run_handler a (resolve_mode a ctx mode) q ctx) as [d | e] eqn:Hrun.
  - rewrite (process_ok rt _ _ _ _ _ _ Hrun). split; reflexivity.
  - rewrite (process_raise rt _ _ _ _ _ _ Hrun). split; reflexivity.
Qed.

(** X1. A mode other than AUTO, given as override or, without override,
    as the agent's current mode, is the mode the call executes in,
    whatever the context says about connectivity: it is written to the
    envelope, its path is run and its counter, and only its counter, is
    incremented. *)
Theorem explicit_mode_ignores_context a q ctx mode t m :
  match mode with Some m' => m' | None => current_mode a end = m →
  m ≠ AUTO →
  let out := process rt a q ctx mode t in
  resolve_mode a ctx mode = m
  ∧ out.1.1 !! "mode" = Some (VStr (AgentMode_value m))
  ∧ run_handler a m q ctx
    = (if decide (m = OFFLINE) then process_offline a q ctx
       else process_online a q ctx)
  ∧ (m = OFFLINE →
       offline_requests (stats out.1.2) = S (offline_requests (stats a))
       ∧ online_requests (stats out.1.2) = online_requests (stats a))
  ∧ (m = ONLINE →
       online_requests (stats out.1.2) = S (online_requests (stats a))
       ∧ offline_requests (stats out.1.2) = offline_requests (stats a)).
Proof.
  intros Hm Hauto out.
  assert (Hres : resolve_mode a ctx mode = m).
  { unfold resolve_mode. rewrite Hm. destruct (decide (m = AUTO)); [contradiction | reflexivity]. }
  destruct (process_path_counts a q ctx mode t) as [Hoff Hon].
  cbn zeta in Hoff, Hon. fold out in Hoff, Hon. rewrite Hres in Hoff, Hon.
  split; [exact Hres |]. split.
  { pose proof (process_envelope_fields rt a q ctx mode t) as [(_ & _ & H & _) _].
    rewrite Hres in H. exact H. }
  split; [reflexivity |]. split.
  - intros ->. rewrite Hoff, Hon.
    destruct (decide (OFFLINE = OFFLINE)); [now split | congruence].
  - intros ->. rewrite Hoff, Hon.
    destruct (decide (ONLINE = OFFLINE)); [discriminate | now split].
Qed.

Lemma run_calls_path_counts calls : ∀ a t,
  let a' := (run_calls rt a calls t).1 in
  (offline_requests (stats a') + online_requests (stats a')
   = length calls + (offline_requests (stats a) + online_requests (stats a)))%nat.
Proof.
  induction calls as [| c rest IH]; intros a t; [reflexivity |].
  cbn [run_calls length].
  pose proof (process_path_counts a (call_query c) (call_context c) (call_mode c) t)
    as [Hoff Hon].
  destruct (process rt a (call_query c) (call_context c) (call_mode c) t)
    as [[r a1] t1].
  cbn [fst snd] in Hoff, Hon. specialize (IH a1 t1). cbn zeta in IH |- *.
  rewrite IH, Hoff, Hon.
  destruct (decide (resolve_mode a (call_context c) (call_mode c) = OFFLINE)); lia.
Qed.

(** X2. Every call of [process] is counted on exactly one of the two
    paths: over any run of calls the offline and online counters together
    grow by the number of calls, so on an agent as [__init__] builds it
    they add up to the request count. *)
Theorem requests_split_between_paths a ident nm prio dm ch off on calls t :
  (let a' := (run_calls rt a calls t).1 in
   (offline_requests (stats a') + online_requests (stats a')
    = length calls + (offline_requests (stats a) + online_requests (stats a)))%nat)
  ∧ (let fresh := BaseAgent_init ident nm prio dm ch off on in
     let a' := (run_calls rt fresh calls t).1 in
     (offline_requests (stats a') + online_requests (stats a')
      = total_requests (stats a'))%nat).
Proof.
  split; [exact (run_calls_path_counts calls a t) |].
  intros fresh a'.
  pose proof (run_calls_path_counts calls fresh t) as H1.
  destruct (run_calls_counts rt calls fresh t) as [H2 _].
  fold a' in H1, H2. cbn in H1, H2. lia.
Qed.

Lemma call_returns_set_stats a s c :
  call_returns (set_stats a s) c = call_returns a c.
Proof. reflexivity. Qed.

(** One call: a success is counted when the path returns, a failure when
    it raises. *)
Lemma process_outcome_counts a c t :
  let a' := (process rt a (call_query c) (call_context c) (call_mode c) t).1.2 in
  successful_responses (stats a')
  = (if call_returns a c then S (successful_responses (stats a))
     else successful_responses (stats a))
  ∧ failed_responses (stats a')
    = (if call_returns a c then failed_responses (stats a)
       else S (failed_responses (stats a))).
Proof.
  unfold call_returns.
  destruct (run_handler a (resolve_mode a (call_context c) (call_mode c))
              (call_query c) (call_context c)) as [d | e] eqn:Hrun.
  - rewrite (process_ok rt _ _ _ _ _ _ Hrun). split; reflexivity.
  - rewrite (process_raise rt _ _ _ _ _ _ Hrun). split; reflexivity.
Qed.

Lemma run_calls_outcomes a0 calls : ∀ a t,
  (∀ c, call_returns a c = call_returns a0 c) →
  let a' := (run_calls rt a calls t).1 in
  successful_responses (stats a')
  = (length (filter (λ c, call_returns a0 c = true) calls)
     + successful_responses (stats a))%nat
  ∧ failed_responses (stats a')
    = (length (filter (λ c, call_returns a0 c = false) calls)
       + failed_responses (stats a))%nat.
Proof.
  induction calls as [| c rest IH]; intros a t Hsame; [split; reflexivity |].
  cbn [run_calls]. rewrite !filter_cons.
  destruct (process_outcome_counts a c t) as [Hs Hf].
  destruct (process_set_stats rt a (call_query c) (call_context c) (call_mode c) t)
    as [s1 Ha1].
  destruct (process rt a (call_query c) (call_context c) (call_mode c) t)
    as [[r a1] t1].
  cbn [fst snd] in Hs, Hf, Ha1. destruct (IH a1 t1) as [IHs IHf].
  { intros c0. subst a1. rewrite call_returns_set_stats. apply Hsame. }
  cbn zeta in IHs, IHf |- *. rewrite IHs, IHf, Hs, Hf, Hsame.
  destruct (call_returns a0 c).
  - rewrite decide_True by reflexivity. rewrite decide_False by discriminate.
    cbn [length]. split; lia.
  - rewrite decide_False by discriminate. rewrite decide_True by reflexivity.
    cbn [length]. split; lia.
Qed.

(** X3. The outcome counters follow the paths: after any run of calls on
    an agent as [__init__] builds it, [successful_responses] is the number
    of calls whose chosen path returned a response and [failed_responses]
    the number of calls whose path raised.  In particular updating the
    average never fails: no call whose path returned is counted as a
    failure. *)
Theorem outcome_counters_follow_paths ident nm prio dm ch off on calls t :
  let fresh := BaseAgent_init ident nm prio dm ch off on in
  let a' := (run_calls rt fresh calls t).1 in
  successful_responses (stats a')
  = length (filter (λ c, call_returns fresh c = true) calls)
  ∧ failed_responses (stats a')
    = length (filter (λ c, call_returns fresh c = false) calls).
Proof.
  intros fresh a'.
  destruct (run_calls_outcomes fresh calls fresh t (λ c, eq_refl)) as [Hs Hf].
  fold a' in Hs, Hf. cbn in Hs, Hf. split; lia.
Qed.
End base_agent_more.

(** ** The registry over a run of requests *)

Section registry_steps.
Import base_agent orchestrator.
Context (rt : Runtime).

Lemma processes_only_refl st : processes_only rt st st.
Proof. apply rtc_refl. Qed.

Lemma processes_only_same_agents st st' st'' :
  agents (self st'') = agents (self st') →
  processes_only rt st st' → processes_only rt st st''.
Proof. unfold processes_only. now intros ->. Qed.

Lemma processes_only_agents_eq st st' :
  agents (self st') = agents (self st) → processes_only rt st st'.
Proof. unfold processes_only. intros ->. apply rtc_refl. Qed.

Lemma processes_only_trans st st' st'' :
  processes_only rt st st' → processes_only rt st' st'' → processes_only rt st st''.
Proof. apply rtc_trans. Qed.

Lemma processes_only_after_process st k a q ctx :
  get_agent (agents (self st)) k = Some a →
  processes_only rt st (after_process rt st k a q ctx).
Proof.
  intros Ha. unfold processes_only, after_process. cbn [self agents].
  apply rtc_once. now constructor.
Qed.

(** One iteration of the enhancement loop. *)
Lemma enhance_step_processes_only r q ctx enh sec st :
  processes_only rt st (enhance_step rt r q ctx enh sec st).2.
Proof.
  destruct sec as [k c]. unfold enhance_step, bind at 1, agent_at.
  destruct (get_agent (agents (self st)) k) as [a |] eqn:Ha;
    [| apply processes_only_refl].
  cbn [ret].
  destruct (String.eqb k "content_discovery" && Qltb (1 # 2) c).
  - unfold bind. rewrite call_process_eq.
    destruct (truthy (dict_get _ "success"));
      now apply processes_only_after_process.
  - destruct (String.eqb k "study_path_planner" && Qltb (1 # 2) c);
      [apply processes_only_refl |].
    destruct (String.eqb k "assessment" && Qltb (1 # 2) c);
      apply processes_only_refl.
Qed.

Lemma enhance_loop_processes_only r q ctx secs : ∀ enh st,
  processes_only rt st (enhance_loop rt r q ctx secs enh st).2.
Proof.
  induction secs as [| sec rest IH]; intros enh st; [apply processes_only_refl |].
  cbn [enhance_loop]. unfold bind.
  pose proof (enhance_step_processes_only r q ctx enh sec st) as H1.
  destruct (enhance_step rt r q ctx enh sec st) as [[enh1 | e] st1]; [| exact H1].
  eapply processes_only_trans; [exact H1 | apply IH].
Qed.

Lemma enhance_response_processes_only r secs q ctx st :
  processes_only rt st (_enhance_response rt r secs q ctx st).2.
Proof.
  unfold _enhance_response, bind.
  pose proof (enhance_loop_processes_only r q ctx (take 2 secs) ∅ st) as H1.
  destruct (enhance_loop rt r q ctx (take 2 secs) ∅ st) as [[enh | e] st1];
    [| exact H1].
  destruct (truthy (VDict enh)); exact H1.
Qed.

(** A request changes the registry only by running [process] on
    registered agents. *)
Lemma process_query_processes_only q ctx0 st :
  processes_only rt st (process_query rt q ctx0 st).2.
Proof.
  destruct (select_from (agents (self st)) q (context_or_empty ctx0))
    as [[| [pid conf] secondary] | e] eqn:Hsel.
  - destruct (get_agent (agents (self st)) "offline_knowledge") as [fb |] eqn:Hfb.
    + rewrite (process_query_fallback rt q ctx0 st fb Hsel Hfb). cbn [snd].
      exact (processes_only_after_process (count_query_in (tick st)) _ fb q _ Hfb).
    + rewrite (process_query_no_fallback rt q ctx0 st Hsel Hfb).
      now apply processes_only_agents_eq.
  - pose proof (select_from_registered _ _ _ _ Hsel) as Hreg.
    apply Forall_cons in Hreg as [[a Ha] _]. cbn [fst] in Ha.
    unfold process_query, process_query_try. unfold bind at 1. unfold _select_agents.
    change (agents (self (count_query_in (tick st)))) with (agents (self st)).
    rewrite Hsel. unfold bind at 1.
    rewrite (agent_at_Some pid a (count_query_in (tick st)) Ha).
    unfold bind at 1. rewrite call_process_eq.
    set (st1 := after_process rt (count_query_in (tick st)) pid a q
                  (context_or_empty ctx0)).
    assert (H1 : processes_only rt st st1)
      by exact (processes_only_after_process (count_query_in (tick st)) _ a q _ Ha).
    set (r := (process rt a q (Some (context_or_empty ctx0)) None
                 (ticks (count_query_in (tick st)))).1.1).
    assert (H2 : ∀ (m : M Dict),
              processes_only rt st1 (m st1).2 →
              processes_only rt st
                (match
                   (let! response := m in
                    let! _ := (if truthy (dict_get response "success")
                               then count_success else count_failure) in
                    let! _ := _update_agent_usage pid in
                    let! end_time := read_clock rt in
                    ret (<["total_response_time_ms" :=
                             VNum (round2 rt ((end_time - now rt (ticks st)) * 1000))]>
                           response)) st1
                 with
                 | (Ok response, st') => (response, st')
                 | (Raise e, st') =>
                     (failure_envelope e
                        (isoformat rt (now rt (ticks (count_failure_in st')))),
                      tick (count_failure_in st'))
                 end).2).
    { intros m Hm. unfold bind at 1.
      destruct (m st1) as [[resp | e] st2]; cbn [snd] in Hm |- *.
      - unfold bind, ret, count_success, count_failure, _update_agent_usage,
          read_clock.
        destruct (truthy (dict_get resp "success")); cbn [snd];
          (eapply processes_only_trans; [exact H1 |]);
          (eapply processes_only_same_agents; [reflexivity | exact Hm]).
      - eapply processes_only_trans; [exact H1 |].
        eapply processes_only_same_agents; [reflexivity | exact Hm]. }
    destruct ((1 <? length ((pid, conf) :: secondary))%nat
              && truthy (dict_get r "success")).
    + apply H2. apply enhance_response_processes_only.
    + apply H2. apply processes_only_refl.
  - rewrite (process_query_raise rt q ctx0 st e Hsel).
    now apply processes_only_agents_eq.
Qed.

Lemma run_queries_processes_only queries : ∀ st,
  processes_only rt st (run_queries rt st queries).
Proof.
  induction queries as [| [q ctx0] rest IH]; intros st; [apply processes_only_refl |].
  cbn [run_queries]. eapply processes_only_trans; [| apply IH].
  apply process_query_processes_only.
Qed.

(** *** Lifting what [process] keeps to the whole registry *)

Lemma get_agent_Forall (P : Agent → Prop) reg k a :
  Forall (λ e : string * Agent, P e.2) reg → get_agent reg k = Some a → P a.
Proof.
  induction 1 as [| [k0 a0] rest H0 _ IH]; cbn; [discriminate |].
  destruct (String.eqb k0 k); [intros [= <-]; exact H0 | exact IH].
Qed.

Lemma put_agent_Forall (P : Agent → Prop) reg k a' :
  Forall (λ e : string * Agent, P e.2) reg → P a' →
  Forall (λ e : string * Agent, P e.2) (put_agent reg k a').
Proof.
  intros H Ha'. induction H as [| [k0 a0] rest H0 Hrest IH]; cbn; [constructor |].
  destruct (String.eqb k0 k); constructor; assumption.
Qed.

Lemma registry_steps_Forall (P : Agent → Prop) reg reg' :
  (∀ a q ctx t, P a → P (process rt a q (Some ctx) None t).1.2) →
  rtc (registry_step rt) reg reg' →
  Forall (λ e : string * Agent, P e.2) reg →
  Forall (λ e : string * Agent, P e.2) reg'.
Proof.
  intros Hkeep Hsteps. induction Hsteps as [| reg reg1 reg2 Hstep _ IH]; [tauto |].
  intros Hreg. apply IH. destruct Hstep as [reg k a q ctx t Ha].
  apply put_agent_Forall; [exact Hreg |]. apply Hkeep.
  exact (get_agent_Forall P _ _ _ Hreg Ha).
Qed.
End registry_steps.

Section registry_over_runs.
Import base_agent orchestrator.
Context (rt : Runtime).

Lemma process_keeps_consistent a q ctx mode t :
  stats_consistent a → stats_consistent (process rt a q ctx mode t).1.2.
Proof.
  unfold stats_consistent. intros [H1 H2].
  destruct (process_counts rt a q ctx mode t) as [Ht Hs].
  destruct (process_path_counts rt a q ctx mode t) as [Hoff Hon].
  cbn zeta in *. rewrite Ht, Hs, Hoff, Hon.
  destruct (decide (resolve_mode a ctx mode = OFFLINE)); split; lia.
Qed.

Lemma erase_stats_consistent reg :
  Forall (λ e : string * Agent, stats_consistent e.2) (erase_stats reg).
Proof.
  unfold erase_stats. apply Forall_fmap, Forall_forall. intros e _.
  split; reflexivity.
Qed.

(** X4. In an orchestrator whose agents start with fresh statistics, after
    any run of requests every registered agent's own statistics are
    consistent, whether it served as primary, as fallback or as secondary:
    its successes and failures add up to its requests, and so do its
    offline and online requests. *)
Theorem registered_agents_stay_consistent reg t queries :
  let st := run_queries rt (initial_state (erase_stats reg) t) queries in
  Forall (λ e : string * Agent, stats_consistent e.2) (agents (self st)).
Proof.
  intros st.
  eapply (registry_steps_Forall rt stats_consistent).
  - intros a q ctx t0. apply process_keeps_consistent.
  - exact (run_queries_processes_only rt queries (initial_state (erase_stats reg) t)).
  - apply erase_stats_consistent.
Qed.

Lemma erase_stats_keys reg reg' :
  erase_stats reg = erase_stats reg' → reg.*1 = reg'.*1.
Proof.
  intros H. apply (f_equal (fmap fst)) in H. unfold erase_stats in H.
  rewrite <- !list_fmap_compose in H. exact H.
Qed.

(** X5. Requests never register, remove, rename or reconfigure an agent:
    after any run of requests the registry has the same keys in the same
    order, and the agent under each key is the one that was there, with
    only its statistics changed. *)
Theorem requests_change_only_statistics st queries :
  let st' := run_queries rt st queries in
  (agents (self st')).*1 = (agents (self st)).*1
  ∧ ∀ k, match get_agent (agents (self st)) k, get_agent (agents (self st')) k with
         | Some a, Some a' => a' = set_stats a (base_agent.stats a')
         | None, None => True
         | _, _ => False
         end.
Proof.
  intros st'.
  pose proof (run_queries_erase_stats rt queries st) as He. fold st' in He.
  split; [exact (erase_stats_keys _ _ He) |].
  intros k. pose proof (erase_stats_get _ _ k He) as Hg.
  destruct (get_agent (agents (self st)) k) as [a |],
           (get_agent (agents (self st')) k) as [a' |]; cbn in Hg;
    try discriminate; [| exact I].
  assert (Hm : set_stats a' init_stats = set_stats a init_stats) by congruence.
  rewrite <- (set_stats_eta a') at 1.
  exact (same_methods_set_stats _ _ _ Hm).
Qed.

(** X6. Selection does not depend on what was served before: after any run
    of requests [_select_agents] gives, for the same query and context,
    the result it gave before the run. *)
Theorem selection_ignores_history st queries q ctx :
  select_from (agents (self (run_queries rt st queries))) q ctx
  = select_from (agents (self st)) q ctx.
Proof.
  apply erase_stats_select, run_queries_erase_stats.
Qed.
End registry_over_runs.

(** ** More on selection *)

Section selection_more.
Import base_agent orchestrator.

Lemma candidates_elem agents q ctx x :
  x ∈ candidates agents q ctx →
  (0 < x.1.2)%Q
  ∧ ∃ e : string * Agent, e ∈ agents ∧ x.1.1 = e.1
      ∧ x.1.2 = score_of q ctx e.2 ∧ x.2 = AgentPriority_value (priority e.2).
Proof.
  unfold candidates. intros H. apply list_elem_of_fmap in H as (e & -> & He).
  apply list_elem_of_filter in He as [Hpos He]. cbn [fst snd].
  split; [exact Hpos |]. exists e. repeat split. exact He.
Qed.

Lemma candidates_intro agents q ctx (e : string * Agent) :
  e ∈ agents → (0 < score_of q ctx e.2)%Q →
  (e.1, score_of q ctx e.2, AgentPriority_value (priority e.2))
  ∈ candidates agents q ctx.
Proof.
  intros He Hpos. unfold candidates.
  apply (list_elem_of_fmap_2
           (λ e : string * Agent,
              (e.1, score_of q ctx e.2, AgentPriority_value (priority e.2)))).
  apply list_elem_of_filter. now split.
Qed.

(** X7. When every registered agent gives a score, [_select_agents]
    returns as many agents as score above 0, but at most 3; each entry
    carries the registered agent's own score, which is above 0; and the
    first entry, the primary agent, has the highest score of all
    registered agents.  The result is empty only when no agent scores
    above 0. *)
Theorem selected_agents_shape q ctx st :
  Forall (λ e : string * Agent, is_Ok (can_handle e.2 q ctx)) (agents (self st)) →
  ∃ selected,
    select_from (agents (self st)) q ctx = Ok selected
    ∧ length selected = (3 `min` length (candidates (agents (self st)) q ctx))%nat
    ∧ (∀ k c, (k, c) ∈ selected →
         (0 < c)%Q
         ∧ ∃ a, (k, a) ∈ agents (self st) ∧ can_handle a q ctx = Ok c)
    ∧ (∀ k c rest, selected = (k, c) :: rest →
         ∀ e : string * Agent, e ∈ agents (self st) →
           (score_of q ctx e.2 <= c)%Q)
    ∧ (selected = [] →
         ∀ e : string * Agent, e ∈ agents (self st) →
           ¬ (0 < score_of q ctx e.2)%Q).
Proof.
  intros Hok.
  set (cands := candidates (agents (self st)) q ctx).
  exists ((λ x : string * Q * Z, (x.1.1, x.1.2)) <$> take 3 (sort_scores cands)).
  assert (Hin : ∀ x, x ∈ take 3 (sort_scores cands) → x ∈ cands).
  { intros x Hx. apply subseteq_take in Hx. now rewrite sort_scores_perm in Hx. }
  split; [unfold select_from; now rewrite (score_agents_candidates _ _ _ Hok) |].
  split; [now rewrite length_fmap, length_take, (Permutation_length (sort_scores_perm _)) |].
  split; [| split].
  - intros k c Hkc. apply list_elem_of_fmap in Hkc as (x & Hx & Hxin).
    injection Hx as -> ->.
    apply Hin, candidates_elem in Hxin as (Hpos & [k0 a] & He & Hk & Hc & _).
    cbn [fst snd] in Hk, Hc. split; [exact Hpos |].
    exists a. rewrite Hk. split; [exact He |].
    rewrite Forall_forall in Hok. destruct (Hok _ He) as [s Hs]. cbn [snd] in Hs.
    rewrite Hs. f_equal. rewrite Hc. unfold score_of. now rewrite Hs.
  - intros k c rest Hsel e He.
    destruct (sort_scores cands) as [| h tl] eqn:Hsort; [discriminate |].
    cbn in Hsel. injection Hsel as <- <- _.
    pose proof (sort_scores_sorted cands) as Hs. rewrite Hsort in Hs.
    apply StronglySorted_inv in Hs as [_ Hh].
    assert (Hhpos : (0 < h.1.2)%Q).
    { apply (candidates_elem (agents (self st)) q ctx).
      fold cands. rewrite <- (sort_scores_perm cands), Hsort. apply elem_of_cons. now left. }
    destruct (decide (0 < score_of q ctx e.2)%Q) as [Hpos | Hneg].
    + pose proof (candidates_intro _ q ctx e He Hpos) as Hc. fold cands in Hc.
      rewrite <- (sort_scores_perm cands), Hsort in Hc.
      apply elem_of_cons in Hc as [<- | Hc]; [apply Qle_refl |].
      rewrite Forall_forall in Hh. destruct (Hh _ Hc) as [Hlt | [Heq _]]; cbn in *.
      * now apply Qlt_le_weak.
      * rewrite Heq. apply Qle_refl.
    + apply Qnot_lt_le in Hneg. eapply Qle_trans; [exact Hneg |].
      now apply Qlt_le_weak.
  - intros Hnil e He Hpos. apply fmap_nil_inv in Hnil.
    pose proof (candidates_intro _ q ctx e He Hpos) as Hc. fold cands in Hc.
    assert (Hlen : length (take 3 (sort_scores cands)) = 0%nat) by now rewrite Hnil.
    rewrite length_take, (Permutation_length (sort_scores_perm _)) in Hlen.
    destruct cands; [now apply elem_of_nil in Hc | cbn in Hlen; lia].
Qed.

Lemma key_lt_same_rank k x y :
  same_rank k x → same_rank k y → key_lt y x = false.
Proof.
  unfold same_rank, key_lt. intros [Hx Px] [Hy Py].
  assert (He : (- y.1.2 == - x.1.2)%Q) by now rewrite Hx, Hy.
  apply Qeq_alt in He. rewrite He. apply Z.ltb_ge. lia.
Qed.

Lemma sort_insert_filter k x l :
  filter (same_rank k) (sort_insert x l) = filter (same_rank k) (x :: l).
Proof.
  induction l as [| y l IH]; [reflexivity |]. cbn [sort_insert].
  destruct (key_lt y x) eqn:Hk; [| reflexivity].
  rewrite filter_cons, IH, !filter_cons.
  destruct (decide (same_rank k y)) as [Hy | Hy];
    destruct (decide (same_rank k x)) as [Hx | Hx]; try reflexivity.
  rewrite (key_lt_same_rank k x y Hx Hy) in Hk. discriminate.
Qed.

Lemma sort_scores_filter k l :
  filter (same_rank k) (sort_scores l) = filter (same_rank k) l.
Proof.
  induction l as [| x l IH]; [reflexivity |].
  cbn [sort_scores foldr]. fold (sort_scores l).
  now rewrite sort_insert_filter, !filter_cons, IH.
Qed.

(** X8. The ranking of [_select_agents] is stable: among the agents it
    scored, those with the same confidence and the same priority come out
    in the order the registry holds them. *)
Theorem ranking_keeps_registry_order_on_ties q ctx st scores :
  score_agents (agents (self st)) q ctx = Ok scores →
  ∃ ranked,
    select_from (agents (self st)) q ctx
      = Ok ((λ x : string * Q * Z, (x.1.1, x.1.2)) <$> take 3 ranked)
    ∧ ranked ≡ₚ scores
    ∧ ∀ k, filter (same_rank k) ranked = filter (same_rank k) scores.
Proof.
  intros Hs. exists (sort_scores scores).
  split; [unfold select_from; now rewrite Hs |].
  split; [apply sort_scores_perm | intros k; apply sort_scores_filter].
Qed.
End selection_more.

(** ** The orchestrator's counters *)

Section counters.
Import base_agent orchestrator orchestrator_admin.
Context (rt : Runtime).

Lemma usage_total_comm (j1 j2 : string) (z1 z2 y : nat) :
  (z1 + (z2 + y) = z2 + (z1 + y))%nat.
Proof. lia. Qed.

Lemma usage_total_bump usage k :
  usage_total (<[k := S (default 0%nat (usage !! k))]> usage) = S (usage_total usage).
Proof.
  unfold usage_total. destruct (usage !! k) as [n |] eqn:Hk; cbn [default].
  - pose proof (map_fold_delete_L (λ (_ : string) (n acc : nat), (n + acc)%nat)
                  0%nat k n usage
                  (λ j1 j2 z1 z2 y _ _ _, usage_total_comm j1 j2 z1 z2 y) Hk) as H1.
    pose proof (map_fold_insert_L (λ (_ : string) (n acc : nat), (n + acc)%nat)
                  0%nat k (S n) (delete k usage)
                  (λ j1 j2 z1 z2 y _ _ _, usage_total_comm j1 j2 z1 z2 y)
                  (lookup_delete_eq usage k)) as H2.
    rewrite insert_delete_eq in H2. cbv beta in H1. change (id n) with n. lia.
  - pose proof (map_fold_insert_L (λ (_ : string) (n acc : nat), (n + acc)%nat)
                  0%nat k 1%nat usage
                  (λ j1 j2 z1 z2 y _ _ _, usage_total_comm j1 j2 z1 z2 y) Hk) as H1.
    cbv beta in H1. lia.
Qed.

Lemma processes_only_requests_mono st st' :
  processes_only rt st st' → ∀ k, (requests_of st k ≤ requests_of st' k)%nat.
Proof.
  unfold processes_only, requests_of.
  generalize (agents (self st)), (agents (self st')). clear st st'.
  intros reg reg' H. induction H as [| reg reg1 reg2 Hstep _ IH]; intros k0; [lia |].
  etransitivity; [| apply IH]. destruct Hstep as [reg k a q ctx t Ha].
  destruct (decide (k = k0)) as [<- | Hne].
  - rewrite (get_agent_put_eq _ _ _ _ Ha), Ha.
    destruct (process_counts rt a q (Some ctx) None t) as [-> _]. lia.
  - now rewrite get_agent_put_ne.
Qed.

(** What one request does to the counters, whichever branch it takes. *)
Lemma process_query_counters q ctx0 st :
  let s := orchestrator.stats (self st) in
  let st' := (process_query rt q ctx0 st).2 in
  let s' := orchestrator.stats (self st') in
  total_queries s' = S (total_queries s)
  ∧ (orchestrator.successful_responses s ≤ orchestrator.successful_responses s')%nat
  ∧ (orchestrator.failed_responses s ≤ orchestrator.failed_responses s')%nat
  ∧ (orchestrator.successful_responses s' + orchestrator.failed_responses s'
     ≤ S (orchestrator.successful_responses s + orchestrator.failed_responses s))%nat
  ∧ (usage_total (agent_usage s')
       + (orchestrator.successful_responses s + orchestrator.failed_responses s)
     ≤ usage_total (agent_usage s)
       + (orchestrator.successful_responses s' + orchestrator.failed_responses s'))%nat
  ∧ (∀ k, (usage_count s k ≤ usage_count s' k)%nat
          ∧ (usage_count s' k + requests_of st k
             ≤ usage_count s k + requests_of st' k)%nat)
  ∧ (∀ k n, agent_usage s' !! k = Some n →
            agent_usage s !! k = Some n ∨ (1 ≤ n)%nat).
Proof.
  intros s st' s'.
  pose proof (processes_only_requests_mono st st'
                (process_query_processes_only rt q ctx0 st)) as Hmono.
  subst s s' st'.
  destruct (select_from (agents (self st)) q (context_or_empty ctx0))
    as [[| [pid conf] secondary] | e] eqn:Hsel.
  - destruct (get_agent (agents (self st)) "offline_knowledge") as [fb |] eqn:Hfb.
    + pose proof (process_query_fallback_counts rt q ctx0 st fb Hsel Hfb) as H.
      cbv zeta in H. destruct H as (H1 & H2 & H3 & H4).
      unfold usage_count. rewrite H1, H2, H3, H4.
      split; [reflexivity |]. split; [lia |]. split; [lia |]. split; [lia |].
      split; [lia |]. split.
      * intros k. specialize (Hmono k). lia.
      * intros k n Hn. now left.
    + revert Hmono. rewrite (process_query_no_fallback rt q ctx0 st Hsel Hfb).
      intros Hmono. cbn in Hmono |- *.
      split; [reflexivity |]. split; [lia |]. split; [lia |]. split; [lia |].
      split; [lia |]. split.
      * intros k. specialize (Hmono k). unfold usage_count. cbn [agent_usage]. lia.
      * intros k n Hn. now left.
  - pose proof (process_query_selected_counts rt q ctx0 st pid conf secondary Hsel) as H.
    cbv zeta in H. destruct H as (H1 & H2 & H3 & H4 & H5).
    rewrite H1, H5, usage_total_bump.
    split; [reflexivity |]. split; [exact H3 |]. split; [exact H4 |].
    split; [lia |]. split; [lia |]. split.
    + intros k. unfold usage_count. rewrite H5.
      destruct (decide (pid = k)) as [<- | Hne].
      * rewrite lookup_insert_eq. cbn [default]. unfold id. split; [lia |].
        pose proof (select_from_registered _ _ _ _ Hsel) as Hreg.
        apply Forall_cons in Hreg as [[a Ha] _]. cbn [fst] in Ha.
        destruct (process_query_selected rt q ctx0 st pid conf secondary a Hsel Ha)
          as (enh & st2 & Hpass & Heq).
        assert (Hst2 : (S (requests_of st pid) ≤ requests_of st2 pid)%nat).
        { pose proof (requests_of_after_process rt (count_query_in (tick st)) pid a q
                        (context_or_empty ctx0) pid Ha) as Hr.
          destruct (decide (pid = pid)); [| congruence].
          change (requests_of (count_query_in (tick st)) pid)
            with (requests_of st pid) in Hr.
          destruct (_ && _).
          - destruct Hpass as (_ & _ & _ & _ & P5 & _). specialize (P5 pid). lia.
          - destruct Hpass as [_ ->]. lia. }
        rewrite Heq. cbn [snd]. unfold settle, requests_of in Hst2 |- *.
        destruct (truthy (dict_get _ "success")); cbn in Hst2 |- *; lia.
      * rewrite lookup_insert_ne by exact Hne. specialize (Hmono k). lia.
    + intros k n. destruct (decide (pid = k)) as [<- | Hne].
      * rewrite lookup_insert_eq. intros [= <-]. right. lia.
      * rewrite lookup_insert_ne by exact Hne. now left.
  - revert Hmono. rewrite (process_query_raise rt q ctx0 st e Hsel).
    intros Hmono. cbn in Hmono |- *.
    split; [reflexivity |]. split; [lia |]. split; [lia |]. split; [lia |].
    split; [lia |]. split.
    + intros k. specialize (Hmono k). unfold usage_count. cbn [agent_usage]. lia.
    + intros k n Hn. now left.
Qed.

Lemma run_queries_counters queries : ∀ st,
  let s := orchestrator.stats (self st) in
  let st' := run_queries rt st queries in
  let s' := orchestrator.stats (self st') in
  total_queries s' = (length queries + total_queries s)%nat
  ∧ (orchestrator.successful_responses s ≤ orchestrator.successful_responses s')%nat
  ∧ (orchestrator.successful_responses s' + orchestrator.failed_responses s'
     ≤ length queries
       + (orchestrator.successful_responses s + orchestrator.failed_responses s))%nat
  ∧ (usage_total (agent_usage s')
       + (orchestrator.successful_responses s + orchestrator.failed_responses s)
     ≤ usage_total (agent_usage s)
       + (orchestrator.successful_responses s' + orchestrator.failed_responses s'))%nat
  ∧ (∀ k, (usage_count s' k + requests_of st k
           ≤ usage_count s k + requests_of st' k)%nat)
  ∧ (∀ k n, agent_usage s' !! k = Some n →
            agent_usage s !! k = Some n ∨ (1 ≤ n)%nat).
Proof.
  induction queries as [| [q ctx0] rest IH]; intros st.
  - cbn. repeat split; try lia. intros Hn. now left.
  - cbn [run_queries length].
    pose proof (process_query_counters q ctx0 st) as H. cbv zeta in H.
    destruct H as (A1 & A2 & A3 & A4 & A5 & A6 & A7).
    specialize (IH (process_query rt q ctx0 st).2). cbv zeta in IH.
    destruct IH as (B1 & B2 & B4 & B5 & B6 & B7). cbv zeta.
    split; [lia |]. split; [lia |]. split; [lia |]. split; [lia |]. split.
    + intros k. specialize (A6 k). specialize (B6 k). lia.
    + intros k n Hn. destruct (B7 k n Hn) as [H | H]; [| now right].
      exact (A7 k n H).
Qed.

(** X9. The orchestrator's counters after any run of requests on an
    orchestrator as [__init__] leaves it: [total_queries] is the number of
    requests, the successes and failures together never exceed it, and the
    usage counts of all agents together never exceed the successes and
    failures. *)
Theorem counters_are_bounded_by_queries reg t queries :
  let s := orchestrator.stats (self (run_queries rt (initial_state reg t) queries)) in
  total_queries s = length queries
  ∧ (orchestrator.successful_responses s + orchestrator.failed_responses s
     ≤ total_queries s)%nat
  ∧ (usage_total (agent_usage s)
     ≤ orchestrator.successful_responses s + orchestrator.failed_responses s)%nat.
Proof.
  intros s.
  pose proof (run_queries_counters queries (initial_state reg t)) as H.
  cbv zeta in H. fold s in H. destruct H as (H1 & _ & H3 & H4 & _).
  cbn in H1, H3, H4. change (usage_total ∅) with 0%nat in H4.
  split; [lia |]. split; lia.
Qed.

Lemma success_rate_range (s : Stats) :
  (orchestrator.successful_responses s ≤ total_queries s)%nat →
  (0 <= success_rate s)%Q ∧ (success_rate s <= 100)%Q.
Proof.
  intros Hle. unfold success_rate.
  destruct (0 <? total_queries s)%nat eqn:Hpos; [| split; discriminate].
  apply Nat.ltb_lt in Hpos.
  assert (Ht : (0 < inject_Z (Z.of_nat (total_queries s)))%Q).
  { change 0%Q with (inject_Z 0). rewrite <- Zlt_Qlt. lia. }
  assert (Hs : (0 <= inject_Z (Z.of_nat (orchestrator.successful_responses s)))%Q).
  { change 0%Q with (inject_Z 0). rewrite <- Zle_Qle. lia. }
  assert (Hst : (inject_Z (Z.of_nat (orchestrator.successful_responses s))
                 <= inject_Z (Z.of_nat (total_queries s)))%Q).
  { rewrite <- Zle_Qle. lia. }
  split.
  - apply Qmult_le_0_compat; [| discriminate].
    apply Qle_shift_div_l; [exact Ht |]. now rewrite Qmult_0_l.
  - apply Qle_trans with (1 * 100)%Q; [| unfold Qle; cbn; lia].
    apply Qmult_le_compat_r; [| discriminate].
    apply Qle_shift_div_r; [exact Ht |]. now rewrite Qmult_1_l.
Qed.

(** X10. The success rate reported by [get_stats] is 0 before any request
    (nothing is divided by zero) and lies between 0 and 100 after any run
    of requests on an orchestrator as [__init__] leaves it. *)
Theorem success_rate_is_a_percentage reg t queries :
  let o := self (run_queries rt (initial_state reg t) queries) in
  get_stats o !! "success_rate" = Some (VNum (success_rate (orchestrator.stats o)))
  ∧ (0 <= success_rate (orchestrator.stats o))%Q
  ∧ (success_rate (orchestrator.stats o) <= 100)%Q
  ∧ (queries = [] → success_rate (orchestrator.stats o) = 0%Q).
Proof.
  intros o. split; [reflexivity |].
  pose proof (run_queries_counters queries (initial_state reg t)) as H.
  cbv zeta in H. fold o in H. destruct H as (_ & _ & H3 & _). cbn in H3.
  destruct (success_rate_range (orchestrator.stats o)) as [H0 H100].
  - pose proof (run_queries_counters queries (initial_state reg t)) as H.
    cbv zeta in H. fold o in H. destruct H as (H1 & _). cbn in H1. lia.
  - split; [exact H0 |]. split; [exact H100 |]. intros ->. reflexivity.
Qed.

(** X11. After any run of requests on an orchestrator as [__init__] leaves
    it, every entry of [agent_usage] names a registered agent, is at least
    1, and does not exceed the number of times [process] ran on that agent
    during the run. *)
Theorem usage_names_registered_agents reg t queries k n :
  let st := initial_state reg t in
  let st' := run_queries rt st queries in
  agent_usage (orchestrator.stats (self st')) !! k = Some n →
  (1 ≤ n)%nat
  ∧ (n + requests_of st k ≤ requests_of st' k)%nat
  ∧ is_Some (get_agent (agents (self st')) k).
Proof.
  intros st st' Hk.
  pose proof (run_queries_counters queries st) as H.
  cbv zeta in H. fold st' in H. destruct H as (_ & _ & _ & _ & H5 & H6).
  destruct (H6 k n Hk) as [H | Hn]; [cbn in H; rewrite lookup_empty in H; discriminate |].
  specialize (H5 k). unfold usage_count in H5. rewrite Hk in H5.
  cbn in H5. rewrite lookup_empty in H5. cbn in H5.
  split; [exact Hn |]. split; [lia |].
  unfold requests_of in H5 at 2.
  destruct (get_agent (agents (self st')) k); [eauto | lia].
Qed.
End counters.

(** ** Switching modes *)

Section administration.
Import base_agent orchestrator orchestrator_admin.
Context (rt : Runtime).

Lemma get_agent_keys reg k a : get_agent reg k = Some a → k ∈ reg.*1.
Proof.
  induction reg as [| [k0 a0] rest IH]; cbn; [discriminate |].
  destruct (String.eqb k0 k) eqn:E.
  - apply String.eqb_eq in E as ->. intros _. apply list_elem_of_here.
  - intros H. apply list_elem_of_further, IH, H.
Qed.

Lemma put_agent_keys reg k a' : (put_agent reg k a').*1 = reg.*1.
Proof.
  induction reg as [| [k0 a0] rest IH]; cbn; [reflexivity |].
  destruct (String.eqb k0 k); cbn; [reflexivity | now rewrite IH].
Qed.

Lemma set_mode_at_keys mode reg id : (set_mode_at mode reg id).*1 = reg.*1.
Proof.
  unfold set_mode_at. destruct (get_agent reg id); [apply put_agent_keys | reflexivity].
Qed.

Lemma set_mode_at_get mode reg id k :
  get_agent (set_mode_at mode reg id) k
  = if decide (id = k)
    then (λ a, base_agent.set_mode a mode) <$> get_agent reg k
    else get_agent reg k.
Proof.
  unfold set_mode_at.
  destruct (get_agent reg id) as [a |] eqn:Ha, (decide (id = k)) as [<- | Hne].
  - now rewrite (get_agent_put_eq _ _ _ _ Ha), Ha.
  - now apply get_agent_put_ne.
  - now rewrite Ha.
  - reflexivity.
Qed.

Lemma set_mode_loop_keys mode targets : ∀ reg,
  (foldl (set_mode_at mode) reg targets).*1 = reg.*1.
Proof.
  induction targets as [| id rest IH]; intros reg; cbn; [reflexivity |].
  now rewrite IH, set_mode_at_keys.
Qed.

Lemma set_mode_loop_get mode targets k : ∀ reg,
  get_agent (foldl (set_mode_at mode) reg targets) k
  = if decide (k ∈ targets)
    then (λ a, base_agent.set_mode a mode) <$> get_agent reg k
    else get_agent reg k.
Proof.
  induction targets as [| id rest IH]; intros reg; cbn [foldl].
  - destruct (decide (k ∈ [])) as [H | _]; [| reflexivity].
    now apply not_elem_of_nil in H.
  - rewrite IH, set_mode_at_get.
    destruct (decide (k ∈ rest)) as [Hr | Hr], (decide (id = k)) as [He | Hne],
             (decide (k ∈ id :: rest)) as [Hc | Hc];
      try reflexivity.
    + now destruct (get_agent reg k).
    + exfalso. apply Hc. now right.
    + exfalso. apply Hc. now right.
    + exfalso. apply Hc. subst. now left.
    + apply elem_of_cons in Hc as [-> | Hc]; [now destruct Hne | now destruct Hr].
Qed.

(** X12. [set_mode mode agent_ids] switches the registered agents it
    addresses and nothing else: every registered agent when [agent_ids] is
    missing or empty, the listed ones otherwise.  Ids that are not
    registered are ignored, no agent is added or removed, the other agents
    and the orchestrator's statistics are left as they were. *)
Theorem set_mode_switches_targets_only mode agent_ids o :
  let o' := orchestrator_admin.set_mode mode agent_ids o in
  orchestrator.stats o' = orchestrator.stats o
  ∧ (agents o').*1 = (agents o).*1
  ∧ ∀ k,
      (targeted agent_ids k →
       get_agent (agents o') k
       = (λ a, base_agent.set_mode a mode) <$> get_agent (agents o) k)
      ∧ (¬ targeted agent_ids k →
         get_agent (agents o') k = get_agent (agents o) k).
Proof.
  intros o'. split; [reflexivity |].
  split; [apply set_mode_loop_keys |].
  intros k. unfold o', orchestrator_admin.set_mode. cbn [agents].
  rewrite set_mode_loop_get.
  destruct agent_ids as [[| id ids] |]; cbn [targeted].
  - split; [intros _ | tauto].
    destruct (decide (k ∈ (agents o).*1)) as [_ | Hk]; [reflexivity |].
    destruct (get_agent (agents o) k) as [a |] eqn:Ha; [| reflexivity].
    now apply get_agent_keys in Ha.
  - destruct (decide (k ∈ id :: ids)); split; tauto.
  - split; [intros _ | tauto].
    destruct (decide (k ∈ (agents o).*1)) as [_ | Hk]; [reflexivity |].
    destruct (get_agent (agents o) k) as [a |] eqn:Ha; [| reflexivity].
    now apply get_agent_keys in Ha.
Qed.

Lemma offline_resolves_offline a ctx :
  current_mode a = OFFLINE → resolve_mode a ctx None = OFFLINE.
Proof. unfold resolve_mode. intros ->. reflexivity. Qed.

(** Steps on a registry whose agents are all in offline mode. *)
Lemma offline_registry_steps reg reg' :
  rtc (registry_step rt) reg reg' →
  (∀ k a, get_agent reg k = Some a → current_mode a = OFFLINE) →
  ∀ k,
    (λ a, online_requests (base_agent.stats a)) <$> get_agent reg' k
    = (λ a, online_requests (base_agent.stats a)) <$> get_agent reg k
    ∧ ∀ a', get_agent reg' k = Some a' → current_mode a' = OFFLINE.
Proof.
  induction 1 as [reg | reg reg1 reg2 Hstep _ IH]; intros Hoff k.
  - split; [reflexivity | apply Hoff].
  - destruct Hstep as [reg k0 a0 q ctx t Ha0].
    pose proof (Hoff _ _ Ha0) as Hoff0.
    pose proof (process_path_counts rt a0 q (Some ctx) None t) as Hc.
    cbv zeta in Hc. destruct Hc as [_ Hon].
    rewrite (offline_resolves_offline _ _ Hoff0) in Hon. cbn in Hon.
    destruct (IH) with (k := k) as [Hn Hm].
    + intros k1 a1. destruct (decide (k0 = k1)) as [<- | Hne].
      * rewrite (get_agent_put_eq _ _ _ _ Ha0). intros [= <-].
        rewrite process_keeps_mode. exact Hoff0.
      * rewrite get_agent_put_ne by exact Hne. apply Hoff.
    + split; [| exact Hm]. rewrite Hn.
      destruct (decide (k0 = k)) as [<- | Hne].
      * rewrite (get_agent_put_eq _ _ _ _ Ha0), Ha0. cbn. now rewrite Hon.
      * now rewrite get_agent_put_ne.
Qed.

Lemma set_mode_all_offline o k a :
  get_agent (agents (orchestrator_admin.set_mode OFFLINE None o)) k = Some a →
  current_mode a = OFFLINE.
Proof.
  unfold orchestrator_admin.set_mode. cbn [agents]. rewrite set_mode_loop_get.
  destruct (decide (k ∈ (agents o).*1)) as [_ | Hk].
  - destruct (get_agent (agents o) k); cbn; [| discriminate]. now intros [= <-].
  - intros Ha. now apply get_agent_keys in Ha.
Qed.

(** The [mode] field of the response to a request served by a registry
    whose agents are all in offline mode. *)
Lemma offline_registry_response q ctx0 st :
  (∀ k a, get_agent (agents (self st)) k = Some a → current_mode a = OFFLINE) →
  let response := (process_query rt q ctx0 st).1 in
  response !! "mode" = None ∨ response !! "mode" = Some (VStr "offline").
Proof.
  intros Hoff.
  destruct (select_from (agents (self st)) q (context_or_empty ctx0))
    as [[| [pid conf] secondary] | e] eqn:Hsel.
  - destruct (get_agent (agents (self st)) "offline_knowledge") as [fb |] eqn:Hfb.
    + rewrite (process_query_fallback rt q ctx0 st fb Hsel Hfb). cbn [fst]. right.
      rewrite lookup_insert_ne by discriminate.
      destruct (process_envelope_fields rt fb q (Some (context_or_empty ctx0)) None
                  (ticks (count_query_in (tick st)))) as [(_ & _ & Hm & _) _].
      rewrite Hm, (offline_resolves_offline _ _ (Hoff _ _ Hfb)). reflexivity.
    + rewrite (process_query_no_fallback rt q ctx0 st Hsel Hfb). now left.
  - pose proof (select_from_registered _ _ _ _ Hsel) as Hreg.
    apply Forall_cons in Hreg as [[a Ha] _]. cbn [fst] in Ha.
    destruct (process_query_selected rt q ctx0 st pid conf secondary a Hsel Ha)
      as (enh & st2 & _ & ->).
    cbn [fst]. right. rewrite lookup_insert_ne by discriminate.
    rewrite attach_lookup_ne by discriminate.
    destruct (process_envelope_fields rt a q (Some (context_or_empty ctx0)) None
                (ticks (count_query_in (tick st)))) as [(_ & _ & Hm & _) _].
    rewrite Hm, (offline_resolves_offline _ _ (Hoff _ _ Ha)). reflexivity.
  - rewrite (process_query_raise rt q ctx0 st e Hsel). now left.
Qed.

(** X13. Once [set_mode] has put every agent in offline mode, nothing is
    served online, whatever the requests' contexts say about connectivity:
    after any run of requests the response to a further request carries the
    mode ["offline"] or, when no agent produced it, none; and no agent's
    count of online requests has moved. *)
Theorem offline_mode_is_never_left o t queries q ctx0 :
  let st := {| self := orchestrator_admin.set_mode OFFLINE None o; ticks := t |} in
  let out := process_query rt q ctx0 (run_queries rt st queries) in
  (out.1 !! "mode" = None ∨ out.1 !! "mode" = Some (VStr "offline"))
  ∧ ∀ k, online_requests_of out.2 k = online_requests_of st k
         ∧ ∀ a, get_agent (agents (self out.2)) k = Some a → current_mode a = OFFLINE.
Proof.
  intros st out.
  assert (Hoff : ∀ k a, get_agent (agents (self st)) k = Some a →
                        current_mode a = OFFLINE)
    by exact (set_mode_all_offline o).
  pose proof (run_queries_processes_only rt queries st) as Hrun.
  pose proof (process_query_processes_only rt q ctx0 (run_queries rt st queries))
    as Hq. fold out in Hq.
  split.
  - apply offline_registry_response. intros k a.
    exact (proj2 (offline_registry_steps _ _ Hrun Hoff k) a).
  - intros k.
    destruct (offline_registry_steps _ _ (processes_only_trans rt _ _ _ Hrun Hq) Hoff k)
      as [Hn Hm].
    split; [| exact Hm]. unfold online_requests_of.
    destruct (get_agent (agents (self out.2)) k),
             (get_agent (agents (self st)) k); cbn in Hn; congruence.
Qed.
End administration.

(** ** Reports *)

Section reports.
Import base_agent orchestrator orchestrator_admin.
Context (rt : Runtime).

Lemma listed_usage_get_stats o :
  listed_usage (get_stats o)
  = (λ e : string * Agent, Qnat (usage_count (orchestrator.stats o) e.1)) <$> agents o.
Proof.
  unfold listed_usage, get_stats. rewrite lookup_insert_eq.
  induction (agents o) as [| e rest IH]; [reflexivity |].
  cbn [fmap list_fmap omap list_omap]. rewrite lookup_insert_eq.
  cbn [fmap list_fmap] in IH. now rewrite IH.
Qed.

Lemma Qsum_Qnat {A} (f : A → nat) l :
  (Qsum ((λ x, Qnat (f x)) <$> l) == Qnat (sum_list (f <$> l)))%Q.
Proof.
  induction l as [| x l IH]; [reflexivity |].
  cbn [fmap list_fmap sum_list sum_list_with]. unfold Qsum in *. cbn [foldr].
  change (list_fmap A Q (λ x, Qnat (f x)) l) with ((λ x, Qnat (f x)) <$> l).
  rewrite IH. unfold Qnat. rewrite Nat2Z.inj_add, inject_Z_plus. reflexivity.
Qed.

Lemma sum_usage_insert_notin (m : gmap string nat) i x keys :
  i ∉ keys →
  sum_list ((λ k, default 0%nat (<[i := x]> m !! k)) <$> keys)
  = sum_list ((λ k, default 0%nat (m !! k)) <$> keys).
Proof.
  induction keys as [| k ks IH]; [reflexivity |].
  intros Hi. apply not_elem_of_cons in Hi as [Hne Hi]. cbn.
  rewrite lookup_insert_ne by congruence. now rewrite IH.
Qed.

Lemma sum_usage_insert_in (m : gmap string nat) i x keys :
  NoDup keys → i ∈ keys → m !! i = None →
  sum_list ((λ k, default 0%nat (<[i := x]> m !! k)) <$> keys)
  = (x + sum_list ((λ k, default 0%nat (m !! k)) <$> keys))%nat.
Proof.
  intros Hnd. induction Hnd as [| k ks Hk Hnd IH]; intros Hi Hm.
  - now apply elem_of_nil in Hi.
  - cbn. destruct (decide (k = i)) as [-> | Hne].
    + rewrite lookup_insert_eq, Hm, sum_usage_insert_notin by exact Hk.
      reflexivity.
    + rewrite lookup_insert_ne by congruence.
      apply elem_of_cons in Hi as [-> | Hi]; [now destruct Hne |].
      rewrite (IH Hi Hm). lia.
Qed.

(** The counts under the registered keys add up to all the usage there is
    when nothing is recorded under another key. *)
Lemma sum_usage_total keys : NoDup keys → ∀ usage : gmap string nat,
  (∀ k, is_Some (usage !! k) → k ∈ keys) →
  sum_list ((λ k, default 0%nat (usage !! k)) <$> keys) = usage_total usage.
Proof.
  intros Hnd usage. induction usage as [| i x m Hm IH] using map_ind; intros Hdom.
  - unfold usage_total. rewrite map_fold_empty.
    induction keys as [| k ks IHk]; [reflexivity |].
    cbn. rewrite lookup_empty. cbn. apply IHk.
    + now apply NoDup_cons in Hnd as [_ Hnd].
    + intros k0 [n Hn]. now rewrite lookup_empty in Hn.
  - rewrite sum_usage_insert_in; [| exact Hnd | | exact Hm].
    + rewrite IH.
      * unfold usage_total.
        rewrite (map_fold_insert_L (λ (_ : string) (n acc : nat), (n + acc)%nat)
                   0%nat i x m
                   (λ j1 j2 z1 z2 y _ _ _, usage_total_comm j1 j2 z1 z2 y) Hm).
        reflexivity.
      * intros k [n Hn]. apply Hdom. destruct (decide (i = k)) as [-> | Hne].
        -- rewrite lookup_insert_eq. eauto.
        -- rewrite lookup_insert_ne by exact Hne. eauto.
    + apply Hdom. rewrite lookup_insert_eq. eauto.
Qed.

(** X25. A report of [get_stats] accounts for all the usage recorded:
    after any run of requests on a newly initialised orchestrator whose
    registry has distinct keys, the report lists one usage count for each
    registered agent, and these counts add up to the total of
    [agent_usage], hence to no more than the successes and failures
    together. *)
Theorem get_stats_lists_all_usage reg t queries :
  NoDup reg.*1 →
  let o := self (run_queries rt (initial_state reg t) queries) in
  length (listed_usage (get_stats o)) = length reg
  ∧ (Qsum (listed_usage (get_stats o))
     == Qnat (usage_total (agent_usage (orchestrator.stats o))))%Q
  ∧ (Qsum (listed_usage (get_stats o))
     <= Qnat (orchestrator.successful_responses (orchestrator.stats o)
              + orchestrator.failed_responses (orchestrator.stats o)))%Q.
Proof.
  intros Hnd o.
  assert (Hkeys : (agents o).*1 = reg.*1).
  { apply erase_stats_keys.
    exact (run_queries_erase_stats rt queries (initial_state reg t)). }
  pose proof (run_queries_counters rt queries (initial_state reg t)) as H.
  cbv zeta in H. fold o in H. destruct H as (_ & _ & _ & H4 & H5 & H6).
  cbn in H4. change (usage_total ∅) with 0%nat in H4.
  assert (Hsum : (Qsum (listed_usage (get_stats o))
                  == Qnat (usage_total (agent_usage (orchestrator.stats o))))%Q).
  { rewrite listed_usage_get_stats.
    rewrite (Qsum_Qnat (λ e : string * Agent, usage_count (orchestrator.stats o) e.1)).
    rewrite <- (sum_usage_total (agents o).*1).
    - rewrite <- list_fmap_compose. reflexivity.
    - now rewrite Hkeys.
    - intros k [n Hn]. destruct (H6 k n Hn) as [Hinit | Hpos].
      + cbn in Hinit. now rewrite lookup_empty in Hinit.
      + specialize (H5 k). unfold usage_count in H5. rewrite Hn in H5.
        cbn in H5. rewrite lookup_empty in H5. cbn in H5.
        unfold requests_of in H5 at 2. fold o in H5.
        destruct (get_agent (agents o) k) as [a |] eqn:Ha; [| lia].
        exact (get_agent_keys _ _ _ Ha). }
  split; [| split; [exact Hsum |]].
  - rewrite listed_usage_get_stats, length_fmap.
    rewrite <- (length_fmap fst (agents o)), <- (length_fmap fst reg).
    now rewrite Hkeys.
  - rewrite Hsum. unfold Qnat. rewrite <- Zle_Qle. lia.
Qed.
End reports.

(** ** offline_knowledge_agent.py: the execution paths *)

Section knowledge_paths.
Import base_agent offline_knowledge_agent offline_knowledge_paths.
Context (rt : Runtime).

Lemma and_then_Ok {A B} (r : Outcome A) (k : A → Outcome B) b :
  and_then r k = Ok b → ∃ a, r = Ok a ∧ k a = Ok b.
Proof. destruct r as [a | e]; cbn; [eauto | discriminate]. Qed.

Lemma dict_item_Ok d k v : dict_item d k = Ok v → d !! k = Some v.
Proof. unfold dict_item. destruct (d !! k); [now intros [= ->] | discriminate]. Qed.

Lemma alternatives_length faqs : ∀ vs,
  alternatives faqs = Ok vs → length vs = length faqs.
Proof.
  induction faqs as [| faq rest IH]; intros vs; cbn [alternatives].
  - now intros [= <-].
  - intros H. apply and_then_Ok in H as (v & _ & H).
    apply and_then_Ok in H as (vs' & Hvs & [= <-]).
    cbn. now rewrite (IH _ Hvs).
Qed.

(** What [_handle_app_query] returns when it returns. *)
Lemma handle_app_query_Ok kb q language d :
  _handle_app_query kb q language = Ok d →
  ∃ faqs, search_app_faqs kb q 3 language = Ok faqs
    ∧ match faqs with
      | [] => d !! "success" = Some (VBool false)
              ∧ d !! "alternative_results" = None
      | top_faq :: _ =>
          d !! "success" = Some (VBool true)
          ∧ is_Some (top_faq !! "answer")
          ∧ d !! "answer" = top_faq !! "answer"
          ∧ d !! "question" = top_faq !! "question"
          ∧ d !! "source" = Some (VStr "offline_faq")
          ∧ ∃ l, d !! "alternative_results" = Some (VList l)
                 ∧ length l = (length faqs - 1) `min` 2
      end.
Proof.
  unfold _handle_app_query. intros H.
  apply and_then_Ok in H as (faqs & Hs & H). exists faqs. split; [exact Hs |].
  destruct faqs as [| top_faq rest].
  - injection H as <-. split; reflexivity.
  - apply and_then_Ok in H as (answer & Ha & H).
    apply and_then_Ok in H as (question & Hq & H).
    apply and_then_Ok in H as (alts & Halts & [= <-]).
    apply dict_item_Ok in Ha, Hq. rewrite Ha, Hq.
    repeat split; try reflexivity; [eauto |].
    exists alts. split; [reflexivity |].
    destruct rest as [| second rest].
    + change (Ok [] = Ok alts) in Halts. now injection Halts as <-.
    + change (alternatives (take 2 (second :: rest)) = Ok alts) in Halts.
      apply alternatives_length in Halts. rewrite Halts, length_take.
      cbn [length]. lia.
Qed.

Lemma is_app_query_can_handle q ctx :
  offline_knowledge_agent.can_handle rt q ctx
  = if _is_app_query rt q then Ok (9 # 10)%Q
    else if existsb (λ kw, contains kw (str_lower rt q)) education_keywords
         then Ok (7 # 10)%Q
         else Ok (3 # 10)%Q.
Proof. reflexivity. Qed.

(** X14. The offline knowledge agent reports success only for a query
    about the app that the knowledge base matched: it then holds a
    knowledge base, its own confidence for the query is 0.9, the search
    returned at least one FAQ, and the answer and question given are those
    of the first one. *)
Theorem knowledge_success_is_a_faq_hit knowledge_base q context d :
  process_offline rt knowledge_base q context = Ok d →
  truthy (dict_get d "success") = true →
  ∃ kb top_faq rest,
    knowledge_base = Some kb
    ∧ offline_knowledge_agent.can_handle rt q (context_or_empty context)
      = Ok (9 # 10)%Q
    ∧ search_app_faqs kb q 3
        (default (VStr "en") (context_or_empty context !! "language"))
      = Ok (top_faq :: rest)
    ∧ is_Some (d !! "answer")
    ∧ d !! "answer" = top_faq !! "answer"
    ∧ d !! "question" = top_faq !! "question"
    ∧ d !! "source" = Some (VStr "offline_faq").
Proof.
  unfold process_offline. destruct knowledge_base as [kb |].
  - rewrite is_app_query_can_handle.
    destruct (_is_app_query rt q).
    + intros H Hs. apply handle_app_query_Ok in H as (faqs & Hf & H).
      destruct faqs as [| top_faq rest].
      * destruct H as [H _]. unfold dict_get in Hs. rewrite H in Hs. discriminate.
      * destruct H as (_ & Ha & Hans & Hq & Hsrc & _).
        exists kb, top_faq, rest. rewrite Hans. tauto.
    + intros H Hs. apply and_then_Ok in H as (m & _ & [= <-]). discriminate.
  - intros [= <-]. discriminate.
Qed.

(** X15. A query that names no app keyword is never answered from the
    knowledge base: whatever the knowledge base holds, the result is the
    same, and when it is a response it reports failure, asks for an
    internet connection and carries no answer. *)
Theorem other_queries_need_internet kb kb' q context :
  _is_app_query rt q = false →
  process_offline rt (Some kb) q context = process_offline rt (Some kb') q context
  ∧ process_online rt (Some kb) q context = process_offline rt (Some kb') q context
  ∧ ∀ d, process_offline rt (Some kb) q context = Ok d →
         d !! "success" = Some (VBool false)
         ∧ d !! "requires_internet" = Some (VBool true)
         ∧ d !! "query_type" = Some (VStr "educational")
         ∧ d !! "answer" = None.
Proof.
  intros Happ. unfold process_online, process_offline. rewrite Happ.
  split; [reflexivity |]. split; [reflexivity |].
  intros d H. apply and_then_Ok in H as (m & _ & [= <-]).
  repeat split.
Qed.

(** X16. A successful answer lists at most two alternatives: as many as
    the search returned beyond the first FAQ, and never more than two. *)
Theorem knowledge_alternatives_are_bounded knowledge_base q context d v :
  process_offline rt knowledge_base q context = Ok d →
  d !! "alternative_results" = Some v →
  ∃ kb faqs l,
    knowledge_base = Some kb
    ∧ search_app_faqs kb q 3
        (default (VStr "en") (context_or_empty context !! "language"))
      = Ok faqs
    ∧ v = VList l
    ∧ length l = (length faqs - 1) `min` 2
    ∧ (length l ≤ 2)%nat.
Proof.
  unfold process_offline. destruct knowledge_base as [kb |].
  - destruct (_is_app_query rt q).
    + intros H Hv. apply handle_app_query_Ok in H as (faqs & Hf & H).
      destruct faqs as [| top_faq rest].
      * destruct H as [_ H]. congruence.
      * destruct H as (_ & _ & _ & _ & _ & l & Hl & Hlen).
        exists kb, (top_faq :: rest), l. rewrite Hl in Hv. injection Hv as <-.
        repeat split; [exact Hf | exact Hlen | lia].
    + intros H Hv. apply and_then_Ok in H as (m & _ & [= <-]). discriminate.
  - intros [= <-]. discriminate.
Qed.

Lemma knowledge_run_handler knowledge_base s m q context :
  run_handler (set_stats (agent rt knowledge_base) s) m q context
  = process_offline rt knowledge_base q context.
Proof. unfold run_handler. destruct (decide (m = OFFLINE)); reflexivity. Qed.

(** X17. The offline knowledge agent answers alike on both paths: for the
    same query, context and clock, [process] gives in any mode the same
    envelope but for the [mode] field, whatever the agent's statistics. *)
Theorem knowledge_modes_agree knowledge_base s q context mode mode' t :
  let a := set_stats (agent rt knowledge_base) s in
  delete "mode" (process rt a q context mode t).1.1
  = delete "mode" (process rt a q context mode' t).1.1.
Proof.
  intros a.
  destruct (process_offline rt knowledge_base q context) as [d | e] eqn:Hd.
  - rewrite (process_ok rt a q context mode t d)
      by (unfold a; now rewrite knowledge_run_handler).
    rewrite (process_ok rt a q context mode' t d)
      by (unfold a; now rewrite knowledge_run_handler).
    cbn [fst].
    rewrite !(delete_insert_ne _ "mode" "response_time_ms") by discriminate.
    rewrite !(delete_insert_ne _ "mode" "timestamp") by discriminate.
    now rewrite !delete_insert_eq.
  - rewrite (process_raise rt a q context mode t e)
      by (unfold a; now rewrite knowledge_run_handler).
    rewrite (process_raise rt a q context mode' t e)
      by (unfold a; now rewrite knowledge_run_handler).
    cbn [fst]. unfold agent_failure.
    rewrite !(delete_insert_ne _ "mode" "timestamp") by discriminate.
    now rewrite !delete_insert_eq.
Qed.
(** X26. A FAQ row without an answer does not crash the agent: when the
    search for an app query returns such a row first, the path raises the
    [KeyError], and [process] turns it into an envelope with [success]
    false and the error ['answer'], counting one failed response. *)
Theorem malformed_faq_is_reported kb s q context mode t top_faq rest :
  _is_app_query rt q = true →
  search_app_faqs kb q 3
    (default (VStr "en") (context_or_empty context !! "language"))
  = Ok (top_faq :: rest) →
  top_faq !! "answer" = None →
  let a := set_stats (agent rt (Some kb)) s in
  let out := process rt a q context mode t in
  process_offline rt (Some kb) q context = Raise "'answer'"
  ∧ out.1.1 !! "success" = Some (VBool false)
  ∧ out.1.1 !! "error" = Some (VStr "'answer'")
  ∧ base_agent.failed_responses (stats out.1.2) = S (base_agent.failed_responses s)
  ∧ base_agent.successful_responses (stats out.1.2) = base_agent.successful_responses s.
Proof.
  intros Happ Hsearch Hrow a out.
  assert (Hraise : process_offline rt (Some kb) q context = Raise "'answer'").
  { unfold process_offline. rewrite Happ. unfold _handle_app_query.
    rewrite Hsearch. cbn [and_then]. unfold dict_item at 1. now rewrite Hrow. }
  split; [exact Hraise |].
  unfold out. rewrite (process_raise rt a q context mode t "'answer'")
    by (unfold a; now rewrite knowledge_run_handler).
  cbn. repeat split.
Qed.
End knowledge_paths.

(** ** One request on a selected agent *)

Section selected_request.
Import base_agent orchestrator.
Context (rt : Runtime).

(** The outcome counted is that of the response returned. *)
Lemma process_query_selected_outcome q ctx0 st pid conf secondary :
  select_from (agents (self st)) q (context_or_empty ctx0)
    = Ok ((pid, conf) :: secondary) →
  let s := orchestrator.stats (self st) in
  let out := process_query rt q ctx0 st in
  let s' := orchestrator.stats (self out.2) in
  if truthy (dict_get out.1 "success")
  then orchestrator.successful_responses s' = S (orchestrator.successful_responses s)
       ∧ orchestrator.failed_responses s' = orchestrator.failed_responses s
  else orchestrator.successful_responses s' = orchestrator.successful_responses s
       ∧ orchestrator.failed_responses s' = S (orchestrator.failed_responses s).
Proof.
  intros Hsel s out s'.
  pose proof (select_from_registered _ _ _ _ Hsel) as Hreg.
  apply Forall_cons in Hreg as [[a Ha] _]. cbn [fst] in Ha.
  destruct (process_query_selected rt q ctx0 st pid conf secondary a Hsel Ha)
    as (enh & st2 & Hpass & Heq).
  assert (Hst : orchestrator.stats (self st2)
                = orchestrator.stats (self (count_query_in (tick st)))).
  { destruct (_ && _); [destruct Hpass as [H _]; exact H |].
    destruct Hpass as [_ ->]. reflexivity. }
  unfold s', out. rewrite Heq. cbn [fst snd]. unfold dict_get at 1.
  rewrite lookup_insert_ne by discriminate.
  rewrite attach_lookup_ne by discriminate.
  fold (dict_get (process rt a q (Some (context_or_empty ctx0)) None
                    (ticks (count_query_in (tick st)))).1.1 "success").
  unfold settle.
  destruct (truthy (dict_get _ "success"));
    cbn [_update_agent_usage snd tick self with_stats orchestrator.stats
         count_success_in count_failure_in total_queries agent_usage
         orchestrator.successful_responses orchestrator.failed_responses];
    rewrite Hst; subst s; cbn; split; reflexivity.
Qed.

Lemma score_agents_keys reg q ctx : ∀ scores,
  score_agents reg q ctx = Ok scores →
  (λ x : string * Q * Z, x.1.1) <$> scores `sublist_of` reg.*1.
Proof.
  induction reg as [| [k a] rest IH]; intros scores; cbn [score_agents].
  - intros [= <-]. constructor.
  - destruct (can_handle a q ctx) as [c | e]; [| discriminate].
    destruct (score_agents rest q ctx) as [scores0 | e]; [| discriminate].
    specialize (IH scores0 eq_refl).
    destruct (Qltb 0 c); intros [= <-]; cbn; now constructor.
Qed.

(** Selected agents are distinct when the registry's keys are. *)
Lemma select_from_NoDup reg q ctx selected :
  NoDup reg.*1 → select_from reg q ctx = Ok selected → NoDup selected.*1.
Proof.
  intros Hnd. unfold select_from.
  destruct (score_agents reg q ctx) as [scores | e] eqn:Hs; [| discriminate].
  intros [= <-]. rewrite <- list_fmap_compose.
  change (fst ∘ (λ x : string * Q * Z, (x.1.1, x.1.2)))
    with (λ x : string * Q * Z, x.1.1).
  apply (sublist_NoDup _ ((λ x : string * Q * Z, x.1.1) <$> sort_scores scores)).
  - rewrite (sort_scores_perm scores).
    exact (sublist_NoDup _ _ Hnd (score_agents_keys _ _ _ _ Hs)).
  - apply fmap_sublist, sublist_take.
Qed.
End selected_request.

(** ** The registry of the eight agents *)

Ltac score_cases :=
  cbv zeta;
  repeat match goal with |- context [if ?b then _ else _] => destruct b end;
  eexists; (split; [reflexivity |]); split; unfold Qle; cbn; lia.

Section registry_of_eight.
Import base_agent orchestrator registered_agents.
Context (rt : Runtime) (str_strip : string → string).
Context (knowledge_base : option offline_knowledge_paths.KnowledgeBase).
Context (p2 p3 p4 p5 p6 p7 p8 : Paths).

Local Abbreviation reg :=
  (registry rt str_strip knowledge_base p2 p3 p4 p5 p6 p7 p8).

Lemma offline_knowledge_scores q ctx :
  scores_within (3 # 10) (9 # 10) (offline_knowledge_agent.can_handle rt) q ctx.
Proof. unfold scores_within, offline_knowledge_agent.can_handle. score_cases. Qed.

Lemma study_assistant_scores q ctx :
  scores_within (4 # 10) (95 # 100) (study_assistant_can_handle rt str_strip) q ctx.
Proof. unfold scores_within, study_assistant_can_handle. score_cases. Qed.

Lemma voice_interface_scores q ctx :
  scores_within 0 1 (voice_interface_can_handle rt) q ctx.
Proof. unfold scores_within, voice_interface_can_handle. score_cases. Qed.

Lemma language_support_scores q ctx :
  scores_within 0 1 (language_support_can_handle rt) q ctx.
Proof. unfold scores_within, language_support_can_handle. score_cases. Qed.

Lemma assessment_scores q ctx :
  scores_within (2 # 10) (9 # 10) (assessment_can_handle rt) q ctx.
Proof. unfold scores_within, assessment_can_handle. score_cases. Qed.

Lemma content_discovery_scores q ctx :
  scores_within (3 # 10) (85 # 100) (content_discovery_can_handle rt) q ctx.
Proof. unfold scores_within, content_discovery_can_handle. score_cases. Qed.

Lemma study_path_planner_scores q ctx :
  scores_within (2 # 10) (95 # 100) (study_path_planner_can_handle rt) q ctx.
Proof. unfold scores_within, study_path_planner_can_handle. score_cases. Qed.

Lemma accessibility_scores q ctx :
  scores_within 0 1 (accessibility_can_handle rt) q ctx.
Proof. unfold scores_within, accessibility_can_handle. score_cases. Qed.

Lemma scores_within_weaken lo hi lo' hi' f q ctx :
  (lo' <= lo)%Q → (hi <= hi')%Q →
  scores_within lo hi f q ctx → scores_within lo' hi' f q ctx.
Proof.
  intros Hlo Hhi (s & Hs & H1 & H2). exists s. split; [exact Hs |].
  split; eapply Qle_trans; eassumption.
Qed.

Lemma scores_within_score_of lo hi a q ctx :
  scores_within lo hi (can_handle a) q ctx →
  is_Ok (can_handle a q ctx)
  ∧ can_handle a q ctx = Ok (score_of q ctx a)
  ∧ (lo <= score_of q ctx a)%Q ∧ (score_of q ctx a <= hi)%Q.
Proof.
  intros (s & Hs & H1 & H2). unfold score_of, is_Ok. rewrite Hs. eauto.
Qed.

(** The eight entries, each with the range of its scores. *)
Lemma registry_entries (e : string * Agent) q ctx :
  e ∈ reg →
  (e.1 = "offline_knowledge" ∧ priority e.2 = CRITICAL
   ∧ scores_within (3 # 10) (9 # 10) (can_handle e.2) q ctx)
  ∨ (e.1 = "study_assistant" ∧ priority e.2 = HIGH
     ∧ scores_within (4 # 10) (95 # 100) (can_handle e.2) q ctx)
  ∨ (e.1 = "voice_interface" ∧ priority e.2 = HIGH
     ∧ scores_within 0 1 (can_handle e.2) q ctx)
  ∨ (e.1 = "language_support" ∧ priority e.2 = HIGH
     ∧ scores_within 0 1 (can_handle e.2) q ctx)
  ∨ (e.1 = "assessment" ∧ priority e.2 = MEDIUM
     ∧ scores_within (2 # 10) (9 # 10) (can_handle e.2) q ctx)
  ∨ (e.1 = "content_discovery" ∧ priority e.2 = MEDIUM
     ∧ scores_within (3 # 10) (85 # 100) (can_handle e.2) q ctx)
  ∨ (e.1 = "study_path_planner" ∧ priority e.2 = MEDIUM
     ∧ scores_within (2 # 10) (95 # 100) (can_handle e.2) q ctx)
  ∨ (e.1 = "accessibility" ∧ priority e.2 = CRITICAL
     ∧ scores_within 0 1 (can_handle e.2) q ctx).
Proof.
  unfold registry, _initialize_agents. intros He.
  repeat (apply elem_of_cons in He as [-> | He]); [.. | now apply elem_of_nil in He];
    cbn [fst snd].
  - left. repeat split. apply offline_knowledge_scores.
  - right; left. repeat split. apply study_assistant_scores.
  - do 2 right; left. repeat split. apply voice_interface_scores.
  - do 3 right; left. repeat split. apply language_support_scores.
  - do 4 right; left. repeat split. apply assessment_scores.
  - do 5 right; left. repeat split. apply content_discovery_scores.
  - do 6 right; left. repeat split. apply study_path_planner_scores.
  - do 7 right. repeat split. apply accessibility_scores.
Qed.

(** X18. The eight registered agents keep the contract of [can_handle]:
    for every query and context each of them returns a score, without
    raising, and the score lies between 0 and 1. *)
Theorem registered_scores_are_confidences q ctx :
  Forall (λ e : string * Agent,
            ∃ s, can_handle e.2 q ctx = Ok s ∧ (0 <= s)%Q ∧ (s <= 1)%Q)
    reg.
Proof.
  apply Forall_forall. intros e He.
  change (scores_within 0 1 (can_handle e.2) q ctx).
  destruct (registry_entries e q ctx He)
    as [(_ & _ & H) | [(_ & _ & H) | [(_ & _ & H) | [(_ & _ & H)
       | [(_ & _ & H) | [(_ & _ & H) | [(_ & _ & H) | (_ & _ & H)]]]]]]];
    revert H; apply scores_within_weaken; unfold Qle; cbn; lia.
Qed.

Lemma registry_is_Ok q ctx :
  Forall (λ e : string * Agent, is_Ok (can_handle e.2 q ctx)) reg.
Proof.
  apply Forall_forall. intros e He.
  destruct (registry_entries e q ctx He)
    as [(_ & _ & H) | [(_ & _ & H) | [(_ & _ & H) | [(_ & _ & H)
       | [(_ & _ & H) | [(_ & _ & H) | [(_ & _ & H) | (_ & _ & H)]]]]]]];
    destruct H as (s & Hs & _); now exists s.
Qed.

Lemma scores_within_positive lo hi a q ctx :
  (0 < lo)%Q → scores_within lo hi (can_handle a) q ctx →
  (0 < score_of q ctx a)%Q.
Proof.
  intros Hlo H. apply scores_within_score_of in H as (_ & _ & H & _).
  eapply Qlt_le_trans; eassumption.
Qed.

Lemma filter_cons_length {A} (P : A → Prop) `{∀ x, Decision (P x)} x l :
  (length (filter P l) ≤ length (filter P (x :: l)))%nat.
Proof. rewrite filter_cons. destruct (decide (P x)); cbn; lia. Qed.

(** Five of the eight agents score above 0 whatever the query. *)
Lemma registry_candidates_length q ctx :
  (5 ≤ length (candidates reg q ctx))%nat.
Proof.
  unfold candidates. rewrite length_fmap. unfold registry, _initialize_agents.
  rewrite filter_cons_True
    by (eapply scores_within_positive; [| apply offline_knowledge_scores]; reflexivity).
  rewrite filter_cons_True
    by (eapply scores_within_positive; [| apply study_assistant_scores]; reflexivity).
  cbn [length].
  etransitivity; [| apply le_n_S, le_n_S, filter_cons_length].
  etransitivity; [| apply le_n_S, le_n_S, filter_cons_length].
  rewrite filter_cons_True
    by (eapply scores_within_positive; [| apply assessment_scores]; reflexivity).
  rewrite filter_cons_True
    by (eapply scores_within_positive; [| apply content_discovery_scores]; reflexivity).
  rewrite filter_cons_True
    by (eapply scores_within_positive; [| apply study_path_planner_scores]; reflexivity).
  cbn [length]. lia.
Qed.

Lemma registry_select_from q ctx :
  select_from reg q ctx
  = Ok ((λ x : string * Q * Z, (x.1.1, x.1.2))
        <$> take 3 (sort_scores (candidates reg q ctx))).
Proof.
  unfold select_from. now rewrite (score_agents_candidates _ _ _ (registry_is_Ok q ctx)).
Qed.

Lemma registry_selects_three q ctx :
  ∃ primary second third, select_from reg q ctx = Ok [primary; second; third].
Proof.
  rewrite registry_select_from.
  pose proof (registry_candidates_length q ctx) as Hlen.
  rewrite <- (Permutation_length (sort_scores_perm _)) in Hlen.
  destruct (sort_scores (candidates reg q ctx)) as [| x1 [| x2 [| x3 rest]]];
    cbn in Hlen; try lia.
  cbn. eauto.
Qed.

(** X19. With the eight agents registered, [_select_agents] always
    returns exactly three agents, for every query and context and after
    any run of requests: a primary agent is always found, so a request
    never falls back to the offline knowledge agent or to the default
    response. *)
Theorem registry_always_selects_three t queries q ctx :
  let st := run_queries rt (initial_state reg t) queries in
  ∃ primary second third,
    select_from (agents (self st)) q ctx = Ok [primary; second; third].
Proof.
  intros st.
  rewrite (erase_stats_select (agents (self st)) reg q ctx)
    by exact (run_queries_erase_stats rt queries (initial_state reg t)).
  apply registry_selects_three.
Qed.

Lemma dict_get_context_or_empty (ctx : Dict) k :
  dict_get (context_or_empty (Some ctx)) k = dict_get ctx k.
Proof.
  unfold context_or_empty. destruct (truthy (VDict ctx)) eqn:Ht; [reflexivity |].
  cbn in Ht. apply negb_false_iff, bool_decide_eq_true in Ht. now rewrite Ht.
Qed.

Lemma accessibility_mode_score q ctx :
  truthy (dict_get ctx "accessibility_mode") = true →
  accessibility_can_handle rt q ctx = Ok 1%Q.
Proof.
  intros H. unfold accessibility_can_handle. cbv zeta.
  now rewrite dict_get_context_or_empty, H.
Qed.

Lemma accessibility_mode_head q ctx :
  truthy (dict_get ctx "accessibility_mode") = true →
  ∃ rest, select_from reg q ctx = Ok (("accessibility", 1%Q) :: rest).
Proof.
  intros Hmode. rewrite registry_select_from.
  set (cands := candidates reg q ctx).
  assert (Hacc : ("accessibility", 1%Q, 1%Z) ∈ cands).
  { pose proof (candidates_intro reg q ctx ("accessibility", AccessibilityAgent rt p8))
      as H.
    cbn [fst snd] in H. unfold score_of in H. cbn [can_handle AccessibilityAgent
      BaseAgent_init priority AgentPriority_value] in H.
    rewrite (accessibility_mode_score q ctx Hmode) in H. apply H; [| reflexivity].
    unfold registry, _initialize_agents. do 7 apply list_elem_of_further.
    apply list_elem_of_here. }
  rewrite <- (sort_scores_perm cands) in Hacc.
  pose proof (sort_scores_sorted cands) as Hsorted.
  assert (Hsub : ∀ x, x ∈ sort_scores cands → x ∈ cands)
    by (intros x; now rewrite sort_scores_perm).
  destruct (sort_scores cands) as [| h tl]; [now apply elem_of_nil in Hacc |].
  cbn [take fmap list_fmap].
  assert (Hh : h = ("accessibility", 1%Q, 1%Z)); [| rewrite Hh; cbn; eauto].
  apply elem_of_cons in Hacc as [<- | Hacc]; [reflexivity |].
  apply StronglySorted_inv in Hsorted as [_ Hfirst].
  rewrite Forall_forall in Hfirst. specialize (Hfirst _ Hacc).
  unfold ranks_before in Hfirst. cbn [fst snd] in Hfirst.
  destruct (candidates_elem reg q ctx h (Hsub h (list_elem_of_here _ _)))
    as (_ & e & He & Hk & Hs & Hp).
  destruct h as [[k s] p]. cbn [fst snd] in *. subst k s p.
  destruct (registry_entries e q ctx He)
    as [(Hid & Hpr & H) | [(Hid & Hpr & H) | [(Hid & Hpr & H) | [(Hid & Hpr & H)
       | [(Hid & Hpr & H) | [(Hid & Hpr & H) | [(Hid & Hpr & H) | (Hid & Hpr & H)]]]]]]];
    apply scores_within_score_of in H as (_ & Hc & Hlo & Hhi);
    rewrite Hpr in Hfirst |- *; cbn [AgentPriority_value] in Hfirst |- *;
    try (exfalso; destruct Hfirst as [Hlt | [Heq Hle]];
         [ pose proof (Qlt_le_trans _ _ _ Hlt Hhi) as Habs;
           unfold Qlt in Habs; cbn in Habs; lia
         | first [ lia
                 | rewrite Heq in Hhi; unfold Qle in Hhi; cbn in Hhi; lia ] ]).
  rewrite Hid. f_equal. f_equal.
  unfold registry, _initialize_agents in He.
  repeat (apply elem_of_cons in He as [-> | He]); try discriminate Hid;
    [| now apply elem_of_nil in He].
  unfold score_of. cbn [snd can_handle AccessibilityAgent BaseAgent_init].
  now rewrite (accessibility_mode_score q ctx Hmode).
Qed.

(** X20. With the eight agents registered, a request whose context has
    [accessibility_mode] set is always given to the accessibility agent as
    primary, with confidence 1, whatever the query says and whatever was
    served before. *)
Theorem accessibility_mode_wins t queries q ctx :
  truthy (dict_get ctx "accessibility_mode") = true →
  let st := run_queries rt (initial_state reg t) queries in
  ∃ rest, select_from (agents (self st)) q ctx = Ok (("accessibility", 1%Q) :: rest).
Proof.
  intros Hmode st.
  rewrite (erase_stats_select (agents (self st)) reg q ctx)
    by exact (run_queries_erase_stats rt queries (initial_state reg t)).
  now apply accessibility_mode_head.
Qed.

Lemma registry_run_counters queries : ∀ st,
  erase_stats (agents (self st)) = erase_stats reg →
  let s := orchestrator.stats (self st) in
  let s' := orchestrator.stats (self (run_queries rt st queries)) in
  total_queries s' = (length queries + total_queries s)%nat
  ∧ (orchestrator.successful_responses s' + orchestrator.failed_responses s'
     = length queries
       + (orchestrator.successful_responses s + orchestrator.failed_responses s))%nat
  ∧ usage_total (agent_usage s') = (length queries + usage_total (agent_usage s))%nat.
Proof.
  induction queries as [| [q ctx0] rest IH]; intros st Hst; [cbn; lia |].
  cbn [run_queries length].
  destruct (registry_selects_three q (context_or_empty ctx0))
    as ([pid conf] & second & third & Hsel).
  rewrite <- (erase_stats_select _ _ _ _ Hst) in Hsel.
  pose proof (process_query_selected_counts rt q ctx0 st pid conf _ Hsel) as H.
  cbv zeta in H. destruct H as (H1 & H2 & _ & _ & H5).
  specialize (IH (process_query rt q ctx0 st).2).
  cbv zeta in IH. destruct IH as (I1 & I2 & I3).
  { now rewrite process_query_erase_stats. }
  cbv zeta. rewrite I1, I2, I3, H1, H2, H5, usage_total_bump. lia.
Qed.

(** X21. With the eight agents registered, every request is served by a
    primary agent and counted once: after any run of requests the
    orchestrator's successes and failures add up to the number of
    requests, and so do the usage counts of the agents. *)
Theorem registry_counts_every_request t queries :
  let s := orchestrator.stats (self (run_queries rt (initial_state reg t) queries)) in
  total_queries s = length queries
  ∧ (orchestrator.successful_responses s + orchestrator.failed_responses s
     = length queries)%nat
  ∧ usage_total (agent_usage s) = length queries.
Proof.
  intros s.
  pose proof (registry_run_counters queries (initial_state reg t) eq_refl) as H.
  cbv zeta in H. fold s in H. destruct H as (H1 & H2 & H3).
  cbn in H1, H2, H3. change (usage_total ∅) with 0%nat in H3.
  repeat split; lia.
Qed.
Lemma registry_keys_NoDup : NoDup reg.*1.
Proof.
  change (NoDup ["offline_knowledge"; "study_assistant"; "voice_interface";
                 "language_support"; "assessment"; "content_discovery";
                 "study_path_planner"; "accessibility"]).
  apply (bool_decide_unpack _). vm_compute. exact I.
Qed.

(** C3. With the eight agents that [__init__] registers, every request
    updates the orchestrator's statistics exactly once, after any run of
    requests and for every query and context: [total_queries] grows by 1;
    exactly one of [successful_responses] and [failed_responses] grows by
    1, the first when the response returned reports success and the second
    otherwise, while the other keeps its value; and [agent_usage] grows by
    1 for the primary agent, the top-ranked of the three agents selected,
    and changes for no other agent: the two secondary agents are other
    agents than the primary one.  (A fallback agent is never needed: the
    selection is never empty.) *)
Theorem request_updates_statistics_once t queries q ctx0 :
  let st := run_queries rt (initial_state reg t) queries in
  let s := orchestrator.stats (self st) in
  let out := process_query rt q ctx0 st in
  let s' := orchestrator.stats (self out.2) in
  ∃ primary second third : string * Q,
    select_from (agents (self st)) q (context_or_empty ctx0)
    = Ok [primary; second; third]
    ∧ total_queries s' = S (total_queries s)
    ∧ (if truthy (dict_get out.1 "success")
       then orchestrator.successful_responses s'
            = S (orchestrator.successful_responses s)
            ∧ orchestrator.failed_responses s' = orchestrator.failed_responses s
       else orchestrator.successful_responses s'
            = orchestrator.successful_responses s
            ∧ orchestrator.failed_responses s'
              = S (orchestrator.failed_responses s))
    ∧ default 0%nat (agent_usage s' !! primary.1)
      = S (default 0%nat (agent_usage s !! primary.1))
    ∧ (∀ k, k ≠ primary.1 → agent_usage s' !! k = agent_usage s !! k)
    ∧ second.1 ≠ primary.1
    ∧ third.1 ≠ primary.1.
Proof.
  intros st s out s'.
  assert (Herase : erase_stats (agents (self st)) = erase_stats reg)
    by exact (run_queries_erase_stats rt queries (initial_state reg t)).
  destruct (registry_selects_three q (context_or_empty ctx0))
    as ([pid conf] & second & third & Hsel).
  pose proof (select_from_NoDup _ _ _ _ registry_keys_NoDup Hsel) as Hnd.
  rewrite <- (erase_stats_select _ _ _ _ Herase) in Hsel.
  exists (pid, conf), second, third. split; [exact Hsel |].
  pose proof (process_query_selected_counts rt q ctx0 st pid conf _ Hsel) as Hc.
  cbv zeta in Hc. fold out s s' in Hc. destruct Hc as (H1 & _ & _ & _ & H5).
  pose proof (process_query_selected_outcome rt q ctx0 st pid conf _ Hsel) as Ho.
  cbv zeta in Ho. fold out s s' in Ho.
  split; [exact H1 |]. split; [exact Ho |]. cbn [fst].
  split; [rewrite H5, lookup_insert_eq; reflexivity |].
  split; [intros k Hk; rewrite H5; now apply lookup_insert_ne |].
  cbn [fmap list_fmap fst] in Hnd.
  apply NoDup_cons in Hnd as [Hin _].
  split; intros Heq; apply Hin; rewrite <- Heq.
  - apply list_elem_of_here.
  - apply list_elem_of_further, list_elem_of_here.
Qed.

Lemma registry_agent_after_run t queries k a0 :
  get_agent reg k = Some a0 →
  ∃ a, get_agent (agents (self (run_queries rt (initial_state reg t) queries))) k
       = Some a
       ∧ set_stats a init_stats = set_stats a0 init_stats.
Proof.
  intros Hk.
  pose proof (erase_stats_get _ _ k
                (run_queries_erase_stats rt queries (initial_state reg t))) as H.
  change (agents (self (initial_state reg t))) with reg in H. rewrite Hk in H.
  destruct (get_agent (agents (self (run_queries rt (initial_state reg t) queries))) k)
    as [a |]; [| discriminate].
  exists a. split; [reflexivity |]. cbn in H. congruence.
Qed.

(** X23. With the eight agents registered, a request whose context has
    [accessibility_mode] set is answered by the accessibility agent in
    offline mode, after any run of requests and whatever the context says
    about connectivity: the response names that agent and the mode
    ["offline"]. *)
Theorem accessibility_requests_are_served_offline t queries q ctx0 :
  truthy (dict_get (context_or_empty ctx0) "accessibility_mode") = true →
  let st := run_queries rt (initial_state reg t) queries in
  let response := (process_query rt q ctx0 st).1 in
  response !! "agent_id" = Some (VStr "accessibility")
  ∧ response !! "agent_name" = Some (VStr "Accessibility Agent")
  ∧ response !! "mode" = Some (VStr "offline").
Proof.
  intros Hmode st response.
  destruct (accessibility_mode_head q (context_or_empty ctx0) Hmode) as [rest Hsel].
  rewrite <- (erase_stats_select (agents (self st)) reg q (context_or_empty ctx0))
    in Hsel
    by exact (run_queries_erase_stats rt queries (initial_state reg t)).
  destruct (registry_agent_after_run t queries "accessibility"
              (AccessibilityAgent rt p8) eq_refl) as (a & Ha & Hsame).
  fold st in Ha.
  assert (Hid : agent_id a = "accessibility")
    by exact (f_equal agent_id Hsame).
  assert (Hname : name a = "Accessibility Agent")
    by exact (f_equal name Hsame).
  assert (Hcur : current_mode a = OFFLINE)
    by exact (f_equal current_mode Hsame).
  destruct (process_query_selected rt q ctx0 st "accessibility" 1%Q rest a Hsel Ha)
    as (enh & st2 & _ & Hq).
  unfold response. rewrite Hq. cbn [fst].
  rewrite !lookup_insert_ne by discriminate.
  rewrite !attach_lookup_ne by discriminate.
  destruct (process_envelope_fields rt a q (Some (context_or_empty ctx0)) None
              (ticks (count_query_in (tick st)))) as [(H1 & H2 & H3 & _) _].
  rewrite H1, H2, H3, Hid, Hname, (offline_resolves_offline _ _ Hcur).
  repeat split.
Qed.
End registry_of_eight.

(** ** Two ledgers *)

Section two_ledgers.
Import base_agent orchestrator.
Context (rt : Runtime).

(** X22. The agent and the orchestrator count a declined request
    differently: when the primary agent's path returns a response whose
    [success] is not true, the agent itself records a successful response,
    while the orchestrator records a failed one. *)
Theorem declined_request_counts_both_ways q ctx0 st pid conf secondary a d :
  let ctx := context_or_empty ctx0 in
  select_from (agents (self st)) q ctx = Ok ((pid, conf) :: secondary) →
  get_agent (agents (self st)) pid = Some a →
  run_handler a (resolve_mode a (Some ctx) None) q (Some ctx) = Ok d →
  truthy (dict_get d "success") = false →
  let st' := (process_query rt q ctx0 st).2 in
  orchestrator.failed_responses (orchestrator.stats (self st'))
  = S (orchestrator.failed_responses (orchestrator.stats (self st)))
  ∧ orchestrator.successful_responses (orchestrator.stats (self st'))
    = orchestrator.successful_responses (orchestrator.stats (self st))
  ∧ ∃ a', get_agent (agents (self st')) pid = Some a'
          ∧ base_agent.successful_responses (base_agent.stats a')
            = S (base_agent.successful_responses (base_agent.stats a))
          ∧ base_agent.failed_responses (base_agent.stats a')
            = base_agent.failed_responses (base_agent.stats a).
Proof.
  intros ctx Hsel Ha Hd Hs st'.
  destruct (process_query_selected rt q ctx0 st pid conf secondary a Hsel Ha)
    as (enh & st2 & Hpass & Hq).
  pose proof (process_success_field rt a q (Some ctx) None
                (ticks (count_query_in (tick st)))) as Hf.
  fold ctx in Hpass, Hq, Hf. rewrite Hd in Hf.
  apply (f_equal truthy) in Hf. rewrite Hs in Hf.
  rewrite Hf, andb_false_r in Hpass. destruct Hpass as [-> ->].
  unfold st'. rewrite Hq. cbn [snd]. unfold settle. rewrite Hf.
  unfold after_process. cbn.
  split; [reflexivity |]. split; [reflexivity |].
  rewrite (get_agent_put_eq _ _ _ _ Ha). eexists. split; [reflexivity |].
  rewrite (process_ok rt a q (Some ctx) None _ d Hd). cbn. split; reflexivity.
Qed.
End two_ledgers.

(** ** Resetting statistics *)

Section resetting.
Import base_agent.
Context (rt : Runtime).

Lemma run_calls_set_stats calls : ∀ a t,
  ∃ s, (run_calls rt a calls t).1 = set_stats a s.
Proof.
  induction calls as [| c rest IH]; intros a t; cbn [run_calls].
  - exists (stats a). symmetry. apply set_stats_eta.
  - destruct (process_set_stats rt a (call_query c) (call_context c) (call_mode c) t)
      as [s Hs].
    destruct (process rt a (call_query c) (call_context c) (call_mode c) t)
      as [[r a1] t1].
    cbn [fst snd] in Hs. subst a1.
    destruct (IH (set_stats a s) t1) as [s' ->]. now exists s'.
Qed.

(** X24. [process] touches nothing of an agent but its statistics, so
    [reset_stats] undoes any run of calls: after the reset the agent is
    what it was when its statistics were last fresh, and a newly built
    agent is back as [__init__] built it. *)
Theorem reset_stats_undoes_a_run ident nm prio dm ch off on a calls t :
  reset_stats (run_calls rt a calls t).1 = reset_stats a
  ∧ (let fresh := BaseAgent_init ident nm prio dm ch off on in
     reset_stats (run_calls rt fresh calls t).1 = fresh).
Proof.
  split.
  - destruct (run_calls_set_stats calls a t) as [s ->]. reflexivity.
  - intros fresh. destruct (run_calls_set_stats calls fresh t) as [s ->]. reflexivity.
Qed.
End resetting.

(** ** Instances on the sample data *)

Lemma explicit_mode_ignores_context_witness :
  (base_agent.process sample.rt sample.tutor "explain photosynthesis"
     (Some sample_registry.online_context) (Some base_agent.OFFLINE) 0).1.1
    !! "mode"
  = Some (VStr "offline").
Proof.
  apply (explicit_mode_ignores_context sample.rt sample.tutor
           "explain photosynthesis" (Some sample_registry.online_context)
           (Some base_agent.OFFLINE) 0 base_agent.OFFLINE).
  - reflexivity.
  - discriminate.
Defined.

Lemma selected_agents_shape_witness :
  ∃ selected,
    orchestrator.select_from
      (orchestrator.agents (orchestrator.self sample_selection.ties)) "quiz" ∅
    = Ok selected
    ∧ length selected = 3%nat.
Proof.
  destruct (selected_agents_shape "quiz" ∅ sample_selection.ties)
    as (selected & H1 & H2 & _).
  - repeat constructor; eexists; reflexivity.
  - exists selected. split; [exact H1 |]. rewrite H2. reflexivity.
Defined.

Lemma ranking_keeps_registry_order_on_ties_witness :
  ∃ ranked,
    orchestrator.select_from
      (orchestrator.agents (orchestrator.self sample_selection.ties)) "quiz" ∅
    = Ok ((λ x : string * Q * Z, (x.1.1, x.1.2)) <$> take 3 ranked)
    ∧ filter (same_rank ("any", (9 # 10)%Q, 3%Z)) ranked
      = [("assessment", (9 # 10)%Q, 3%Z)].
Proof.
  destruct (ranking_keeps_registry_order_on_ties "quiz" ∅ sample_selection.ties
              [("language_support", (9 # 10)%Q, 4%Z);
               ("offline_knowledge", (9 # 10)%Q, 1%Z);
               ("assessment", (9 # 10)%Q, 3%Z);
               ("content_discovery", (3 # 10)%Q, 2%Z)])
    as (ranked & H1 & _ & H3).
  - reflexivity.
  - exists ranked. split; [exact H1 |]. rewrite H3. reflexivity.
Defined.

Lemma usage_names_registered_agents_witness :
  is_Some
    (orchestrator.get_agent
       (orchestrator.agents
          (orchestrator.self
             (run_queries sample.rt
                (initial_state
                   [("study_assistant", sample_requests.top_tutor);
                    ("study_path_planner", sample_requests.planner)] 0)
                [("plan my week", None)])))
       "study_assistant").
Proof.
  apply (usage_names_registered_agents sample.rt
           [("study_assistant", sample_requests.top_tutor);
            ("study_path_planner", sample_requests.planner)] 0
           [("plan my week", None)] "study_assistant" 1).
  vm_compute. reflexivity.
Defined.

Lemma knowledge_success_is_a_faq_hit_witness :
  ∃ kb top_faq rest,
    Some sample_knowledge.kb = Some kb
    ∧ offline_knowledge_paths.search_app_faqs kb "how to use the scanner" 3 (VStr "en")
      = Ok (top_faq :: rest).
Proof.
  destruct (knowledge_success_is_a_faq_hit sample.rt (Some sample_knowledge.kb)
              "how to use the scanner" None _ eq_refl eq_refl)
    as (kb & top_faq & rest & H1 & _ & H3 & _).
  exists kb, top_faq, rest. split; [exact H1 | exact H3].
Defined.

Lemma other_queries_need_internet_witness :
  offline_knowledge_paths.process_offline sample.rt (Some sample_knowledge.kb)
    "what is gravity" None
  = offline_knowledge_paths.process_offline sample.rt (Some sample_knowledge.empty_kb)
      "what is gravity" None.
Proof.
  apply (other_queries_need_internet sample.rt sample_knowledge.kb
           sample_knowledge.empty_kb "what is gravity" None).
  reflexivity.
Defined.

Lemma knowledge_alternatives_are_bounded_witness :
  ∃ d l,
    offline_knowledge_paths.process_offline sample.rt (Some sample_knowledge.kb)
      "how to use the scanner" None = Ok d
    ∧ d !! "alternative_results" = Some (VList l)
    ∧ (length l ≤ 2)%nat.
Proof.
  destruct (knowledge_alternatives_are_bounded sample.rt (Some sample_knowledge.kb)
              "how to use the scanner" None _ _ eq_refl eq_refl)
    as (_ & _ & l & _ & _ & Hv & _ & H).
  eexists _, l. split; [reflexivity |]. split; [| exact H].
  rewrite <- Hv. reflexivity.
Defined.

Lemma accessibility_mode_wins_witness :
  ∃ rest,
    orchestrator.select_from
      (orchestrator.agents
         (orchestrator.self
            (run_queries sample.rt (initial_state sample_registry.eight 0)
               [("explain gravity", None)])))
      "solve this equation" sample_registry.accessible
    = Ok (("accessibility", 1%Q) :: rest).
Proof.
  apply (accessibility_mode_wins sample.rt (λ s, s) (Some sample_knowledge.kb)
           (sample_registry.paths "study") (sample_registry.paths "voice")
           (sample_registry.paths "language") (sample_registry.paths "quiz")
           (sample_registry.paths "videos") (sample_registry.paths "plan")
           (sample_registry.paths "accessible") 0 [("explain gravity", None)]
           "solve this equation" sample_registry.accessible).
  reflexivity.
Defined.

Lemma declined_request_counts_both_ways_witness :
  orchestrator.failed_responses
    (orchestrator.stats
       (orchestrator.self
          (orchestrator.process_query sample.rt "find videos" None
             sample_registry.only_videos).2))
  = 1%nat.
Proof.
  destruct (declined_request_counts_both_ways sample.rt "find videos" None
              sample_registry.only_videos "content_discovery" (85 # 100)%Q []
              sample_requests.videos (<["success" := VBool false]> ∅)
              eq_refl eq_refl eq_refl eq_refl)
    as (H & _).
  exact H.
Defined.

Lemma accessibility_requests_are_served_offline_witness :
  (orchestrator.process_query sample.rt "solve this equation"
     (Some sample_registry.accessible)
     (run_queries sample.rt (initial_state sample_registry.eight 0)
        [("explain gravity", None)])).1
    !! "mode"
  = Some (VStr "offline").
Proof.
  apply (accessibility_requests_are_served_offline sample.rt (λ s, s)
           (Some sample_knowledge.kb)
           (sample_registry.paths "study") (sample_registry.paths "voice")
           (sample_registry.paths "language") (sample_registry.paths "quiz")
           (sample_registry.paths "videos") (sample_registry.paths "plan")
           (sample_registry.paths "accessible") 0 [("explain gravity", None)]
           "solve this equation" (Some sample_registry.accessible)).
  reflexivity.
Defined.

Lemma get_stats_lists_all_usage_witness :
  length
    (listed_usage
       (orchestrator_admin.get_stats
          (orchestrator.self
             (run_queries sample.rt (initial_state sample_registry.eight 0)
                [("explain gravity", None)]))))
  = 8%nat.
Proof.
  apply (get_stats_lists_all_usage sample.rt sample_registry.eight 0
           [("explain gravity", None)]).
  apply (bool_decide_unpack _). vm_compute. exact I.
Defined.

Lemma malformed_faq_is_reported_witness :
  (base_agent.process sample.rt
     (base_agent.set_stats
        (offline_knowledge_paths.agent sample.rt (Some sample_malformed.kb))
        base_agent.init_stats)
     "how to use the scanner" None None 0).1.1
    !! "error"
  = Some (VStr "'answer'").
Proof.
  apply (malformed_faq_is_reported sample.rt sample_malformed.kb base_agent.init_stats
           "how to use the scanner" None None 0
           (<["question" := VStr "How do I scan notes?"]> ∅) []);
    reflexivity.
Defined.
